(** * The study-session bot: session lifecycle engine

    A shallow embedding of [src/bot.py]: the calendar arithmetic behind the
    weekly buckets, the four durable tables of [StudyStore], the per-guild
    dictionaries of [StudyBot], and the coroutines [accrue_user_time],
    [enforce_channel_mute], [set_focus_mode], [start_session], [stop_session]
    and [run_pomodoro_cycles], followed by the properties established about
    them. *)

From stdpp Require Import gmap strings list fin_maps pretty.
From Stdlib Require Import ZArith Lia.

Local Open Scope Z_scope.

(** ** Instants, dates and durations

    Every instant the bot handles comes from [datetime.now(timezone.utc)], an
    aware [datetime] of microsecond resolution.  An aware [datetime] is its
    position on the UTC time line, counted in microseconds from
    0001-01-01T00:00:00 UTC, together with the UTC offset of its [tzinfo]; its
    wall-clock fields are the instant shifted by the offset.  A [date] is its
    proleptic Gregorian ordinal ([date.toordinal()], day 1 is 0001-01-01) and
    a [timedelta] is its length in microseconds. *)

Definition us_per_second : Z := 1000000.
Definition us_per_day : Z := 86400 * us_per_second.

Record datetime : Type := mk_datetime
  { dt_instant : Z;      (* microseconds since 0001-01-01T00:00:00 UTC *)
    dt_utcoffset : Z }.  (* tzinfo.utcoffset(), microseconds *)

Definition date : Type := Z.
Definition timedelta : Type := Z.

(** [dt.astimezone(timezone.utc)]: the same instant with offset zero. *)
Definition astimezone_utc (dt : datetime) : datetime :=
  {| dt_instant := dt_instant dt; dt_utcoffset := 0 |}.

(** [dt.date()]: the calendar day of the wall-clock fields. *)
Definition datetime_date (dt : datetime) : date :=
  (dt_instant dt + dt_utcoffset dt) / us_per_day + 1.

(** [date.weekday()]: CPython computes [(toordinal() + 6) % 7], Monday is 0. *)
Definition date_weekday (d : date) : Z := (d + 6) mod 7.

Definition datetime_weekday (dt : datetime) : Z := date_weekday (datetime_date dt).

(** [timedelta(days=n)] and [dt - timedelta]. *)
Definition timedelta_days (n : Z) : timedelta := n * us_per_day.

Definition datetime_sub_timedelta (dt : datetime) (td : timedelta) : datetime :=
  {| dt_instant := dt_instant dt - td; dt_utcoffset := dt_utcoffset dt |}.

(** [a - b] on aware datetimes compares positions on the UTC time line. *)
Definition datetime_sub (a b : datetime) : timedelta := dt_instant a - dt_instant b.

(** [int(td.total_seconds())]: [total_seconds] divides the microsecond count by
    10**6 and [int] truncates towards zero.  (The quotient is a float; it is
    exact to the microsecond for spans below 2**33 seconds, some 272 years.) *)
Definition int_total_seconds (td : timedelta) : Z := Z.quot td us_per_second.

(** 00:00 UTC of a calendar day, as an instant. *)
Definition midnight_utc (d : date) : Z := (d - 1) * us_per_day.

(** The ordinal of a civil date, as [datetime._ymd2ord] computes it. *)
Definition is_leap (year : Z) : bool :=
  (year mod 4 =? 0) && (negb (year mod 100 =? 0) || (year mod 400 =? 0)).

Definition days_before_year (year : Z) : Z :=
  let y := year - 1 in y * 365 + y / 4 - y / 100 + y / 400.

Definition days_in_month (year month : Z) : Z :=
  if month =? 2 then (if is_leap year then 29 else 28)
  else if (month =? 4) || (month =? 6) || (month =? 9) || (month =? 11) then 30
  else 31.

Fixpoint days_before_month_aux (year : Z) (months : nat) : Z :=
  match months with
  | O => 0
  | S n => days_before_month_aux year n + days_in_month year (Z.of_nat (S n))
  end.

Definition days_before_month (year month : Z) : Z :=
  days_before_month_aux year (Z.to_nat (month - 1)).

Definition ymd2ord (year month day : Z) : date :=
  days_before_year year + days_before_month year month + day.

(** [datetime(y, m, d, hh, mm, ss, tzinfo=timezone(timedelta(hours=tz)))]. *)
Definition civil (y m d hh mm ss tz_hours : Z) : datetime :=
  let off := tz_hours * 3600 * us_per_second in
  {| dt_instant := midnight_utc (ymd2ord y m d)
                   + ((hh * 60 + mm) * 60 + ss) * us_per_second - off;
     dt_utcoffset := off |}.

(** [week_start_utc], lines 21-23. *)
Definition week_start_utc (dt : datetime) : date :=
  let dt_utc := astimezone_utc dt in
  datetime_date (datetime_sub_timedelta dt_utc (timedelta_days (datetime_weekday dt_utc))).

(** ** The durable store

    [StudyStore] keeps four sqlite tables.  A table with a primary key is a
    finite map from the key to the remaining columns; [week_start] and the
    instants of [session_history] are stored as ISO text, which determines the
    date or instant it was printed from. *)

Record session_row : Type := mk_session_row
  { sh_guild_id : Z;
    sh_voice_channel_id : Z;
    sh_started_at : datetime;
    sh_ended_at : option datetime;
    sh_duration_seconds : option Z }.

Record StudyStore : Type := mk_store
  { study_time : gmap (Z * Z) Z;              (* (guild_id, user_id) -> total_seconds *)
    weekly_study_time : gmap (Z * Z * date) Z; (* (guild_id, user_id, week_start) -> total_seconds *)
    session_history : gmap Z session_row;      (* id -> row *)
    session_seq : Z;                           (* AUTOINCREMENT: the largest id handed out *)
    guild_config : gmap Z (option Z * option Z) }.

(** [INSERT ... VALUES (key, seconds) ON CONFLICT(key) DO UPDATE SET
    total_seconds = total_seconds + excluded.total_seconds]. *)
Definition upsert_add `{Countable K} (key : K) (seconds : Z) (tbl : gmap K Z) : gmap K Z :=
  match tbl !! key with
  | Some total => <[key := total + seconds]> tbl
  | None => <[key := seconds]> tbl
  end.

(** The two statements and the commit of [add_study_seconds], lines 162-182. *)
Definition add_study_seconds_tx (guild_id user_id seconds : Z) (at_time : datetime)
    (st : StudyStore) : StudyStore :=
  let start_of_week := week_start_utc at_time in
  {| study_time := upsert_add (guild_id, user_id) seconds (study_time st);
     weekly_study_time :=
       upsert_add (guild_id, user_id, start_of_week) seconds (weekly_study_time st);
     session_history := session_history st;
     session_seq := session_seq st;
     guild_config := guild_config st |}.

(** [create_session_record], lines 135-145: the new row and [cursor.lastrowid]. *)
Definition create_session_record_tx (guild_id voice_channel_id : Z) (started_at : datetime)
    (st : StudyStore) : StudyStore * Z :=
  let rowid := session_seq st + 1 in
  ({| study_time := study_time st;
      weekly_study_time := weekly_study_time st;
      session_history :=
        <[rowid := mk_session_row guild_id voice_channel_id started_at None None]>
          (session_history st);
      session_seq := rowid;
      guild_config := guild_config st |}, rowid).

(** [close_session_record], lines 147-157: [UPDATE ... WHERE id = ?]. *)
Definition close_row (ended_at : datetime) (duration_seconds : Z) (r : session_row)
    : session_row :=
  mk_session_row (sh_guild_id r) (sh_voice_channel_id r) (sh_started_at r)
    (Some ended_at) (Some duration_seconds).

Definition close_session_record_tx (session_id : Z) (ended_at : datetime)
    (duration_seconds : Z) (st : StudyStore) : StudyStore :=
  {| study_time := study_time st;
     weekly_study_time := weekly_study_time st;
     session_history := alter (close_row ended_at duration_seconds) session_id (session_history st);
     session_seq := session_seq st;
     guild_config := guild_config st |}.

(** [reset_weekly_data], lines 214-221: [DELETE FROM weekly_study_time WHERE
    guild_id = ? AND week_start = ?], returning [cursor.rowcount]. *)
Definition in_bucket (guild_id : Z) (week_start : date) (row : Z * Z * date * Z) : Prop :=
  row.1.1.1 = guild_id ∧ row.1.2 = week_start.

Definition reset_weekly_data_tx (guild_id : Z) (week_start : date) (st : StudyStore)
    : StudyStore * Z :=
  ({| study_time := study_time st;
      weekly_study_time :=
        filter (λ row, ¬ in_bucket guild_id week_start row) (weekly_study_time st);
      session_history := session_history st;
      session_seq := session_seq st;
      guild_config := guild_config st |},
   Z.of_nat (size (filter (in_bucket guild_id week_start) (weekly_study_time st)))).

(** [get_user_seconds], lines 223-230. *)
Definition get_user_seconds (guild_id user_id : Z) (st : StudyStore) : Z :=
  default 0 (study_time st !! (guild_id, user_id)).

(** [upsert_guild_config], lines 105-122: [INSERT ... ON CONFLICT(guild_id) DO
    UPDATE] of both columns. *)
Definition upsert_guild_config_tx (guild_id study_voice_channel_id study_category_id : Z)
    (st : StudyStore) : StudyStore :=
  {| study_time := study_time st;
     weekly_study_time := weekly_study_time st;
     session_history := session_history st;
     session_seq := session_seq st;
     guild_config :=
       <[guild_id := (Some study_voice_channel_id, Some study_category_id)]> (guild_config st) |}.

(** [get_guild_config], lines 124-133. *)
Definition get_guild_config (guild_id : Z) (st : StudyStore) : option Z * option Z :=
  match guild_config st !! guild_id with
  | None => (None, None)
  | Some row => row
  end.

(** The ids of [session_history] are handed out by [AUTOINCREMENT]: none
    exceeds the largest one handed out so far. *)
Definition store_wf (st : StudyStore) : Prop :=
  ∀ session_id row, session_history st !! session_id = Some row → session_id ≤ session_seq st.

(** ** The chat platform, as the bot's cache shows it

    A guild object holds its channels, its members and the voice states the
    gateway last reported.  [_voice_states] is a dictionary in arrival order,
    so it is an association list here: the order in which [channel.members]
    yields members is the order in which the loops below visit them. *)

Inductive channel_kind : Type := VoiceChannel | TextChannel | CategoryChannel.

(** [isinstance(channel, discord.abc.Messageable)] *)
Definition is_messageable (k : channel_kind) : bool :=
  match k with
  | VoiceChannel | TextChannel => true
  | CategoryChannel => false
  end.

Record VoiceState : Type := mk_voice { vs_channel : Z; vs_mute : bool }.

Record Member : Type := mk_member { member_id : Z; member_bot : bool }.

Record Guild : Type := mk_guild
  { channels : gmap Z channel_kind;        (* guild.get_channel; threads are not in it *)
    members : gmap Z bool;                 (* guild.get_member: user id -> member.bot *)
    voice_states : list (Z * VoiceState) }.

Definition empty_guild : Guild := mk_guild ∅ ∅ [].

Fixpoint assoc {V} (key : Z) (l : list (Z * V)) : option V :=
  match l with
  | [] => None
  | (k, v) :: rest => if decide (k = key) then Some v else assoc key rest
  end.

(** [member.voice] *)
Definition member_voice (gd : Guild) (user_id : Z) : option VoiceState :=
  assoc user_id (voice_states gd).

(** [channel.members] of a voice channel. *)
Definition channel_members (gd : Guild) (channel_id : Z) : list Member :=
  omap (λ entry : Z * VoiceState,
          if decide (vs_channel entry.2 = channel_id)
          then mk_member entry.1 <$> members gd !! entry.1
          else None)
       (voice_states gd).

(** [guild.get_channel(id)] followed by [isinstance(channel, discord.VoiceChannel)]. *)
Definition get_voice_channel (gd : Guild) (channel_id : Z) : option Z :=
  match channels gd !! channel_id with
  | Some VoiceChannel => Some channel_id
  | _ => None
  end.

(** ** Dictionaries that are iterated

    [bot.session_joined_at[guild.id]] is a [dict] from user ids to join
    instants whose keys the code lists (lines 355 and 398).  A [dict] lists its
    keys in the order in which they were first inserted, so the dictionary is
    kept as the list of its entries in that order: [d[k] = v] replaces the
    value in place when [k] is there and appends the entry when it is not,
    [d.pop(k, None)] removes the entry, and a comprehension inserts its items
    one after the other. *)
Record odict : Type := mk_odict { od_entries : list (Z * datetime) }.

Fixpoint od_set (k : Z) (v : datetime) (l : list (Z * datetime)) : list (Z * datetime) :=
  match l with
  | [] => [(k, v)]
  | (k', v') :: rest =>
      if decide (k' = k) then (k, v) :: rest else (k', v') :: od_set k v rest
  end.

#[global] Instance odict_empty : Empty odict := mk_odict [].
#[global] Instance odict_lookup : Lookup Z datetime odict :=
  λ k d, assoc k (od_entries d).
#[global] Instance odict_insert : Insert Z datetime odict :=
  λ k v d, mk_odict (od_set k v (od_entries d)).
#[global] Instance odict_delete : Delete Z odict :=
  λ k d, mk_odict (filter (λ e, e.1 ≠ k) (od_entries d)).

(** [list(d.keys())] *)
Definition od_keys (d : odict) : list Z := (od_entries d).*1.

(** ** The bot's state *)

(** [ActiveSession].  The first three fields are never reassigned.  The fourth,
    [enforce_mute_task], is assigned after construction and read back through
    whichever reference holds the object, so it is kept in the world's
    [enforce_mute_task] store under the identity of the object. *)
Record ActiveSession : Type := mk_session
  { guild_id : Z;
    voice_channel_id : Z;
    started_at : datetime;
    session_obj : Z }.

Record PomodoroState : Type := mk_pomodoro
  { task_handle : Z;
    text_channel_id : Z;
    work_minutes : Z;
    break_minutes : Z;
    cycles : Z }.

(** What [asyncio.create_task] was handed. *)
Inductive task_body : Type :=
| EnforceTask (session : ActiveSession)
| PomodoroTask (guild_id channel_id work_minutes break_minutes cycles : Z).

Record World : Type := mk_world
  { (* StudyBot.__init__, lines 241-247 *)
    store : StudyStore;
    active_sessions : gmap Z ActiveSession;
    active_session_record_id : gmap Z Z;
    enforced_user_ids : gmap Z (gset Z);
    session_joined_at : gmap Z odict;
    focus_mode_active : gmap Z bool;
    pomodoro_states : gmap Z PomodoroState;
    (* the mutable field of the ActiveSession objects *)
    enforce_mute_task : gmap Z Z;
    (* asyncio: tasks created, cancellations requested, next fresh identity *)
    tasks : gmap Z task_body;
    cancel_requested : gset Z;
    next_id : Z;
    (* the platform cache and the wall clock *)
    guilds : gmap Z Guild;
    clock : Z }.

Definition set_store (f : StudyStore → StudyStore) (w : World) : World :=
  mk_world (f (store w)) (active_sessions w) (active_session_record_id w)
    (enforced_user_ids w) (session_joined_at w) (focus_mode_active w) (pomodoro_states w)
    (enforce_mute_task w) (tasks w) (cancel_requested w) (next_id w) (guilds w) (clock w).

Definition set_active_sessions (f : gmap Z ActiveSession → gmap Z ActiveSession)
    (w : World) : World :=
  mk_world (store w) (f (active_sessions w)) (active_session_record_id w)
    (enforced_user_ids w) (session_joined_at w) (focus_mode_active w) (pomodoro_states w)
    (enforce_mute_task w) (tasks w) (cancel_requested w) (next_id w) (guilds w) (clock w).

Definition set_active_session_record_id (f : gmap Z Z → gmap Z Z) (w : World) : World :=
  mk_world (store w) (active_sessions w) (f (active_session_record_id w))
    (enforced_user_ids w) (session_joined_at w) (focus_mode_active w) (pomodoro_states w)
    (enforce_mute_task w) (tasks w) (cancel_requested w) (next_id w) (guilds w) (clock w).

Definition set_enforced_user_ids (f : gmap Z (gset Z) → gmap Z (gset Z)) (w : World) : World :=
  mk_world (store w) (active_sessions w) (active_session_record_id w)
    (f (enforced_user_ids w)) (session_joined_at w) (focus_mode_active w) (pomodoro_states w)
    (enforce_mute_task w) (tasks w) (cancel_requested w) (next_id w) (guilds w) (clock w).

Definition set_session_joined_at
    (f : gmap Z odict → gmap Z odict) (w : World) : World :=
  mk_world (store w) (active_sessions w) (active_session_record_id w)
    (enforced_user_ids w) (f (session_joined_at w)) (focus_mode_active w) (pomodoro_states w)
    (enforce_mute_task w) (tasks w) (cancel_requested w) (next_id w) (guilds w) (clock w).

Definition set_focus_mode_active (f : gmap Z bool → gmap Z bool) (w : World) : World :=
  mk_world (store w) (active_sessions w) (active_session_record_id w)
    (enforced_user_ids w) (session_joined_at w) (f (focus_mode_active w)) (pomodoro_states w)
    (enforce_mute_task w) (tasks w) (cancel_requested w) (next_id w) (guilds w) (clock w).

Definition set_pomodoro_states (f : gmap Z PomodoroState → gmap Z PomodoroState)
    (w : World) : World :=
  mk_world (store w) (active_sessions w) (active_session_record_id w)
    (enforced_user_ids w) (session_joined_at w) (focus_mode_active w) (f (pomodoro_states w))
    (enforce_mute_task w) (tasks w) (cancel_requested w) (next_id w) (guilds w) (clock w).

Definition set_enforce_mute_task (f : gmap Z Z → gmap Z Z) (w : World) : World :=
  mk_world (store w) (active_sessions w) (active_session_record_id w)
    (enforced_user_ids w) (session_joined_at w) (focus_mode_active w) (pomodoro_states w)
    (f (enforce_mute_task w)) (tasks w) (cancel_requested w) (next_id w) (guilds w) (clock w).

Definition set_cancel_requested (f : gset Z → gset Z) (w : World) : World :=
  mk_world (store w) (active_sessions w) (active_session_record_id w)
    (enforced_user_ids w) (session_joined_at w) (focus_mode_active w) (pomodoro_states w)
    (enforce_mute_task w) (tasks w) (f (cancel_requested w)) (next_id w) (guilds w) (clock w).

(** A fresh identity, for an object or a task. *)
Definition bump_next_id (w : World) : World :=
  mk_world (store w) (active_sessions w) (active_session_record_id w)
    (enforced_user_ids w) (session_joined_at w) (focus_mode_active w) (pomodoro_states w)
    (enforce_mute_task w) (tasks w) (cancel_requested w) (next_id w + 1) (guilds w) (clock w).

Definition spawn (body : task_body) (w : World) : World :=
  mk_world (store w) (active_sessions w) (active_session_record_id w)
    (enforced_user_ids w) (session_joined_at w) (focus_mode_active w) (pomodoro_states w)
    (enforce_mute_task w) (<[next_id w := body]> (tasks w)) (cancel_requested w)
    (next_id w + 1) (guilds w) (clock w).

(** The guild object a coroutine was handed, read through the cache. *)
Definition guild_of (w : World) (g : Z) : Guild := default empty_guild (guilds w !! g).

(** [datetime.now(timezone.utc)] *)
Definition utcnow (w : World) : datetime := mk_datetime (clock w) 0.

(** ** Coroutines

    An [await] on the platform, the database or a timer suspends the coroutine:
    other tasks run, and the coroutine is resumed with the reply in whatever
    state those tasks left.  Between two suspensions a coroutine runs alone.
    Exceptions are results: [CancelledError] derives from [BaseException], the
    others from [Exception]. *)

Inductive exn : Type :=
| Forbidden | HTTPException | KeyError | AttributeError | DatabaseError | CancelledError.

Definition is_Exception (e : exn) : bool :=
  match e with
  | CancelledError => false
  | _ => true
  end.

Inductive res (A : Type) : Type :=
| Ret (a : A)
| Raise (e : exn).
Arguments Ret {A} a.
Arguments Raise {A} e.

(** The texts the Pomodoro scheduler posts. *)
Inductive message : Type :=
| MsgFocus (cycle cycles work_minutes : Z)
| MsgBreak (break_minutes : Z)
| MsgFinished (duration : Z)
| MsgStopped (duration : Z).

(** [fmt_duration], lines 260-263. *)
Definition fmt_duration (seconds : Z) : string :=
  let hours := seconds / 3600 in
  let rem := seconds mod 3600 in
  let minutes := rem / 60 in
  let secs := rem mod 60 in
  pretty hours +:+ "h " +:+ pretty minutes +:+ "m " +:+ pretty secs +:+ "s".

Definition render (m : message) : string :=
  match m with
  | MsgFocus cycle cycles work_minutes =>
      "Pomodoro cycle " +:+ pretty cycle +:+ "/" +:+ pretty cycles
        +:+ ": focus for " +:+ pretty work_minutes +:+ " minutes."
  | MsgBreak break_minutes =>
      "Break time: " +:+ pretty break_minutes +:+ " minutes. Focus resumes after the break."
  | MsgFinished duration =>
      "Pomodoro finished. Study session ended after " +:+ fmt_duration duration +:+ "."
  | MsgStopped duration =>
      "Pomodoro stopped. Study session ended after " +:+ fmt_duration duration +:+ "."
  end.

Inductive query : Type :=
| QAddStudySeconds (guild_id user_id seconds : Z) (at_time : datetime)
| QCreateSessionRecord (guild_id voice_channel_id : Z) (started_at : datetime)
| QCloseSessionRecord (session_id : Z) (ended_at : datetime) (duration_seconds : Z)
| QResetWeeklyData (guild_id : Z) (week_start : date).

(** The requests a coroutine suspends on. *)
Inductive op : Type :=
| OpSleep (seconds : Z)                                      (* asyncio.sleep *)
| OpEdit (guild_id user_id : Z) (mute : bool) (reason : string)  (* member.edit *)
| OpSend (guild_id channel_id : Z) (msg : message)           (* text_channel.send *)
| OpRespond (text : string)                                  (* interaction.response.send_message *)
| OpDb (q : query)                                           (* a StudyStore method *)
| OpEnsureStudyChannel (guild_id : Z).                       (* ensure_study_channel *)

Inductive reply : Type :=
| ROk (payload : Z)
| RFail (e : exn).

Inductive coro (A : Type) : Type :=
| Finished (r : res A) (w : World)
| Suspended (o : op) (w : World) (k : reply → World → coro A).
Arguments Finished {A} r w.
Arguments Suspended {A} o w k.

Definition task (A : Type) : Type := World → coro A.

Fixpoint coro_bind {A B} (c : coro A) (f : A → task B) : coro B :=
  match c with
  | Finished (Ret a) w => f a w
  | Finished (Raise e) w => Finished (Raise e) w
  | Suspended o w k => Suspended o w (λ r w', coro_bind (k r w') f)
  end.

(** [try: c except ...: h]; [h e = None] when no clause matches [e]. *)
Fixpoint coro_catch {A} (c : coro A) (h : exn → option (task A)) : coro A :=
  match c with
  | Finished (Ret a) w => Finished (Ret a) w
  | Finished (Raise e) w =>
      match h e with
      | Some handler => handler w
      | None => Finished (Raise e) w
      end
  | Suspended o w k => Suspended o w (λ r w', coro_catch (k r w') h)
  end.

(** [try: c finally: f], for a [finally] block that does not suspend. *)
Fixpoint coro_finally {A} (c : coro A) (f : World → World) : coro A :=
  match c with
  | Finished r w => Finished r (f w)
  | Suspended o w k => Suspended o w (λ r w', coro_finally (k r w') f)
  end.

Definition ret {A} (a : A) : task A := λ w, Finished (Ret a) w.
Definition raise {A} (e : exn) : task A := λ w, Finished (Raise e) w.
Definition bind {A B} (m : task A) (f : A → task B) : task B := λ w, coro_bind (m w) f.
Definition try_except {A} (m : task A) (h : exn → option (task A)) : task A :=
  λ w, coro_catch (m w) h.
Definition try_finally {A} (m : task A) (f : World → World) : task A :=
  λ w, coro_finally (m w) f.
Definition get : task World := λ w, Finished (Ret w) w.
Definition modify (f : World → World) : task unit := λ w, Finished (Ret tt) (f w).

Notation "x <- m ;; k" := (bind m (λ x, k))
  (at level 100, m at next level, right associativity, only parsing).
Notation "m ;;; k" := (bind m (λ _, k))
  (at level 100, right associativity, only parsing).

(** [for x in xs: body x] *)
Fixpoint for_each {X} (xs : list X) (body : X → task unit) : task unit :=
  match xs with
  | [] => ret tt
  | x :: rest => body x ;;; for_each rest body
  end.

(** An [await] on the platform: the reply is the value or the exception. *)
Definition platform_call (o : op) : task Z :=
  λ w, Suspended o w (λ r w',
    match r with
    | ROk v => Finished (Ret v) w'
    | RFail e => Finished (Raise e) w'
    end).

(** [await asyncio.sleep(seconds)]: the only way a sleep fails is by the
    cancellation of the sleeping task. *)
Definition sleep (seconds : Z) : task unit :=
  λ w, Suspended (OpSleep seconds) w (λ r w',
    match r with
    | ROk _ => Finished (Ret tt) w'
    | RFail _ => Finished (Raise CancelledError) w'
    end).

(** An [await] on the store: the transaction takes effect when the call
    returns, on the tables as they are then; a call that raises commits
    nothing. *)
Definition db_call {A} (q : query) (tx : StudyStore → StudyStore * A) : task A :=
  λ w, Suspended (OpDb q) w (λ r w',
    match r with
    | ROk _ => Finished (Ret (tx (store w')).2) (set_store (λ st, (tx st).1) w')
    | RFail e => Finished (Raise e) w'
    end).

Definition member_edit (g user_id : Z) (mute : bool) (reason : string) : task unit :=
  platform_call (OpEdit g user_id mute reason) ;;; ret tt.

Definition send (g channel_id : Z) (msg : message) : task unit :=
  platform_call (OpSend g channel_id msg) ;;; ret tt.

Definition respond (text : string) : task unit :=
  platform_call (OpRespond text) ;;; ret tt.

(** [asyncio.create_task(body)]: the new task's handle. *)
Definition create_task (body : task_body) : task Z :=
  λ w, Finished (Ret (next_id w)) (spawn body w).

(** ** Running a coroutine against an environment

    The environment is a script: one [event] per suspension, giving the reply
    and what the other tasks did to the world meanwhile.  Past the end of the
    script every call succeeds and nothing interferes. *)

Record event : Type := mk_event { ev_reply : reply; ev_during : World → World }.

Definition quiet : event := mk_event (ROk 0) id.

Definition next_event (env : list event) : event :=
  match env with
  | [] => quiet
  | e :: _ => e
  end.

Record outcome (A : Type) : Type := mk_outcome
  { out_res : res A;
    out_world : World;
    out_trace : list op;
    out_rest : list event }.
Arguments mk_outcome {A} _ _ _ _.
Arguments out_res {A} _.
Arguments out_world {A} _.
Arguments out_trace {A} _.
Arguments out_rest {A} _.

Fixpoint run {A} (c : coro A) (env : list event) : outcome A :=
  match c with
  | Finished r w => mk_outcome r w [] env
  | Suspended o w k =>
      let e := next_event env in
      let out := run (k (ev_reply e) (ev_during e w)) (tail env) in
      mk_outcome (out_res out) (out_world out) (o :: out_trace out) (out_rest out)
  end.

(** ** The store's coroutine methods *)

(** [StudyStore.add_study_seconds], lines 159-182. *)
Definition add_study_seconds (guild_id user_id seconds : Z) (at_time : datetime) : task unit :=
  if seconds <=? 0 then ret tt
  else db_call (QAddStudySeconds guild_id user_id seconds at_time)
         (λ st, (add_study_seconds_tx guild_id user_id seconds at_time st, tt)).

Definition create_session_record (guild_id voice_channel_id : Z) (started_at : datetime)
    : task Z :=
  db_call (QCreateSessionRecord guild_id voice_channel_id started_at)
    (create_session_record_tx guild_id voice_channel_id started_at).

Definition close_session_record (session_id : Z) (ended_at : datetime)
    (duration_seconds : Z) : task unit :=
  db_call (QCloseSessionRecord session_id ended_at duration_seconds)
    (λ st, (close_session_record_tx session_id ended_at duration_seconds st, tt)).

Definition reset_weekly_data (guild_id : Z) (week_start : date) : task Z :=
  db_call (QResetWeeklyData guild_id week_start) (reset_weekly_data_tx guild_id week_start).

(** ** The session engine *)

(** [except discord.Forbidden: pass] *)
Definition pass_forbidden (e : exn) : option (task unit) :=
  match e with
  | Forbidden => Some (ret tt)
  | _ => None
  end.

(** [bot.session_joined_at.get(guild_id, {})] *)
Definition ledger (g : Z) (w : World) : odict :=
  default ∅ (session_joined_at w !! g).

(** [list(bot.session_joined_at.get(guild.id, {}).keys())] *)
Definition ledger_keys (g : Z) (w : World) : list Z := od_keys (ledger g w).

(** [bot.enforced_user_ids.get(guild.id, set())] *)
Definition enforced (g : Z) (w : World) : gset Z :=
  default ∅ (enforced_user_ids w !! g).

(** [member.voice and member.voice.mute] *)
Definition voice_muted (v : option VoiceState) : bool :=
  match v with
  | Some vs => vs_mute vs
  | None => false
  end.

(** [{member.id: now for member in channel.members if not member.bot}] *)
Definition seed_ledger (ms : list Member) (now : datetime) : odict :=
  foldl (λ d m, <[member_id m := now]> d) ∅ (filter (λ m, member_bot m = false) ms).

(** [accrue_user_time], lines 293-298. *)
Definition accrue_user_time (g user_id : Z) (now : datetime) : task unit :=
  w <- get ;;
  modify (set_session_joined_at (alter (delete user_id) g)) ;;;
  match ledger g w !! user_id with
  | None => ret tt
  | Some joined_at =>
      let elapsed := int_total_seconds (datetime_sub now joined_at) in
      add_study_seconds g user_id elapsed now
  end.

(** The body of the [while] loop of [enforce_channel_mute], lines 313-328. *)
Definition enforce_iteration (g channel_id : Z) : task unit :=
  try_except
    (w <- get ;;
     if negb (default true (focus_mode_active w !! g)) then
       sleep 5
     else
       (for_each (channel_members (guild_of w g) channel_id) (λ member,
          if member_bot member then ret tt else
          w1 <- get ;;
          match member_voice (guild_of w1 g) (member_id member) with
          | None => ret tt
          | Some voice =>
              if vs_mute voice then ret tt else
              member_edit g (member_id member) true "Active study session enforces mute" ;;;
              w2 <- get ;;
              match enforced_user_ids w2 !! g with
              | None => raise KeyError
              | Some ids =>
                  modify (set_enforced_user_ids <[g := {[member_id member]} ∪ ids]>)
              end
          end) ;;;
        sleep 10))
    (λ e,
       match e with
       | Forbidden => Some (sleep 10)
       | _ => if is_Exception e then Some (sleep 10) else None
       end).

(** How a bounded unrolling of the [while] loop ends. *)
Inductive loop_end : Type :=
| Returned       (* the coroutine returned *)
| StillLooping.  (* the bound was reached with the loop still going *)

Fixpoint enforce_loop (fuel : nat) (g channel_id : Z) : task loop_end :=
  match fuel with
  | O => ret StillLooping
  | S fuel' =>
      w <- get ;;
      if bool_decide (g ∈ dom (active_sessions w)) then
        enforce_iteration g channel_id ;;; enforce_loop fuel' g channel_id
      else ret Returned
  end.

(** [enforce_channel_mute], lines 301-328, its loop unrolled [fuel] times. *)
Definition enforce_channel_mute (fuel : nat) (session : ActiveSession) : task loop_end :=
  w <- get ;;
  match guilds w !! guild_id session with
  | None => ret Returned
  | Some gd =>
      match get_voice_channel gd (voice_channel_id session) with
      | None => ret Returned
      | Some channel_id =>
          modify (set_enforced_user_ids
                    (λ m, <[guild_id session := default ∅ (m !! guild_id session)]> m)) ;;;
          enforce_loop fuel (guild_id session) channel_id
      end
  end.

(** [bot.enforced_user_ids.setdefault(guild.id, set()).add(member.id)] *)
Definition enforced_add (g user_id : Z) : task unit :=
  modify (set_enforced_user_ids (λ m, <[g := {[user_id]} ∪ default ∅ (m !! g)]> m)).

(** [set_focus_mode], lines 331-367. *)
Definition set_focus_mode (g : Z) (enabled : bool) : task unit :=
  w <- get ;;
  match active_sessions w !! g with
  | None => ret tt
  | Some session =>
      match get_voice_channel (guild_of w g) (voice_channel_id session) with
      | None => ret tt
      | Some channel_id =>
          let now := utcnow w in
          modify (set_focus_mode_active <[g := enabled]>) ;;;
          if enabled then
            modify (set_session_joined_at
                      <[g := seed_ledger (channel_members (guild_of w g) channel_id) now]>) ;;;
            for_each (channel_members (guild_of w g) channel_id) (λ member,
              w1 <- get ;;
              if member_bot member
                 || bool_decide (member_voice (guild_of w1 g) (member_id member) = None)
                 || voice_muted (member_voice (guild_of w1 g) (member_id member))
              then ret tt
              else
                try_except
                  (member_edit g (member_id member) true "Pomodoro focus mode started" ;;;
                   enforced_add g (member_id member))
                  pass_forbidden)
          else
            for_each (ledger_keys g w) (λ user_id, accrue_user_time g user_id now) ;;;
            w1 <- get ;;
            for_each (channel_members (guild_of w1 g) channel_id) (λ member,
              if member_bot member then ret tt else
              w2 <- get ;;
              if bool_decide (member_id member ∈ enforced g w2)
                 && voice_muted (member_voice (guild_of w2 g) (member_id member))
              then try_except (member_edit g (member_id member) false "Pomodoro break started")
                     pass_forbidden
              else ret tt)
      end
  end.

(** [ensure_study_channel], lines 266-290, is channel provisioning on the
    platform and the configuration table; the engine sees the voice channel it
    returns. *)
Definition ensure_study_channel (g : Z) : task Z :=
  platform_call (OpEnsureStudyChannel g).

(** [start_session], lines 370-387. *)
Definition start_session (g : Z) : task (bool * option Z) :=
  w <- get ;;
  match active_sessions w !! g with
  | Some existing =>
      ret (false, get_voice_channel (guild_of w g) (voice_channel_id existing))
  | None =>
      channel_id <- ensure_study_channel g ;;
      w1 <- get ;;
      let started_at := utcnow w1 in
      let session := mk_session g channel_id started_at (next_id w1) in
      modify bump_next_id ;;;
      modify (set_active_sessions <[g := session]>) ;;;
      modify (set_focus_mode_active <[g := true]>) ;;;
      modify (set_session_joined_at
                <[g := seed_ledger (channel_members (guild_of w1 g) channel_id) started_at]>) ;;;
      session_id <- create_session_record g channel_id started_at ;;
      modify (set_active_session_record_id <[g := session_id]>) ;;;
      t <- create_task (EnforceTask session) ;;
      modify (set_enforce_mute_task <[session_obj session := t]>) ;;;
      ret (true, Some channel_id)
  end.

(** [stop_session], lines 390-424. *)
Definition stop_session (g : Z) (reason : string) : task (option Z) :=
  w <- get ;;
  modify (set_active_sessions (delete g)) ;;;
  match active_sessions w !! g with
  | None => ret None
  | Some session =>
      let ended_at := utcnow w in
      let duration_seconds := int_total_seconds (datetime_sub ended_at (started_at session)) in
      for_each (ledger_keys g w) (λ user_id, accrue_user_time g user_id ended_at) ;;;
      w1 <- get ;;
      match get_voice_channel (guild_of w1 g) (voice_channel_id session) with
      | Some channel_id =>
          for_each (channel_members (guild_of w1 g) channel_id) (λ member,
            if member_bot member then ret tt else
            w2 <- get ;;
            if bool_decide (member_id member ∈ enforced g w2)
               && voice_muted (member_voice (guild_of w2 g) (member_id member))
            then try_except (member_edit g (member_id member) false reason) pass_forbidden
            else ret tt)
      | None => ret tt
      end ;;;
      modify (set_enforced_user_ids (delete g)) ;;;
      modify (set_session_joined_at (delete g)) ;;;
      modify (set_focus_mode_active (delete g)) ;;;
      w3 <- get ;;
      match enforce_mute_task w3 !! session_obj session with
      | Some t => modify (set_cancel_requested (λ s, {[t]} ∪ s))
      | None => ret tt
      end ;;;
      modify (set_active_session_record_id (delete g)) ;;;
      match active_session_record_id w3 !! g with
      | Some session_id => close_session_record session_id ended_at duration_seconds
      | None => ret tt
      end ;;;
      ret (Some duration_seconds)
  end.

(** The [for] loop of [run_pomodoro_cycles], lines 439-453, over the cycle
    numbers [range(1, cycles + 1)] still to run. *)
Fixpoint pomodoro_loop (g text_channel work_minutes break_minutes cycles : Z)
    (todo : list Z) : task unit :=
  match todo with
  | [] => ret tt
  | cycle :: rest =>
      set_focus_mode g true ;;;
      send g text_channel (MsgFocus cycle cycles work_minutes) ;;;
      sleep (work_minutes * 60) ;;;
      if cycle =? cycles then ret tt
      else
        set_focus_mode g false ;;;
        send g text_channel (MsgBreak break_minutes) ;;;
        sleep (break_minutes * 60) ;;;
        pomodoro_loop g text_channel work_minutes break_minutes cycles rest
  end.

(** The [try] block, lines 439-459. *)
Definition pomodoro_body (g text_channel work_minutes break_minutes cycles : Z) : task unit :=
  pomodoro_loop g text_channel work_minutes break_minutes cycles (seqZ 1 cycles) ;;;
  duration <- stop_session g "Pomodoro completed" ;;
  match duration with
  | Some d => send g text_channel (MsgFinished d)
  | None => ret tt
  end.

(** The [except asyncio.CancelledError] clause, lines 460-466. *)
Definition pomodoro_cancelled (g text_channel : Z) (e : exn) : option (task unit) :=
  match e with
  | CancelledError =>
      Some (duration <- stop_session g "Pomodoro stopped" ;;
            match duration with
            | Some d => send g text_channel (MsgStopped d)
            | None => ret tt
            end ;;;
            raise CancelledError)
  | _ => None
  end.

(** [run_pomodoro_cycles], lines 427-468. *)
Definition run_pomodoro_cycles (g text_channel_id work_minutes break_minutes cycles : Z)
    : task unit :=
  w <- get ;;
  match channels (guild_of w g) !! text_channel_id with
  | Some kind =>
      if is_messageable kind then
        try_finally
          (try_except
             (pomodoro_body g text_channel_id work_minutes break_minutes cycles)
             (pomodoro_cancelled g text_channel_id))
          (set_pomodoro_states (delete g))
      else ret tt
  | None => ret tt
  end.

(** [pomodoro_start], lines 585-625, for an interaction in a guild channel. *)
Definition pomodoro_start (g channel work_minutes break_minutes cycles : Z) : task unit :=
  w <- get ;;
  if bool_decide (g ∈ dom (pomodoro_states w)) then
    respond "A Pomodoro session is already running."
  else
    started <- start_session g ;;
    w1 <- get ;;
    if negb started.1 && negb (bool_decide (g ∈ dom (active_sessions w1))) then
      respond "Could not start or find an active study session."
    else
      t <- create_task (PomodoroTask g channel work_minutes break_minutes cycles) ;;
      modify (set_pomodoro_states
                <[g := mk_pomodoro t channel work_minutes break_minutes cycles]>) ;;;
      match started.2 with
      | None => raise AttributeError
      | Some study_channel =>
          respond ("Pomodoro started: " +:+ pretty work_minutes +:+ "m focus / "
                   +:+ pretty break_minutes +:+ "m break for " +:+ pretty cycles
                   +:+ " cycles in <#" +:+ pretty study_channel +:+ ">.")
      end.

(** [before.channel is not None and before.channel.id == study_channel_id] *)
Definition in_channel (v : option VoiceState) (channel_id : Z) : bool :=
  match v with
  | Some vs => bool_decide (vs_channel vs = channel_id)
  | None => false
  end.

(** [bot.session_joined_at.setdefault(guild.id, {})[member.id] = now] *)
Definition ledger_set (g user_id : Z) (now : datetime) : task unit :=
  modify (set_session_joined_at (λ m, <[g := <[user_id := now]> (default ∅ (m !! g))]> m)).

(** [on_voice_state_update], lines 471-504.  A voice state whose [channel] is
    [None] is [None] here: [before.mute] and [after.mute] are read only where
    the channel is the study channel. *)
Definition on_voice_state_update (g : Z) (member : Member) (before after : option VoiceState)
    : task unit :=
  w <- get ;;
  match active_sessions w !! g with
  | None => ret tt
  | Some session =>
      if member_bot member then ret tt else
      let study_channel_id := voice_channel_id session in
      let now := utcnow w in
      let left_study := in_channel before study_channel_id in
      let joined_study := in_channel after study_channel_id in
      (if left_study && negb joined_study then
         accrue_user_time g (member_id member) now ;;;
         w1 <- get ;;
         if bool_decide (member_id member ∈ enforced g w1) && voice_muted before
         then try_except (member_edit g (member_id member) false "Left study session channel")
                pass_forbidden
         else ret tt
       else ret tt) ;;;
      if joined_study && negb left_study then
        w2 <- get ;;
        if default true (focus_mode_active w2 !! g) then
          ledger_set g (member_id member) now ;;;
          if negb (voice_muted after) then
            try_except
              (member_edit g (member_id member) true "Joined active study session" ;;;
               enforced_add g (member_id member))
              pass_forbidden
          else ret tt
        else ret tt
      else ret tt
  end.

(** [pomodoro.task.cancel()] *)
Definition cancel (t : Z) : task unit := modify (set_cancel_requested (λ s, {[t]} ∪ s)).

(** [start_study], lines 521-536, for an interaction in a guild. *)
Definition start_study (g : Z) : task unit :=
  started <- start_session g ;;
  if negb started.1 then respond "A study session is already active."
  else
    match started.2 with
    | None => raise AttributeError
    | Some channel =>
        respond ("Study session started in <#" +:+ pretty channel
                 +:+ ">. Everyone in that channel will be server-muted.")
    end.

(** [end_study], lines 560-579, for an interaction in a guild. *)
Definition end_study (g : Z) : task unit :=
  w <- get ;;
  match pomodoro_states w !! g with
  | Some pomodoro => cancel (task_handle pomodoro)
  | None => ret tt
  end ;;;
  duration <- stop_session g "Study session ended" ;;
  match duration with
  | None => respond "No active study session."
  | Some d => respond ("Study session ended. Session duration: " +:+ fmt_duration d)
  end.

(** [pomodoro_stop], lines 628-642, for an interaction in a guild. *)
Definition pomodoro_stop (g : Z) : task unit :=
  w <- get ;;
  match pomodoro_states w !! g with
  | None => respond "No Pomodoro is running."
  | Some state =>
      cancel (task_handle state) ;;;
      respond "Stopping Pomodoro..."
  end.

(** ** Vocabulary of the statements *)

(** The announcements among the requests of a trace. *)
Definition announcement (o : op) : option message :=
  match o with
  | OpSend _ _ m => Some m
  | _ => None
  end.

Definition announcements (tr : list op) : list message := omap announcement tr.

(** Focus and break announcements of a run of [n] cycles, the cycles still to
    come being numbered from [i]: focus [i], break, focus [i+1], ..., with a
    break after every focus phase but that of cycle [n]. *)
Fixpoint phase_script (todo : list Z) (n work_minutes break_minutes : Z) : list message :=
  match todo with
  | [] => []
  | i :: rest =>
      MsgFocus i n work_minutes ::
      (if i =? n then [] else MsgBreak break_minutes :: phase_script rest n work_minutes break_minutes)
  end.

Definition is_focus (m : message) : bool :=
  match m with MsgFocus _ _ _ => true | _ => false end.

Definition is_break (m : message) : bool :=
  match m with MsgBreak _ => true | _ => false end.

(** The members a trace tried to mute. *)
Definition mute_attempt (o : op) : option Z :=
  match o with
  | OpEdit _ user_id true _ => Some user_id
  | _ => None
  end.

Definition mute_attempts (tr : list op) : list Z := omap mute_attempt tr.

(** The session-history records a trace asked the store to close. *)
Definition closed_record (o : op) : option Z :=
  match o with
  | OpDb (QCloseSessionRecord session_id _ _) => Some session_id
  | _ => None
  end.

Definition closed_records (tr : list op) : list Z := omap closed_record tr.

(** An environment in which no call fails and no task is cancelled. *)
Definition succeeds (e : event) : Prop := ∃ v, ev_reply e = ROk v.

(** An environment whose other tasks keep a property of the world. *)
Definition keeps (P : World → Prop) (e : event) : Prop := ∀ w, P w → P (ev_during e w).

Definition session_active (g : Z) (w : World) : Prop := is_Some (active_sessions w !! g).
Definition session_inactive (g : Z) (w : World) : Prop := active_sessions w !! g = None.

(** The requests on which, and the states in which, a coroutine can be found
    suspended when every resumption finds the world in [P]. *)
Inductive suspended_at (P : World → Prop) {A} : coro A → op → World → Prop :=
| suspended_here o w k : suspended_at P (Suspended o w k) o w
| suspended_later o w k r w' o'' w'' :
    P w' → suspended_at P (k r w') o'' w'' → suspended_at P (Suspended o w k) o'' w''.

Definition is_suspended {A} (c : coro A) : bool :=
  match c with
  | Suspended _ _ _ => true
  | Finished _ _ => false
  end.

(** The world in which a coroutine first gives up control. *)
Definition first_world {A} (c : coro A) : World :=
  match c with
  | Finished _ w => w
  | Suspended _ w _ => w
  end.

(** ** A logic of coroutines

    [rely] is what is assumed of each suspension: of the request [o] made in
    world [w], the reply [r] and the world [w'] found on resumption.
    [guarantee] is what the coroutine owes at each suspension.  [wp R G c Q]:
    against every environment within [R], the coroutine [c] meets [G] wherever
    it suspends and finishes with a result, a world and a trace in [Q]. *)

Definition rely : Type := op → World → reply → World → Prop.
Definition guarantee : Type := op → World → Prop.

Fixpoint wp {A} (R : rely) (G : guarantee) (c : coro A)
    (Q : res A → World → list op → Prop) : Prop :=
  match c with
  | Finished r w => Q r w []
  | Suspended o w k =>
      G o w ∧ ∀ r w', R o w r w' → wp R G (k r w') (λ r' w'' tr, Q r' w'' (o :: tr))
  end.

Definition obeys (R : rely) (e : event) : Prop :=
  ∀ o w, R o w (ev_reply e) (ev_during e w).

Definition any_env : rely := λ _ _ _ _, True.
Definition no_guarantee : guarantee := λ _ _, True.

(** The other tasks keep [J]; calls may fail and tasks may be cancelled. *)
Definition undisturbed (J : World → Prop) : rely := λ _ w _ w', J w → J w'.

(** Every resumption finds the world in [J]. *)
Definition resumed_in (J : World → Prop) : rely := λ _ _ _ w', J w'.

(** A request that is neither an announcement nor the closing of a record. *)
Definition plain (o : op) : Prop := announcement o = None ∧ closed_record o = None.

(** The postcondition of a routine that leaves the session registry alone:
    [J] still holds and the trace is plain, however the routine ends. *)
Definition framed {A} (J : World → Prop) (r : res A) (w : World) (tr : list op) : Prop :=
  J w ∧ Forall plain tr.

(** A property of the session registry alone. *)
Definition registry (P : gmap Z ActiveSession → Prop) (w : World) : Prop :=
  P (active_sessions w).

(** A routine that, started with the registry in [P], is [framed]. *)
Definition frames {A} (R : rely) (G : guarantee) (P : gmap Z ActiveSession → Prop)
    (m : task A) : Prop :=
  ∀ w, registry P w → wp R G (m w) (framed (registry P)).

(** A routine that keeps the registry in [P] and, when it returns, has
    announced [msgs]. *)
Definition announcing {A} (R : rely) (G : guarantee) (P : gmap Z ActiveSession → Prop)
    (m : task A) (msgs : list message) : Prop :=
  ∀ w, registry P w →
    wp R G (m w) (λ r w' tr, registry P w' ∧ ∀ a, r = Ret a → announcements tr = msgs).

(** The trace of a [stop_session]: plain requests, then at most the closing
    of one record. *)
Definition closes_at_most_once (tr : list op) : Prop :=
  ∃ tr0 last, tr = tr0 ++ last ∧ Forall plain tr0
    ∧ (last = [] ∨ ∃ session_id ended_at d, last = [OpDb (QCloseSessionRecord session_id ended_at d)]).

(** [int((ended_at - session.started_at).total_seconds())] for a stop in [w]. *)
Definition session_duration (w : World) (session : ActiveSession) : Z :=
  int_total_seconds (datetime_sub (utcnow w) (started_at session)).

(** The registry has a session for guild [g]. *)
Definition has_session (g : Z) (m : gmap Z ActiveSession) : Prop := is_Some (m !! g).

(** At every suspension the coroutine can reach, resuming it with
    [CancelledError] ends it with [CancelledError], in the state it was
    resumed in. *)
Fixpoint cancellable {A} (c : coro A) : Prop :=
  match c with
  | Finished _ _ => True
  | Suspended _ _ k =>
      (∀ w', k (RFail CancelledError) w' = Finished (Raise CancelledError) w')
      ∧ ∀ r w', cancellable (k r w')
  end.

Definition ends_with_sleep (tr : list op) : Prop :=
  ∃ tr0 s, tr = tr0 ++ [OpSleep s] ∧ (s = 5 ∨ s = 10).

(** [run] of a sequence: the second coroutine starts where the first ended. *)
Definition and_then {A B} (o1 : outcome A) (f : A → task B) : outcome B :=
  match out_res o1 with
  | Ret a =>
      let o2 := run (f a (out_world o1)) (out_rest o1) in
      mk_outcome (out_res o2) (out_world o2) (out_trace o1 ++ out_trace o2) (out_rest o2)
  | Raise e => mk_outcome (Raise e) (out_world o1) (out_trace o1) (out_rest o1)
  end.

(** ** Runs without interference

    [follows R c env]: at each suspension of the run of [c] against [env], the
    reply and the world found on resumption are within [R]. *)

Fixpoint follows {A} (R : rely) (c : coro A) (env : list event) : Prop :=
  match c with
  | Finished _ _ => True
  | Suspended o w k =>
      R o w (ev_reply (next_event env)) (ev_during (next_event env) w)
      ∧ follows R (k (ev_reply (next_event env)) (ev_during (next_event env) w)) (tail env)
  end.

(** Every call succeeds, except that the platform may refuse a [member.edit]
    for lack of permission, that posting a message may fail, and that the task
    may be cancelled while it sleeps. *)
Definition served (o : op) (r : reply) : Prop :=
  match r with
  | ROk _ => True
  | RFail e =>
      match o with
      | OpEdit _ _ _ _ => e = Forbidden
      | OpSend _ _ _ => is_Exception e = true
      | OpSleep _ => e = CancelledError
      | _ => False
      end
  end.

(** The world [w] with the wall clock at [t]. *)
Definition at_time (t : Z) (w : World) : World :=
  mk_world (store w) (active_sessions w) (active_session_record_id w)
    (enforced_user_ids w) (session_joined_at w) (focus_mode_active w) (pomodoro_states w)
    (enforce_mute_task w) (tasks w) (cancel_requested w) (next_id w) (guilds w) t.

(** [w'] is [w] some time later: nothing but the clock has changed. *)
Definition later (w w' : World) : Prop := ∃ t, clock w ≤ t ∧ w' = at_time t w.

(** While the coroutine is suspended time passes, no other task touches the
    state, nobody moves, and the call is [served]. *)
Definition lenient : rely := λ o w r w', later w w' ∧ served o r.

(** What [accrue_user_time] does to the world when its store call succeeds. *)
Definition accrue_effect (g user_id : Z) (now : datetime) (w : World) : World :=
  let popped := set_session_joined_at (alter (delete user_id) g) w in
  match ledger g w !! user_id with
  | None => popped
  | Some joined_at =>
      let elapsed := int_total_seconds (datetime_sub now joined_at) in
      if elapsed <=? 0 then popped
      else set_store (add_study_seconds_tx g user_id elapsed now) popped
  end.

(** The seconds an accrual at [now] credits to a user: the whole seconds since
    the join instant when there is an entry and they are positive. *)
Definition credit (g user_id : Z) (now : datetime) (w : World) : Z :=
  match ledger g w !! user_id with
  | None => 0
  | Some joined_at => Z.max 0 (int_total_seconds (datetime_sub now joined_at))
  end.

(** The accrual loops of [set_focus_mode] and [stop_session]. *)
Definition settle (g : Z) (now : datetime) (user_ids : list Z) (w : World) : World :=
  foldl (λ w0 user_id, accrue_effect g user_id now w0) w user_ids.

(** [not (member.bot or member.voice is None or member.voice.mute)] *)
Definition to_be_muted (gd : Guild) (member : Member) : bool :=
  negb (member_bot member
        || bool_decide (member_voice gd (member_id member) = None)
        || voice_muted (member_voice gd (member_id member))).

(** [member.id in enforced and member.voice and member.voice.mute], for a
    member that is not a bot. *)
Definition to_be_unmuted (gd : Guild) (ids : gset Z) (member : Member) : bool :=
  negb (member_bot member)
  && (bool_decide (member_id member ∈ ids) && voice_muted (member_voice gd (member_id member))).

(** The body of the unmute loops of [set_focus_mode], lines 358-367, and
    [stop_session], lines 403-412. *)
Definition unmute_enforced (g : Z) (reason : string) (member : Member) : task unit :=
  if member_bot member then ret tt else
  w2 <- get ;;
  if bool_decide (member_id member ∈ enforced g w2)
     && voice_muted (member_voice (guild_of w2 g) (member_id member))
  then try_except (member_edit g (member_id member) false reason) pass_forbidden
  else ret tt.

(** The body of the mute loop of [set_focus_mode], lines 344-353. *)
Definition mute_present (g : Z) (member : Member) : task unit :=
  w1 <- get ;;
  if member_bot member
     || bool_decide (member_voice (guild_of w1 g) (member_id member) = None)
     || voice_muted (member_voice (guild_of w1 g) (member_id member))
  then ret tt
  else
    try_except
      (member_edit g (member_id member) true "Pomodoro focus mode started" ;;;
       enforced_add g (member_id member))
      pass_forbidden.

(** The members a trace tried to unmute. *)
Definition unmute_attempt (o : op) : option Z :=
  match o with
  | OpEdit _ user_id false _ => Some user_id
  | _ => None
  end.

Definition unmute_attempts (tr : list op) : list Z := omap unmute_attempt tr.

(** The store requests of a trace. *)
Definition store_request (o : op) : option query :=
  match o with
  | OpDb q => Some q
  | _ => None
  end.

Definition store_requests (tr : list op) : list query := omap store_request tr.

(** A trace with no announcement, no mute or unmute, and no closing of a
    record. *)
Definition silent (tr : list op) : Prop :=
  announcements tr = [] ∧ mute_attempts tr = [] ∧ unmute_attempts tr = []
  ∧ closed_records tr = [].

(** [w'] is [w] some time later with members of [ids] added to the enforced
    set of guild [g]. *)
Definition grown (g : Z) (ids : gset Z) (w w' : World) : Prop :=
  ∃ t e, clock w ≤ t ∧ w' = at_time t (set_enforced_user_ids (λ _, e) w)
    ∧ (∀ g', g' ≠ g → e !! g' = enforced_user_ids w !! g')
    ∧ default ∅ (enforced_user_ids w !! g) ⊆ default ∅ (e !! g)
    ∧ default ∅ (e !! g) ⊆ default ∅ (enforced_user_ids w !! g) ∪ ids.

(** The members of a list that are not bots. *)
Definition humans (ms : list Member) : list Z :=
  member_id <$> filter (λ m, member_bot m = false) ms.

(** What [start_session] does to a world without a session of guild [g], in a
    run without interference in which [ensure_study_channel] returns
    [channel_id] at time [t]. *)
Definition start_effect (g channel_id t : Z) (w : World) : World :=
  let w1 := at_time t w in
  let started_at := utcnow w1 in
  let session := mk_session g channel_id started_at (next_id w1) in
  let w2 := set_session_joined_at
              <[g := seed_ledger (channel_members (guild_of w1 g) channel_id) started_at]>
              (set_focus_mode_active <[g := true]>
                 (set_active_sessions <[g := session]> (bump_next_id w1))) in
  let w3 := set_store (λ st, (create_session_record_tx g channel_id started_at st).1) w2 in
  let w4 := set_active_session_record_id
              <[g := (create_session_record_tx g channel_id started_at (store w2)).2]> w3 in
  set_enforce_mute_task <[session_obj session := next_id w4]>
    (spawn (EnforceTask session) w4).

(** What [stop_session] does to the world in a run without interference. *)
Definition stop_effect (g : Z) (session : ActiveSession) (w : World) : World :=
  let ended_at := utcnow w in
  let w1 := settle g ended_at (ledger_keys g w) (set_active_sessions (delete g) w) in
  let w2 := set_focus_mode_active (delete g)
              (set_session_joined_at (delete g) (set_enforced_user_ids (delete g) w1)) in
  let w3 := match enforce_mute_task w !! session_obj session with
            | Some t => set_cancel_requested (λ s, {[t]} ∪ s) w2
            | None => w2
            end in
  let w4 := set_active_session_record_id (delete g) w3 in
  match active_session_record_id w !! g with
  | Some session_id =>
      set_store (close_session_record_tx session_id ended_at (session_duration w session)) w4
  | None => w4
  end.

(** The members [stop_session] and [set_focus_mode] try to unmute. *)
Definition unmute_targets (g : Z) (channel : option Z) (w : World) : list Z :=
  match channel with
  | Some channel_id =>
      member_id <$> filter (λ m, to_be_unmuted (guild_of w g) (enforced g w) m = true)
                      (channel_members (guild_of w g) channel_id)
  | None => []
  end.

(** Between [w] and [w'] time has passed with the registry, the record ids and
    the guilds as they were. *)
Definition session_kept (w w' : World) : Prop :=
  active_sessions w' = active_sessions w
  ∧ active_session_record_id w' = active_session_record_id w
  ∧ guilds w' = guilds w
  ∧ clock w ≤ clock w'.

(** How a Pomodoro run that started in [w0] left the session of guild [g]:
    stopped, its record closed; or still registered, no record closed. *)
Definition session_stopped (g : Z) (w0 w' : World) (tr : list op) : Prop :=
  active_sessions w' !! g = None
  ∧ closed_records tr = option_list (active_session_record_id w0 !! g).

Definition session_running (g : Z) (session : ActiveSession) (w' : World) (tr : list op)
    : Prop :=
  active_sessions w' !! g = Some session ∧ closed_records tr = [].

(** The requests of a Pomodoro schedule: focus and break announcements and
    sleeps. *)
Definition phase_request (o : op) : bool :=
  match o with
  | OpSleep _ => true
  | OpSend _ _ m => is_focus m || is_break m
  | _ => false
  end.

(** While the coroutine is suspended time passes, no other task touches the
    state, nobody moves, and the call succeeds. *)
Definition obliging : rely := λ _ w r w', later w w' ∧ ∃ v, r = ROk v.

(** The body of the [for] loop of [enforce_channel_mute], lines 319-324. *)
Definition enforce_member (g : Z) (member : Member) : task unit :=
  if member_bot member then ret tt else
  w1 <- get ;;
  match member_voice (guild_of w1 g) (member_id member) with
  | None => ret tt
  | Some voice =>
      if vs_mute voice then ret tt else
      member_edit g (member_id member) true "Active study session enforces mute" ;;;
      w2 <- get ;;
      match enforced_user_ids w2 !! g with
      | None => raise KeyError
      | Some ids => modify (set_enforced_user_ids <[g := {[member_id member]} ∪ ids]>)
      end
  end.

(** ** Turns of the enforcement loop *)

(** The sleeps among the requests of a trace: each turn of the loop that runs
    to its end makes one. *)
Definition sleep_request (o : op) : option Z :=
  match o with
  | OpSleep seconds => Some seconds
  | _ => None
  end.

Definition sleeps (tr : list op) : nat := length (omap sleep_request tr).

(** A call that is not the cancellation of the task: it succeeds, or it is not
    a sleep and fails with an [Exception]. *)
Definition not_cancelled (o : op) (r : reply) : Prop :=
  match r with
  | ROk _ => True
  | RFail e => is_Exception e = true ∧ sleep_request o = None
  end.

(** The session stays registered and the task is not cancelled; any call but
    a sleep may fail, and the other tasks may do anything else. *)
Definition surviving (g : Z) : rely := λ o _ r w', session_active g w' ∧ not_cancelled o r.

(** What ends a pass over the members: nothing, an [Exception], or, where
    cancellation is possible ([C]), [CancelledError]. *)
Definition pass_end (C : Prop) (r : res unit) : Prop :=
  match r with
  | Ret _ => True
  | Raise e => is_Exception e = true ∨ (e = CancelledError ∧ C)
  end.

(** ** The store as the callers see it *)

(** What a call of [add_study_seconds] that returns has done to the tables:
    nothing for an amount of zero or less (line 160), the two upserts
    otherwise. *)
Definition add_study_seconds_effect (guild_id user_id seconds : Z) (at_time : datetime)
    (st : StudyStore) : StudyStore :=
  if seconds <=? 0 then st else add_study_seconds_tx guild_id user_id seconds at_time st.

(** SQLite keeps an [INTEGER] in 64 bits. *)
Definition int64_max : Z := 2 ^ 63 - 1.

(** The amounts [s1] and [s2], added to any total of the store, stay within
    64 bits. *)
Definition within_int64 (s1 s2 : Z) (st : StudyStore) : Prop :=
  Z.max 0 s1 + Z.max 0 s2 ≤ int64_max
  ∧ (∀ key total, study_time st !! key = Some total →
       0 ≤ total ∧ total + Z.max 0 s1 + Z.max 0 s2 ≤ int64_max)
  ∧ (∀ key total, weekly_study_time st !! key = Some total →
       0 ≤ total ∧ total + Z.max 0 s1 + Z.max 0 s2 ≤ int64_max).

(** ** Sample worlds

    Guild 7 has a voice channel 10, a text channel 20 and a category 30; the
    members 1 and 2 and the bot 3 sit unmuted in the voice channel. *)

Definition sample_guild : Guild :=
  mk_guild (<[10 := VoiceChannel]> (<[20 := TextChannel]> (<[30 := CategoryChannel]> ∅)))
    (<[1 := false]> (<[2 := false]> (<[3 := true]> ∅)))
    [(1, mk_voice 10 false); (2, mk_voice 10 false); (3, mk_voice 10 false)].

Definition empty_store : StudyStore := mk_store ∅ ∅ ∅ 0 ∅.

(** 2026-11-03T10:00:00 UTC *)
Definition sample_clock : Z := dt_instant (civil 2026 11 3 10 0 0 0).

(** No session anywhere. *)
Definition idle_world : World :=
  mk_world empty_store ∅ ∅ ∅ ∅ ∅ ∅ ∅ ∅ ∅ 0 (<[7 := sample_guild]> ∅) sample_clock.

(** A session of guild 7 in channel 10, as [start_session] leaves it. *)
Definition studying_world : World :=
  out_world (run (start_session 7 idle_world) [mk_event (ROk 10) id]).

(** The same session after the voice channel was deleted from the guild. *)
Definition channel_gone_world : World :=
  mk_world (store studying_world) (active_sessions studying_world)
    (active_session_record_id studying_world) (enforced_user_ids studying_world)
    (session_joined_at studying_world) (focus_mode_active studying_world)
    (pomodoro_states studying_world) (enforce_mute_task studying_world)
    (tasks studying_world) (cancel_requested studying_world) (next_id studying_world)
    (<[7 := mk_guild (<[20 := TextChannel]> ∅) (members sample_guild)
                (voice_states sample_guild)]> ∅)
    (clock studying_world).

(** The session two minutes later. *)
Definition later_world : World :=
  mk_world (store studying_world) (active_sessions studying_world)
    (active_session_record_id studying_world) (enforced_user_ids studying_world)
    (session_joined_at studying_world) (focus_mode_active studying_world)
    (pomodoro_states studying_world) (enforce_mute_task studying_world)
    (tasks studying_world) (cancel_requested studying_world) (next_id studying_world)
    (guilds studying_world) (sample_clock + 120 * us_per_second).

(** [/pomodoro_start 25 5 2] invoked from a thread, id 99: [guild.get_channel]
    does not know threads.  The world is as the command leaves it, with the
    task it created not yet run. *)
Definition thread_world : World :=
  out_world (run (pomodoro_start 7 99 25 5 2 idle_world) [mk_event (ROk 10) id]).

(** The [ActiveSession] of the sample worlds. *)
Definition sample_session : ActiveSession := mk_session 7 10 (mk_datetime sample_clock 0) 0.

(** The session with its enforcement task started: [enforce_channel_mute] has
    run up to its loop. *)
Definition enforcing_world : World :=
  out_world (run (enforce_channel_mute 0 sample_session
                    studying_world) []).

(** Events: a call that raises [e]; a suspension during which another task
    takes guild [g] out of the registry. *)
Definition refuses (e : exn) : event := mk_event (RFail e) id.
Definition session_ended_meanwhile (g : Z) : event :=
  mk_event (ROk 0) (set_active_sessions (delete g)).

(** An environment that refuses the first call for lack of permission. *)
Definition refuse_first : list event := [refuses Forbidden].

(** * Properties *)

(** ** Coroutines *)

Lemma run_bind {A B} (c : coro A) (f : A → task B) env :
  run (coro_bind c f) env = and_then (run c env) f.
Proof.
  revert env. induction c as [[a|e] w|o w k IH]; intros env; simpl.
  - unfold and_then; simpl. by destruct (run (f a w) env).
  - done.
  - rewrite IH. unfold and_then; simpl.
    by destruct (out_res (run (k _ _) _)).
Qed.

Lemma run_finally_world {A} (c : coro A) f env :
  out_world (run (coro_finally c f) env) = f (out_world (run c env)).
Proof. revert env. induction c as [r w|o w k IH]; intros env; simpl; [done|apply IH]. Qed.

Lemma run_finally_res {A} (c : coro A) f env :
  out_res (run (coro_finally c f) env) = out_res (run c env)
  ∧ out_trace (run (coro_finally c f) env) = out_trace (run c env)
  ∧ out_rest (run (coro_finally c f) env) = out_rest (run c env).
Proof.
  revert env. induction c as [r w|o w k IH]; intros env; simpl; [done|].
  destruct (IH (ev_reply (next_event env)) (ev_during (next_event env) w) (tail env))
    as (-> & -> & ->). done.
Qed.

Lemma wp_mono {A} R G (c : coro A) (Q Q' : res A → World → list op → Prop) :
  (∀ r w tr, Q r w tr → Q' r w tr) → wp R G c Q → wp R G c Q'.
Proof.
  revert Q Q'. induction c as [r w|o w k IH]; intros Q Q' HQ; simpl; [by auto|].
  intros [Hg Hk]. split; [done|]. intros r w' Hr.
  eapply IH; [|by apply Hk]. simpl. auto.
Qed.

Lemma wp_bind {A B} R G (c : coro A) (f : A → task B) Q :
  wp R G c (λ r w tr,
    match r with
    | Ret a => wp R G (f a w) (λ r' w' tr', Q r' w' (tr ++ tr'))
    | Raise e => Q (Raise e) w tr
    end) →
  wp R G (coro_bind c f) Q.
Proof.
  revert Q. induction c as [[a|e] w|o w k IH]; intros Q; simpl; [done|done|].
  intros [Hg Hk]. split; [done|]. intros r w' Hr. apply IH.
  eapply wp_mono; [|by apply Hk]. intros [a|e] w'' tr; simpl; done.
Qed.

Lemma wp_catch {A} R G (c : coro A) (h : exn → option (task A)) Q :
  wp R G c (λ r w tr,
    match r with
    | Ret a => Q (Ret a) w tr
    | Raise e =>
        match h e with
        | Some handler => wp R G (handler w) (λ r' w' tr', Q r' w' (tr ++ tr'))
        | None => Q (Raise e) w tr
        end
    end) →
  wp R G (coro_catch c h) Q.
Proof.
  revert Q. induction c as [[a|e] w|o w k IH]; intros Q; simpl; [done| |].
  - destruct (h e); done.
  - intros [Hg Hk]. split; [done|]. intros r w' Hr. apply IH.
    eapply wp_mono; [|by apply Hk]. intros [a|e] w'' tr; simpl; [done|].
    destruct (h e); done.
Qed.

Lemma wp_any {A} R (c : coro A) (Q : res A → World → list op → Prop) :
  (∀ r w tr, Q r w tr) → wp R no_guarantee c Q.
Proof.
  revert Q. induction c as [r w|o w k IH]; intros Q HQ; simpl; [done|].
  split; [done|]. intros r w' _. apply IH. auto.
Qed.

Lemma wp_run {A} R G (c : coro A) Q env :
  obeys R quiet → Forall (obeys R) env → wp R G c Q →
  Q (out_res (run c env)) (out_world (run c env)) (out_trace (run c env)).
Proof.
  intros Hq. revert Q env. induction c as [r w|o w k IH]; intros Q env Henv; simpl; [done|].
  intros [_ Hk].
  assert (obeys R (next_event env)) as He.
  { destruct env; simpl; [done|]. by inversion Henv. }
  assert (Forall (obeys R) (tail env)) as Ht.
  { destruct env; simpl; [done|]. by inversion Henv. }
  apply (IH _ _ (λ r' w'' tr, Q r' w'' (o :: tr)) _ Ht). apply Hk. apply He.
Qed.

(** ** The weekly bucket key *)

Lemma us_per_day_pos : 0 < us_per_day.
Proof. reflexivity. Qed.

Lemma week_start_utc_eq (dt : datetime) :
  week_start_utc dt
  = dt_instant dt / us_per_day + 1 - date_weekday (dt_instant dt / us_per_day + 1).
Proof.
  unfold week_start_utc, datetime_date, datetime_sub_timedelta, astimezone_utc,
    datetime_weekday, datetime_date, timedelta_days; simpl.
  rewrite !Z.add_0_r.
  set (k := date_weekday _).
  replace (dt_instant dt - k * us_per_day) with (dt_instant dt + (- k) * us_per_day) by lia.
  rewrite Z.div_add by (pose proof us_per_day_pos; lia). lia.
Qed.

Lemma day_bounds (t : Z) :
  midnight_utc (t / us_per_day + 1) ≤ t < midnight_utc (t / us_per_day + 1) + us_per_day.
Proof.
  unfold midnight_utc. pose proof us_per_day_pos as Hpos.
  pose proof (Z.div_mod t us_per_day ltac:(lia)) as Hdm.
  pose proof (Z.mod_pos_bound t us_per_day Hpos) as Hb. nia.
Qed.

Lemma weekday_range (d : date) : 0 ≤ date_weekday d < 7.
Proof. unfold date_weekday. apply Z.mod_pos_bound. lia. Qed.

Lemma monday_before (d : date) : date_weekday (d - date_weekday d) = 0.
Proof.
  unfold date_weekday.
  pose proof (Z.div_mod (d + 6) 7 ltac:(lia)) as Hdm.
  replace (d - (d + 6) mod 7 + 6) with (((d + 6) / 7) * 7) by lia.
  apply Z.mod_mul. lia.
Qed.

Lemma mondays_apart (a b : date) :
  date_weekday a = 0 → date_weekday b = 0 → a < b → a + 7 ≤ b.
Proof.
  unfold date_weekday. intros Ha Hb Hlt.
  pose proof (Z.div_mod (a + 6) 7 ltac:(lia)).
  pose proof (Z.div_mod (b + 6) 7 ltac:(lia)). lia.
Qed.

(** C7.  The weekly bucket key of an instant is a Monday, that Monday's 00:00
    UTC is at or before the instant and less than seven days before it, no
    later Monday starts at or before the instant, the key does not depend on
    the time zone the instant is expressed in, and two instants of one UTC
    Monday-to-Sunday week have the same key. *)
Theorem week_start_utc_is_monday_of_utc_week (dt : datetime) :
  date_weekday (week_start_utc dt) = 0
  ∧ midnight_utc (week_start_utc dt) ≤ dt_instant dt
      < midnight_utc (week_start_utc dt) + 7 * us_per_day
  ∧ (∀ monday, date_weekday monday = 0 → midnight_utc monday ≤ dt_instant dt →
       monday ≤ week_start_utc dt)
  ∧ (∀ offset, week_start_utc (mk_datetime (dt_instant dt) offset) = week_start_utc dt)
  ∧ (∀ dt' monday,
       date_weekday monday = 0 →
       midnight_utc monday ≤ dt_instant dt < midnight_utc monday + 7 * us_per_day →
       midnight_utc monday ≤ dt_instant dt' < midnight_utc monday + 7 * us_per_day →
       week_start_utc dt' = week_start_utc dt).
Proof.
  assert (∀ t : datetime,
    date_weekday (week_start_utc t) = 0
    ∧ midnight_utc (week_start_utc t) ≤ dt_instant t
        < midnight_utc (week_start_utc t) + 7 * us_per_day) as Hkey.
  { intros t. rewrite week_start_utc_eq. split; [apply monday_before|].
    pose proof (day_bounds (dt_instant t)) as Hd.
    pose proof (weekday_range (dt_instant t / us_per_day + 1)) as Hw.
    pose proof us_per_day_pos. unfold midnight_utc in *. nia. }
  assert (∀ a b t, date_weekday a = 0 → date_weekday b = 0 →
    midnight_utc a ≤ t → t < midnight_utc b + 7 * us_per_day → a ≤ b) as Hle.
  { intros a b t Ha Hb H1 H2. destruct (decide (a ≤ b)) as [|Hn]; [done|].
    pose proof (mondays_apart b a Hb Ha ltac:(lia)).
    pose proof us_per_day_pos. unfold midnight_utc in *. nia. }
  destruct (Hkey dt) as (Hmon & Hlo & Hhi).
  split; [done|]. split; [done|]. split; [|split].
  - intros monday Hm Hbefore. by eapply Hle.
  - intros offset. by rewrite !week_start_utc_eq.
  - intros dt' monday Hm [Hl1 Hh1] [Hl2 Hh2].
    destruct (Hkey dt') as (Hmon' & Hlo' & Hhi').
    pose proof (Hle _ _ _ Hmon Hm Hlo Hh1).
    pose proof (Hle _ _ _ Hm Hmon Hl1 Hhi).
    pose proof (Hle _ _ _ Hmon' Hm Hlo' Hh2).
    pose proof (Hle _ _ _ Hm Hmon' Hl2 Hhi'). lia.
Qed.

Example week_start_utc_tuesday :
  week_start_utc (civil 2026 11 3 10 0 0 0) = ymd2ord 2026 11 2.
Proof. reflexivity. Qed.

Example week_start_utc_other_zone :
  week_start_utc (civil 2026 11 2 1 0 0 5) = ymd2ord 2026 10 26.
Proof. reflexivity. Qed.

(** ** The store *)

Lemma upsert_add_lookup `{Countable K} (key : K) seconds (tbl : gmap K Z) :
  upsert_add key seconds tbl !! key = Some (default 0 (tbl !! key) + seconds).
Proof.
  unfold upsert_add. destruct (tbl !! key) as [total|] eqn:E; simpl;
    by rewrite lookup_insert_eq.
Qed.

Lemma upsert_add_lookup_ne `{Countable K} (key key' : K) seconds (tbl : gmap K Z) :
  key ≠ key' → upsert_add key seconds tbl !! key' = tbl !! key'.
Proof.
  intros Hne. unfold upsert_add. destruct (tbl !! key); by rewrite lookup_insert_ne.
Qed.

(** C9.  Resetting week W of a guild removes exactly the weekly rows of that
    guild and week: the guild's rows of other weeks, the weekly rows of other
    guilds, and the all-time totals, session history and configuration are
    unchanged; the count returned is the number of rows removed. *)
Theorem reset_weekly_data_isolated (g : Z) (week : date) (st : StudyStore) :
  (∀ u, weekly_study_time (reset_weekly_data_tx g week st).1 !! (g, u, week) = None)
  ∧ (∀ g' u week', g' ≠ g ∨ week' ≠ week →
       weekly_study_time (reset_weekly_data_tx g week st).1 !! (g', u, week')
       = weekly_study_time st !! (g', u, week'))
  ∧ study_time (reset_weekly_data_tx g week st).1 = study_time st
  ∧ session_history (reset_weekly_data_tx g week st).1 = session_history st
  ∧ guild_config (reset_weekly_data_tx g week st).1 = guild_config st
  ∧ (reset_weekly_data_tx g week st).2
    = Z.of_nat (size (weekly_study_time st))
      - Z.of_nat (size (weekly_study_time (reset_weekly_data_tx g week st).1))
  ∧ (∀ w e env, succeeds e →
       run (reset_weekly_data g week w) (e :: env)
       = mk_outcome (Ret (reset_weekly_data_tx g week (store (ev_during e w))).2)
           (set_store (λ st0, (reset_weekly_data_tx g week st0).1) (ev_during e w))
           [OpDb (QResetWeeklyData g week)] env).
Proof.
  simpl. split; [|split; [|split; [|split; [|split; [|split]]]]]; try done.
  - intros u. apply map_lookup_filter_None. right. intros x _ Hn.
    apply Hn. by split.
  - intros g' u week' Hne.
    destruct (weekly_study_time st !! (g', u, week')) as [x|] eqn:E.
    + apply map_lookup_filter_Some. split; [done|].
      unfold in_bucket; simpl. intros [-> ->]. by destruct Hne.
    + apply map_lookup_filter_None. by left.
  - set (m := weekly_study_time st).
    rewrite <- (map_filter_union_complement (in_bucket g week) m) at 2.
    rewrite map_size_disj_union by apply map_disjoint_filter_complement. lia.
  - intros w e env [v Hv]. simpl. by rewrite Hv.
Qed.

(** ** Starting and stopping *)

Lemma set_active_sessions_id (w : World) (m : gmap Z ActiveSession) :
  m = active_sessions w → set_active_sessions (λ _, m) w = w.
Proof. intros ->. by destruct w. Qed.

(** C1, as the code has it.  Starting a guild that already has a session
    finishes at once with [started = False] and with the session's voice
    channel as the guild now resolves it (the channel when the guild still has
    it as a voice channel, no channel otherwise); no state changes: the
    registry keeps its one session with its start instant, and the ledger,
    flags, tasks and store are as they were. *)
Theorem start_session_when_active (g : Z) (w : World) (session : ActiveSession) :
  active_sessions w !! g = Some session →
  start_session g w
  = Finished (Ret (false, get_voice_channel (guild_of w g) (voice_channel_id session))) w
  ∧ (channels (guild_of w g) !! voice_channel_id session = Some VoiceChannel →
     start_session g w = Finished (Ret (false, Some (voice_channel_id session))) w)
  ∧ (channels (guild_of w g) !! voice_channel_id session ≠ Some VoiceChannel →
     start_session g w = Finished (Ret (false, None)) w).
Proof.
  intros Hs. unfold start_session, bind, get; simpl. rewrite Hs; simpl.
  unfold get_voice_channel. split; [done|]. split.
  - by intros ->.
  - intros Hne. destruct (channels (guild_of w g) !! voice_channel_id session) as [[]|]; done.
Qed.

Lemma start_session_when_active_witness :
  start_session 7 studying_world
  = Finished (Ret (false, Some 10)) studying_world.
Proof.
  apply (start_session_when_active 7 studying_world
           (mk_session 7 10 (mk_datetime sample_clock 0) 0)); reflexivity.
Defined.

(** C1, as stated, fails once the session's channel is gone from the guild:
    the second start then returns no channel. *)
Lemma start_session_channel_gone :
  ¬ (∀ g w session, active_sessions w !! g = Some session →
       ∃ w', start_session g w = Finished (Ret (false, Some (voice_channel_id session))) w').
Proof.
  intros H.
  destruct (H 7 channel_gone_world (mk_session 7 10 (mk_datetime sample_clock 0) 0)
              ltac:(reflexivity)) as [w' Hw'].
  vm_compute in Hw'. discriminate Hw'.
Qed.

Lemma stop_session_absent (g : Z) (reason : string) (w : World) :
  active_sessions w !! g = None → stop_session g reason w = Finished (Ret None) w.
Proof.
  intros Hs. unfold stop_session, bind, get, modify; simpl. rewrite Hs; simpl.
  unfold ret. f_equal. destruct w; simpl in *. unfold set_active_sessions; simpl.
  by rewrite delete_id.
Qed.

(** C2.  Stopping a guild that has no session finishes at once with [None]
    and leaves the whole state as it was: registry, ledger, enforced set,
    focus flag, tasks and store. *)
Theorem stop_session_when_inactive (g : Z) (reason : string) (w : World) :
  active_sessions w !! g = None →
  stop_session g reason w = Finished (Ret None) w.
Proof. apply stop_session_absent. Qed.

Lemma stop_session_when_inactive_witness :
  stop_session 7 "Study session ended" idle_world = Finished (Ret None) idle_world.
Proof. apply (stop_session_when_inactive 7 "Study session ended" idle_world). reflexivity. Defined.

(** ** Ordered dictionaries *)

Lemma od_lookup_empty (k : Z) : (∅ : odict) !! k = None.
Proof. done. Qed.

Lemma od_delete_empty (k : Z) : delete k (∅ : odict) = ∅.
Proof. done. Qed.

Lemma od_lookup_delete_eq (d : odict) (k : Z) : delete k d !! k = None.
Proof.
  destruct d as [l]. unfold lookup, odict_lookup, delete, odict_delete; cbn.
  induction l as [|[k0 v0] l IH]; [done|].
  rewrite filter_cons. destruct (decide ((k0, v0).1 ≠ k)) as [Hne|Heq]; [|done].
  cbn in *. by rewrite decide_False.
Qed.

Lemma od_lookup_delete_ne (d : odict) (k k' : Z) : k ≠ k' → delete k d !! k' = d !! k'.
Proof.
  intros Hkk. destruct d as [l]. unfold lookup, odict_lookup, delete, odict_delete; cbn.
  induction l as [|[k0 v0] l IH]; [done|].
  rewrite filter_cons. destruct (decide ((k0, v0).1 ≠ k)) as [Hne|Heq]; cbn in *.
  - by rewrite IH.
  - apply dec_stable in Heq. subst k0. by rewrite decide_False.
Qed.

Lemma od_lookup_insert_eq (d : odict) (k : Z) (v : datetime) : <[k := v]> d !! k = Some v.
Proof.
  destruct d as [l]. unfold lookup, odict_lookup, insert, odict_insert; cbn.
  induction l as [|[k0 v0] l IH]; cbn; [by rewrite decide_True|].
  destruct (decide (k0 = k)) as [->|Hne]; cbn; [by rewrite decide_True|].
  by rewrite decide_False.
Qed.

Lemma od_lookup_insert_ne (d : odict) (k k' : Z) (v : datetime) :
  k ≠ k' → <[k := v]> d !! k' = d !! k'.
Proof.
  intros Hkk. destruct d as [l]. unfold lookup, odict_lookup, insert, odict_insert; cbn.
  induction l as [|[k0 v0] l IH]; cbn; [by rewrite decide_False|].
  destruct (decide (k0 = k)) as [->|Hne]; cbn.
  - by rewrite !decide_False.
  - by rewrite IH.
Qed.

Lemma od_delete_id (d : odict) (k : Z) : d !! k = None → delete k d = d.
Proof.
  destruct d as [l]. unfold lookup, odict_lookup, delete, odict_delete; cbn.
  intros Hnone. f_equal. induction l as [|[k0 v0] l IH]; [done|].
  cbn in Hnone. destruct (decide (k0 = k)) as [->|Hne]; [done|].
  rewrite filter_cons_True by done. by rewrite IH.
Qed.

Lemma od_keys_spec (d : odict) (k : Z) : k ∈ od_keys d ↔ is_Some (d !! k).
Proof.
  destruct d as [l]. unfold od_keys, lookup, odict_lookup; cbn.
  induction l as [|[k0 v0] l IH]; cbn.
  - split; [by intros ?%elem_of_nil|by intros [? ?]].
  - rewrite elem_of_cons, IH. destruct (decide (k0 = k)) as [->|Hne].
    + split; [by eexists|by left].
    + split; [by intros [?|?]|by right].
Qed.

(** ** Accrual *)

Lemma int_total_seconds_floor (td : timedelta) :
  (int_total_seconds td ≤ 0 ↔ td / us_per_second ≤ 0)
  ∧ (0 < td / us_per_second → int_total_seconds td = td / us_per_second).
Proof.
  unfold int_total_seconds, us_per_second.
  destruct (decide (0 ≤ td)) as [Hnn|Hneg].
  - rewrite Z.quot_div_nonneg by lia. split; [done|done].
  - assert (td ÷ 1000000 ≤ 0) as Hq.
    { replace td with (- (- td)) by lia. rewrite Z.quot_opp_l by lia.
      pose proof (Z.quot_pos (- td) 1000000 ltac:(lia) ltac:(lia)). lia. }
    assert (td / 1000000 < 0) as Hd.
    { apply Z.div_lt_upper_bound; lia. }
    split; [split; lia|lia].
Qed.

Lemma ledger_popped (g u : Z) (w : World) :
  ledger g (set_session_joined_at (alter (delete u) g) w) = delete u (ledger g w).
Proof.
  unfold ledger; simpl. rewrite lookup_alter_eq.
  by destruct (session_joined_at w !! g).
Qed.

Lemma ledger_popped_other (g g' u : Z) (w : World) :
  g' ≠ g → ledger g' (set_session_joined_at (alter (delete u) g) w) = ledger g' w.
Proof. intros Hne. unfold ledger; simpl. by rewrite lookup_alter_ne. Qed.

Lemma pop_absent (g u : Z) (w : World) :
  ledger g w !! u = None → set_session_joined_at (alter (delete u) g) w = w.
Proof.
  intros Habs. destruct w; unfold set_session_joined_at, ledger in *; simpl in *.
  f_equal. apply alter_id. intros l Hl. rewrite Hl in Habs; simpl in Habs.
  by apply od_delete_id.
Qed.

(** C3.  [accrue_user_time] takes the user's join instant out of the guild's
    ledger and touches no other entry: the state in which it finishes, or makes
    its one call, is the state it found with that entry removed, so that the
    ledger it leaves has no entry for the user whenever no other task wrote
    the ledger meanwhile.  With no entry it does nothing more.  With an entry,
    and [seconds] the whole seconds from the join instant to [now] rounded
    down: when [seconds] is zero or less it asks nothing of the store;
    otherwise it makes one call.  When that call succeeds the routine returns
    in the state found on resumption with exactly [seconds] added to the
    user's all-time total and to the user's total of the week of [now] (a
    missing row counting as zero) and no other total changed; when it fails
    the routine raises the error in the state found on resumption, the join
    instant gone and nothing credited.  [add_study_seconds] itself does
    nothing for an amount of zero or less. *)
Theorem accrue_user_time_persists_floor (g u : Z) (now : datetime) (w : World)
    (env : list event) :
  let out := run (accrue_user_time g u now w) env in
  let popped := set_session_joined_at (alter (delete u) g) w in
  ledger g popped !! u = None
  ∧ (∀ g' u', g' ≠ g ∨ u' ≠ u → ledger g' popped !! u' = ledger g' w !! u')
  ∧ match ledger g w !! u with
    | None => popped = w ∧ out = mk_outcome (Ret tt) w [] env
    | Some joined_at =>
        let seconds := (dt_instant now - dt_instant joined_at) / us_per_second in
        if decide (seconds ≤ 0) then out = mk_outcome (Ret tt) popped [] env
        else
          out_trace out = [OpDb (QAddStudySeconds g u seconds now)]
          ∧ out_rest out = tail env
          ∧ match ev_reply (next_event env) with
            | ROk _ =>
                out_res out = Ret tt
                ∧ out_world out
                  = set_store (add_study_seconds_tx g u seconds now)
                      (ev_during (next_event env) popped)
            | RFail e =>
                out_res out = Raise e
                ∧ out_world out = ev_during (next_event env) popped
            end
          ∧ (succeeds (next_event env) →
             let before := store (ev_during (next_event env) popped) in
             let after := store (out_world out) in
             out_res out = Ret tt
             ∧ study_time after !! (g, u)
               = Some (default 0 (study_time before !! (g, u)) + seconds)
             ∧ weekly_study_time after !! (g, u, week_start_utc now)
               = Some (default 0 (weekly_study_time before !! (g, u, week_start_utc now))
                       + seconds)
             ∧ (∀ k, k ≠ (g, u) → study_time after !! k = study_time before !! k)
             ∧ (∀ k, k ≠ (g, u, week_start_utc now) →
                  weekly_study_time after !! k = weekly_study_time before !! k)
             ∧ session_history after = session_history before)
    end
  ∧ ((∀ w0, session_joined_at (ev_during (next_event env) w0) = session_joined_at w0) →
     ledger g (out_world out) !! u = None
     ∧ (∀ g' u', g' ≠ g ∨ u' ≠ u →
          ledger g' (out_world out) !! u' = ledger g' w !! u'))
  ∧ (∀ seconds at_time w0, seconds ≤ 0 →
       add_study_seconds g u seconds at_time w0 = Finished (Ret tt) w0).
Proof.
  intros out popped.
  assert (ledger g popped !! u = None) as Hgone.
  { unfold popped. rewrite ledger_popped. apply od_lookup_delete_eq. }
  assert (∀ g' u', g' ≠ g ∨ u' ≠ u → ledger g' popped !! u' = ledger g' w !! u') as Hkept.
  { intros g' u' Hne. unfold popped. destruct (decide (g' = g)) as [->|Hg].
    - rewrite ledger_popped. apply od_lookup_delete_ne. by destruct Hne.
    - by rewrite ledger_popped_other. }
  split; [done|]. split; [done|].
  assert (∀ w1 : World, session_joined_at w1 = session_joined_at popped →
            ledger g w1 !! u = None
            ∧ (∀ g' u', g' ≠ g ∨ u' ≠ u → ledger g' w1 !! u' = ledger g' w !! u')) as Hsame.
  { intros w1 Hw1. unfold ledger in *. rewrite Hw1. by split. }
  split; [|split].
  3:{ intros seconds at_time w0 Hle. unfold add_study_seconds.
      apply Z.leb_le in Hle. by rewrite Hle. }
  - subst out. unfold accrue_user_time, bind, get, modify; simpl.
    fold popped. destruct (ledger g w !! u) as [joined_at|] eqn:Hj; simpl.
    + destruct (int_total_seconds_floor (datetime_sub now joined_at)) as [Hle Heq].
      unfold datetime_sub in *. unfold add_study_seconds.
      destruct (decide _) as [Hnp|Hpos].
      * apply Hle in Hnp. apply Z.leb_le in Hnp. rewrite Hnp. reflexivity.
      * rewrite Heq by lia.
        destruct (Z.leb_spec ((dt_instant now - dt_instant joined_at) / us_per_second) 0);
          [lia|].
        simpl. destruct (ev_reply (next_event env)) as [v|e] eqn:Hr; simpl.
        -- split; [done|]. split; [done|]. split; [done|]. intros _.
           split; [done|]. split; [apply upsert_add_lookup|].
           split; [apply upsert_add_lookup|].
           split; [intros k Hk; by apply upsert_add_lookup_ne|].
           split; [intros k Hk; by apply upsert_add_lookup_ne|done].
        -- split; [done|]. split; [done|]. split; [done|].
           intros [v Hv]. rewrite Hr in Hv. discriminate Hv.
    + split; [by apply pop_absent|]. unfold popped. by rewrite pop_absent.
  - intros Henv. apply Hsame. subst out.
    unfold accrue_user_time, bind, get, modify; simpl. fold popped.
    destruct (ledger g w !! u) as [joined_at|]; simpl; [|done].
    unfold add_study_seconds. destruct (_ <=? 0); simpl; [done|].
    destruct (ev_reply (next_event env)); simpl; apply Henv.
Qed.

(** A member present from focus-on until 120 seconds later. *)
Example accrue_two_minutes :
  let out := run (accrue_user_time 7 1 (utcnow later_world) later_world) [] in
  get_user_seconds 7 1 (store (out_world out)) = 120
  ∧ weekly_study_time (store (out_world out)) !! (7, 1, ymd2ord 2026 11 2) = Some 120
  ∧ ledger 7 (out_world out) !! 1 = None.
Proof. vm_compute. done. Qed.

(** ** Plain requests *)

Lemma plain_closes_nothing (tr : list op) : Forall plain tr → closed_records tr = [].
Proof.
  induction 1 as [|o tr [_ Ho] _ IH]; [done|].
  unfold closed_records in *; simpl. by rewrite Ho.
Qed.

Lemma plain_announces_nothing (tr : list op) : Forall plain tr → announcements tr = [].
Proof.
  induction 1 as [|o tr [Ho _] _ IH]; [done|].
  unfold announcements in *; simpl. by rewrite Ho.
Qed.

(** ** Routines that leave the session registry alone *)

Section frame.
Context (R : rely) (G : guarantee) (P : gmap Z ActiveSession → Prop).
Hypothesis rely_keeps : ∀ o w r w', R o w r w' → registry P w → registry P w'.
Hypothesis plain_allowed : ∀ o w, registry P w → plain o → G o w.

Lemma frames_ret {A} (a : A) : frames R G P (ret a).
Proof. intros w HJ. by split. Qed.

Lemma frames_bind {A B} (m : task A) (f : A → task B) :
  frames R G P m → (∀ a, frames R G P (f a)) → frames R G P (bind m f).
Proof.
  intros Hm Hf w HJ. unfold bind. apply wp_bind.
  eapply wp_mono; [|by apply Hm]. intros [a|e] w' tr [HJ' HT]; simpl; [|by split].
  eapply wp_mono; [|by apply Hf]. intros r' w'' tr' [HJ'' HT'].
  split; [done|by apply Forall_app].
Qed.

Lemma frames_get {B} (f : World → task B) :
  (∀ w, frames R G P (f w)) → frames R G P (bind get f).
Proof. intros Hf w HJ. unfold bind, get; simpl. by apply Hf. Qed.

Lemma frames_modify {B} (u : World → World) (k : task B) :
  (∀ w, active_sessions (u w) = active_sessions w) → frames R G P k →
  frames R G P (bind (modify u) (λ _, k)).
Proof.
  intros Hu Hk w HJ. unfold bind, modify; simpl. apply Hk.
  unfold registry in *. by rewrite Hu.
Qed.

Lemma frames_modify_last (u : World → World) :
  (∀ w, active_sessions (u w) = active_sessions w) → frames R G P (modify u).
Proof. intros Hu w HJ. split; [unfold registry in *; by rewrite Hu|done]. Qed.

Lemma frames_await {A} (o : op) (k : reply → World → coro A) :
  plain o → (∀ r w', ∃ r', k r w' = Finished r' w') →
  frames R G P (λ w, Suspended o w k).
Proof.
  intros Ho Hk w HJ. simpl. split; [by apply plain_allowed|]. intros r w' Hr.
  destruct (Hk r w') as [r' ->]; simpl.
  split; [by eapply rely_keeps|by apply Forall_singleton].
Qed.

Lemma frames_sleep (seconds : Z) : frames R G P (sleep seconds).
Proof. apply frames_await; [done|]. intros [v|e] w'; eauto. Qed.

Lemma frames_member_edit (g u : Z) (mute : bool) (reason : string) :
  frames R G P (member_edit g u mute reason).
Proof. apply (frames_await (OpEdit g u mute reason)); [done|]. intros [v|e] w'; simpl; eauto. Qed.

Lemma frames_db_call {A} (q : query) (tx : StudyStore → StudyStore * A) :
  closed_record (OpDb q) = None → frames R G P (db_call q tx).
Proof.
  intros Hq w HJ. unfold db_call; simpl.
  split; [by apply plain_allowed|]. intros r w' Hr.
  pose proof (rely_keeps _ _ _ _ Hr HJ) as HJ'.
  destruct r as [v|e]; simpl; (split; [done|by apply Forall_singleton]).
Qed.

Lemma frames_try_except {A} (m : task A) (h : exn → option (task A)) :
  frames R G P m →
  (∀ e handler, h e = Some handler → frames R G P handler) →
  frames R G P (try_except m h).
Proof.
  intros Hm Hh w HJ. unfold try_except. apply wp_catch.
  eapply wp_mono; [|by apply Hm]. intros [a|e] w' tr [HJ' HT]; simpl; [by split|].
  destruct (h e) as [handler|] eqn:He; [|by split].
  eapply wp_mono; [|by eapply Hh]. intros r' w'' tr' [HJ'' HT'].
  split; [done|by apply Forall_app].
Qed.

Lemma frames_for_each {X} (xs : list X) (body : X → task unit) :
  (∀ x, frames R G P (body x)) → frames R G P (for_each xs body).
Proof.
  intros Hb. induction xs as [|x xs IH]; simpl.
  - apply (frames_ret tt).
  - by apply frames_bind.
Qed.

Lemma frames_add_study_seconds g u seconds at_time :
  frames R G P (add_study_seconds g u seconds at_time).
Proof.
  unfold add_study_seconds. destruct (seconds <=? 0).
  - apply (frames_ret tt).
  - by apply frames_db_call.
Qed.

Lemma frames_accrue_user_time g u now : frames R G P (accrue_user_time g u now).
Proof.
  unfold accrue_user_time. apply frames_get; intros w.
  apply frames_modify; [done|].
  destruct (ledger g w !! u); [apply frames_add_study_seconds|apply (frames_ret tt)].
Qed.

Lemma frames_pass_forbidden e handler :
  pass_forbidden e = Some handler → frames R G P handler.
Proof. destruct e; simpl; intros [= <-]. apply (frames_ret tt). Qed.

Lemma frames_set_focus_mode g enabled : frames R G P (set_focus_mode g enabled).
Proof.
  unfold set_focus_mode. apply frames_get; intros w.
  destruct (active_sessions w !! g) as [session|]; [|apply (frames_ret tt)].
  destruct (get_voice_channel _ _) as [channel_id|]; [|apply (frames_ret tt)].
  apply frames_modify; [done|]. destruct enabled.
  - apply frames_modify; [done|]. apply frames_for_each; intros member.
    apply frames_get; intros w1.
    destruct (_ || _); [apply (frames_ret tt)|].
    apply frames_try_except; [|apply frames_pass_forbidden].
    apply frames_bind; [apply frames_member_edit|intros _].
    by apply frames_modify_last.
  - apply frames_bind.
    { apply frames_for_each; intros user_id. apply frames_accrue_user_time. }
    intros _. apply frames_get; intros w1.
    apply frames_for_each; intros member.
    destruct (member_bot member); [apply (frames_ret tt)|].
    apply frames_get; intros w2.
    destruct (_ && _); [|apply (frames_ret tt)].
    apply frames_try_except; [apply frames_member_edit|apply frames_pass_forbidden].
Qed.

(** Announcements add up along a sequence. *)
Lemma announcing_bind {A B} (m : task A) (f : A → task B) l1 l2 :
  announcing R G P m l1 → (∀ a, announcing R G P (f a) l2) →
  announcing R G P (bind m f) (l1 ++ l2).
Proof.
  intros Hm Hf w HJ. unfold bind. apply wp_bind.
  eapply wp_mono; [|by apply Hm]. intros [a|e] w' tr [HJ' Htr]; simpl; [|by split].
  eapply wp_mono; [|by apply Hf]. intros r' w'' tr' [HJ'' Htr'].
  split; [done|]. intros b ->.
  unfold announcements in *. by rewrite omap_app, (Htr a), (Htr' b).
Qed.

Lemma announcing_ret {A} (a : A) : announcing R G P (ret a) [].
Proof. intros w HJ; simpl. by split. Qed.

Lemma frames_announcing {A} (m : task A) : frames R G P m → announcing R G P m [].
Proof.
  intros Hm w HJ. eapply wp_mono; [|by apply Hm].
  intros r w' tr [HJ' HT]. split; [done|]. intros a _. by apply plain_announces_nothing.
Qed.

Lemma announcing_send g ch msg :
  (∀ w, registry P w → G (OpSend g ch msg) w) →
  announcing R G P (send g ch msg) [msg].
Proof.
  intros HG w HJ. unfold send, bind, platform_call; simpl. split; [by apply HG|].
  intros r w' Hr. pose proof (rely_keeps _ _ _ _ Hr HJ) as HJ'.
  destruct r as [v|e]; simpl; (split; [done|]); [done|by intros a [=]].
Qed.

Lemma announcing_pomodoro_loop g ch work brk n todo :
  (∀ msg w, registry P w → G (OpSend g ch msg) w) →
  announcing R G P (pomodoro_loop g ch work brk n todo) (phase_script todo n work brk).
Proof.
  intros HG. induction todo as [|cycle rest IH]; simpl; [apply announcing_ret|].
  apply (announcing_bind _ _ [] _ (frames_announcing _ (frames_set_focus_mode g true)));
    intros _.
  apply (announcing_bind _ _ [_] _ (announcing_send _ _ _ (HG _))); intros _.
  apply (announcing_bind _ _ [] _ (frames_announcing _ (frames_sleep _))); intros _.
  destruct (cycle =? n); [apply announcing_ret|].
  apply (announcing_bind _ _ [] _ (frames_announcing _ (frames_set_focus_mode g false)));
    intros _.
  apply (announcing_bind _ _ [_] _ (announcing_send _ _ _ (HG _))); intros _.
  apply (announcing_bind _ _ [] _ (frames_announcing _ (frames_sleep _))); intros _.
  apply IH.
Qed.

(** [stop_session] itself takes the guild out of the registry first; from
    there on it leaves the registry alone, and the one request that is not
    plain, the closing of the record, is made after the record's id was taken
    out of [active_session_record_id]. *)
Context (g : Z).
Hypothesis stopped_in : ∀ m, P (delete g m).
Hypothesis close_allowed : ∀ session_id ended_at d w,
  registry P w → active_session_record_id w !! g = None →
  G (OpDb (QCloseSessionRecord session_id ended_at d)) w.

Lemma stop_session_wp (reason : string) (w : World) :
  wp R G (stop_session g reason w) (λ r w' tr,
    registry P w' ∧ closes_at_most_once tr
    ∧ (∀ session a, active_sessions w !! g = Some session → r = Ret a →
         a = Some (session_duration w session))).
Proof.
  assert (∀ tr, Forall plain tr → closes_at_most_once tr) as Hplain.
  { intros tr HT. exists tr, []. rewrite app_nil_r. auto. }
  unfold stop_session, bind, get, modify; simpl.
  assert (registry P (set_active_sessions (delete g) w)) as HJ0 by apply stopped_in.
  destruct (active_sessions w !! g) as [session|] eqn:Hs; simpl.
  2:{ split; [done|]. split; [by apply Hplain|]. by intros session' a [=]. }
  apply wp_bind. eapply wp_mono.
  2:{ apply frames_for_each; [|done]. intros user_id. apply frames_accrue_user_time. }
  intros [[]|e] w1 tr1 [HJ1 HT1]; simpl.
  2:{ split; [done|]. split; [by apply Hplain|]. by intros session' a _ [=]. }
  apply wp_bind.
  eapply (wp_mono _ _ _ (framed (registry P))).
  2:{ destruct (get_voice_channel _ _) as [channel_id|].
      - apply frames_for_each; [|done]. intros member.
        destruct (member_bot member); [apply frames_ret|].
        apply frames_get; intros w2.
        destruct (_ && _); [|apply frames_ret].
        apply frames_try_except; [apply frames_member_edit|apply frames_pass_forbidden].
      - by apply frames_ret. }
  intros [[]|e] w2 tr2 [HJ2 HT2]; simpl.
  2:{ split; [done|]. split; [by apply Hplain, Forall_app|]. by intros session' a _ [=]. }
  assert (∀ w4, active_sessions w4 = active_sessions w2 →
    wp R G
      (coro_bind
         (match active_session_record_id w2 !! g with
          | Some session_id =>
              close_session_record session_id (utcnow w)
                (int_total_seconds (datetime_sub (utcnow w) (started_at session)))
          | None => ret tt
          end (set_active_session_record_id (delete g) w4))
         (λ _, ret (Some (int_total_seconds
                            (datetime_sub (utcnow w) (started_at session))))))
      (λ r' w' tr', registry P w' ∧ closes_at_most_once (tr1 ++ tr2 ++ tr')
         ∧ (∀ session0 a, Some session = Some session0 → r' = Ret a →
              a = Some (session_duration w session0)))) as Hlast.
  { intros w4 Hw4.
    assert (registry P (set_active_session_record_id (delete g) w4)) as HJ4.
    { unfold registry in *; simpl. by rewrite Hw4. }
    destruct (active_session_record_id _ !! g) as [session_id|];
      unfold close_session_record, db_call, ret; simpl.
    - split.
      { apply close_allowed; [done|]. simpl. apply lookup_delete_eq. }
      intros r w5 Hr. pose proof (rely_keeps _ _ _ _ Hr HJ4) as HJ5.
      assert (closes_at_most_once
                (tr1 ++ tr2 ++ [OpDb (QCloseSessionRecord session_id (utcnow w)
                   (int_total_seconds (datetime_sub (utcnow w) (started_at session))))]))
        as Htr.
      { eexists (tr1 ++ tr2), [_]. rewrite <- app_assoc. split; [done|].
        split; [by apply Forall_app|]. right. eauto. }
      destruct r as [v|e]; simpl.
      + split; [done|]. split; [done|]. by intros session0 a [= <-] [= <-].
      + split; [done|]. split; [done|]. by intros session0 a _ [=].
    - split; [done|]. split.
      + rewrite app_nil_r. by apply Hplain, Forall_app.
      + by intros session0 a [= <-] [= <-]. }
  destruct (enforce_mute_task _ !! session_obj session) as [t|]; simpl; by apply Hlast.
Qed.

End frame.

(** ** Stopping once *)

Lemma wp_suspended_at {A} R G P (c : coro A) Q o w :
  (∀ o w r w', P w' → R o w r w') →
  wp R G c Q → suspended_at P c o w → G o w.
Proof.
  intros HR Hwp Hs. revert Q Hwp.
  induction Hs as [o w k|o w k r w' o'' w'' HP Hs IH]; intros Q [Hg Hk]; [done|].
  eapply IH. apply Hk. by apply HR.
Qed.

Lemma wp_first_world {A} R G (J : World → Prop) (c : coro A) Q :
  (∀ r w tr, Q r w tr → J w) → (∀ o w, G o w → J w) →
  wp R G c Q → J (first_world c).
Proof.
  intros HQ HG. destruct c as [r w|o w k]; simpl; [apply HQ|].
  intros [Hg _]. by apply (HG o).
Qed.

Lemma closes_at_most_once_length (tr : list op) :
  closes_at_most_once tr → (length (closed_records tr) ≤ 1)%nat.
Proof.
  intros (tr0 & last & -> & Hplain & Hlast). unfold closed_records.
  rewrite omap_app. fold (closed_records tr0). rewrite plain_closes_nothing by done.
  destruct Hlast as [->|(session_id & ended_at & d & ->)]; simpl; lia.
Qed.

(** What [stop_session] owes at each suspension: the guild is out of the
    registry, and a record is closed only after its id was taken out of
    [active_session_record_id]. *)
Lemma stop_session_suspensions (g : Z) (reason : string) (w0 : World) :
  wp (resumed_in (session_inactive g))
     (λ o w, session_inactive g w
             ∧ (is_Some (closed_record o) → active_session_record_id w !! g = None))
     (stop_session g reason w0)
     (λ _ w _, session_inactive g w).
Proof.
  eapply wp_mono;
    [|apply (stop_session_wp _ _ (λ m, m !! g = None))].
  - by intros r w tr (HJ & _).
  - by intros o w r w' Hr _.
  - intros o w HJ [_ Ho]. split; [done|]. rewrite Ho. by intros [? [=]].
  - intros m. apply lookup_delete_eq.
  - intros session_id ended_at d w HJ Hid. by split.
Qed.

(** C10.  [stop_session] takes the guild out of the registry before it first
    gives up control.  Hence, as long as nobody starts a new session for the
    guild, at every suspension of a running stop a second stop for the same
    guild returns [None] at once and changes nothing; the record is closed by
    a request made only after its id was taken out of
    [active_session_record_id]; and one stop makes at most one such request,
    whatever the environment does. *)
Theorem stop_session_unregisters_first (g : Z) (reason : string) (w0 : World) :
  session_inactive g (first_world (stop_session g reason w0))
  ∧ (∀ o w reason', suspended_at (session_inactive g) (stop_session g reason w0) o w →
       stop_session g reason' w = Finished (Ret None) w)
  ∧ (∀ o w, suspended_at (session_inactive g) (stop_session g reason w0) o w →
       is_Some (closed_record o) → active_session_record_id w !! g = None)
  ∧ (∀ env, (length (closed_records (out_trace (run (stop_session g reason w0) env))) ≤ 1)%nat).
Proof.
  pose proof (stop_session_suspensions g reason w0) as Hwp.
  split; [|split; [|split]].
  - eapply wp_first_world; [| |exact Hwp]; [done|by intros o w [? _]].
  - intros o w reason' Hs. apply stop_session_absent.
    by destruct (wp_suspended_at _ _ _ _ _ _ _ (λ _ _ _ _ H, H) Hwp Hs).
  - intros o w Hs.
    by destruct (wp_suspended_at _ _ _ _ _ _ _ (λ _ _ _ _ H, H) Hwp Hs).
  - intros env. apply closes_at_most_once_length.
    apply (wp_run any_env no_guarantee (stop_session g reason w0)
             (λ _ _ tr, closes_at_most_once tr) env); [done| |].
    { by apply Forall_forall. }
    eapply wp_mono; [|apply (stop_session_wp _ _ (λ _, True))]; try done.
    by intros r w tr (_ & H & _).
Qed.

Lemma suspended_first {A} P (c : coro A) :
  is_suspended c = true → ∃ o, suspended_at P c o (first_world c).
Proof. destruct c as [r w|o w k]; [done|]. intros _. exists o. apply suspended_here. Qed.

(** A stop two minutes into the sample session is first suspended on the
    store; a second stop arriving then finds no session. *)
Example second_stop_during_first :
  is_Some (active_sessions later_world !! 7)
  ∧ (∃ o, suspended_at (session_inactive 7)
            (stop_session 7 "Study session ended" later_world) o
            (first_world (stop_session 7 "Study session ended" later_world)))
  ∧ stop_session 7 "Pomodoro stopped"
      (first_world (stop_session 7 "Study session ended" later_world))
    = Finished (Ret None) (first_world (stop_session 7 "Study session ended" later_world))
  ∧ out_trace (run (stop_session 7 "Study session ended" later_world) [])
    = [OpDb (QAddStudySeconds 7 1 120 (utcnow later_world));
       OpDb (QAddStudySeconds 7 2 120 (utcnow later_world));
       OpDb (QCloseSessionRecord 1 (utcnow later_world) 120)].
Proof.
  split; [|split; [|split]].
  - eexists. reflexivity.
  - apply suspended_first. vm_compute. reflexivity.
  - vm_compute. reflexivity.
  - vm_compute. reflexivity.
Qed.

(** ** The Pomodoro scheduler *)

Lemma run_rest {A} (c : coro A) env :
  out_rest (run c env) = drop (length (out_trace (run c env))) env.
Proof.
  revert env. induction c as [r w|o w k IH]; intros env; simpl; [done|].
  rewrite IH. destruct env; simpl; [by rewrite !drop_nil|done].
Qed.

Lemma phase_script_shape (work brk n : Z) (k : nat) (i : Z) :
  i + Z.of_nat k = n →
  length (phase_script (seqZ i (Z.of_nat k + 1)) n work brk) = (2 * k + 1)%nat
  ∧ (∀ j : nat, (j ≤ k)%nat →
       phase_script (seqZ i (Z.of_nat k + 1)) n work brk !! (2 * j)%nat
       = Some (MsgFocus (i + Z.of_nat j) n work))
  ∧ (∀ j : nat, (j < k)%nat →
       phase_script (seqZ i (Z.of_nat k + 1)) n work brk !! (2 * j + 1)%nat
       = Some (MsgBreak brk))
  ∧ length (filter (λ m, is_focus m = true) (phase_script (seqZ i (Z.of_nat k + 1)) n work brk))
    = S k
  ∧ length (filter (λ m, is_break m = true) (phase_script (seqZ i (Z.of_nat k + 1)) n work brk))
    = k.
Proof.
  revert i. induction k as [|k IH]; intros i Hi.
  - rewrite seqZ_cons by lia. rewrite seqZ_nil by lia. simpl.
    replace i with n by lia. rewrite Z.eqb_refl.
    split; [done|]. split.
    { intros j Hj. replace j with 0%nat by lia. simpl. f_equal. f_equal. lia. }
    split; [intros j Hj; lia|]. done.
  - rewrite seqZ_cons by lia.
    replace (Z.pred (Z.of_nat (S k) + 1)) with (Z.of_nat k + 1) by lia.
    simpl phase_script.
    destruct (Z.eqb_spec i n) as [Heq|_]; [lia|].
    destruct (IH (Z.succ i) ltac:(lia)) as (Hlen & Hfocus & Hbreak & Hnf & Hnb).
    split; [simpl; rewrite Hlen; lia|]. split; [|split; [|split]].
    + intros [|j] Hj.
      * simpl. f_equal. f_equal. lia.
      * replace (2 * S j)%nat with (S (S (2 * j))) by lia.
        change (phase_script (seqZ (Z.succ i) (Z.of_nat k + 1)) n work brk !! (2 * j)%nat
                = Some (MsgFocus (i + Z.of_nat (S j)) n work)).
        rewrite Hfocus by lia. f_equal. f_equal. lia.
    + intros [|j] Hj; [done|].
      replace (2 * S j + 1)%nat with (S (S (2 * j + 1))) by lia.
      change (phase_script (seqZ (Z.succ i) (Z.of_nat k + 1)) n work brk !! (2 * j + 1)%nat
              = Some (MsgBreak brk)).
      apply Hbreak. lia.
    + rewrite filter_cons_True by done. rewrite filter_cons_False by done.
      simpl. by rewrite Hnf.
    + rewrite filter_cons_False by done. rewrite filter_cons_True by done.
      simpl. by rewrite Hnb.
Qed.

Lemma closes_at_most_once_silent (tr : list op) :
  closes_at_most_once tr → announcements tr = [].
Proof.
  intros (tr0 & last & -> & Hplain & Hlast). unfold announcements.
  rewrite omap_app. fold (announcements tr0). rewrite plain_announces_nothing by done.
  by destruct Hlast as [->|(session_id & ended_at & d & ->)].
Qed.

Lemma run_catch_returns {A} (c : coro A) (h : exn → option (task A)) env a :
  (∀ e handler w' env', h e = Some handler →
     ∃ e', out_res (run (handler w') env') = Raise e') →
  out_res (run (coro_catch c h) env) = Ret a → run (coro_catch c h) env = run c env.
Proof.
  intros Hh. revert env. induction c as [[a'|e] w|o w k IH]; intros env; simpl; [done| |].
  - destruct (h e) as [handler|] eqn:He; [|done].
    destruct (Hh e handler w env He) as [e' ->]. done.
  - intros Hr. by rewrite IH.
Qed.

(** The [except asyncio.CancelledError] clause ends with [raise]. *)
Lemma pomodoro_cancelled_raises g ch e handler w env :
  pomodoro_cancelled g ch e = Some handler →
  ∃ e', out_res (run (handler w) env) = Raise e'.
Proof.
  destruct e; simpl; intros [= <-]. unfold bind at 1. rewrite run_bind.
  unfold and_then. destruct (out_res (run (stop_session _ _ _) _)) as [d|e]; simpl; [|eauto].
  unfold bind. rewrite run_bind. unfold and_then.
  destruct (out_res (run _ _)) as [[]|e]; simpl; eauto.
Qed.

Lemma run_send_returns g ch msg w env a :
  out_res (run (send g ch msg w) env) = Ret a →
  run (send g ch msg w) env
  = mk_outcome (Ret tt) (ev_during (next_event env) w) [OpSend g ch msg] (tail env).
Proof.
  unfold send, bind, platform_call; simpl.
  by destruct (ev_reply (next_event env)) as [v|e].
Qed.

(** [pomodoro_start(work=25, break=5, cycles=2)] in a quiet environment. *)
Example pomodoro_two_cycles :
  out_trace (run (run_pomodoro_cycles 7 20 25 5 2 studying_world) [])
  = [OpEdit 7 1 true "Pomodoro focus mode started";
     OpEdit 7 2 true "Pomodoro focus mode started";
     OpSend 7 20 (MsgFocus 1 2 25); OpSleep 1500;
     OpSend 7 20 (MsgBreak 5); OpSleep 300;
     OpEdit 7 1 true "Pomodoro focus mode started";
     OpEdit 7 2 true "Pomodoro focus mode started";
     OpSend 7 20 (MsgFocus 2 2 25); OpSleep 1500;
     OpDb (QCloseSessionRecord 1 (mk_datetime sample_clock 0) 0);
     OpSend 7 20 (MsgFinished 0)].
Proof. vm_compute. reflexivity. Qed.

(** Inside the [try] block every way out passes through the [finally]
    clause: once the text channel has resolved, the run ends with the guild's
    Pomodoro state removed, whatever the environment does. *)
Lemma run_pomodoro_cycles_clears_state (g ch work brk n : Z) (w : World) (env : list event)
    (kind : channel_kind) :
  channels (guild_of w g) !! ch = Some kind → is_messageable kind = true →
  pomodoro_states (out_world (run (run_pomodoro_cycles g ch work brk n w) env)) !! g = None.
Proof.
  intros Hch Hmsg. unfold run_pomodoro_cycles, bind, get; simpl. rewrite Hch, Hmsg.
  unfold try_finally. rewrite run_finally_world. simpl. apply lookup_delete_eq.
Qed.

(** C8, where the code departs from it.  The lookup of the text channel and
    its early [return] stand before the [try]: a run whose channel does not
    resolve to a messageable channel returns without removing the Pomodoro
    state that [pomodoro_start] registered, and every later [pomodoro_start]
    for the guild is answered "already running". *)
Theorem pomodoro_state_survives_early_return :
  pomodoro_states thread_world !! 7 = Some (mk_pomodoro 2 99 25 5 2)
  ∧ tasks thread_world !! 2 = Some (PomodoroTask 7 99 25 5 2)
  ∧ run (run_pomodoro_cycles 7 99 25 5 2 thread_world) []
    = mk_outcome (Ret tt) thread_world [] []
  ∧ out_trace (run (pomodoro_start 7 20 25 5 2 thread_world) [])
    = [OpRespond "A Pomodoro session is already running."].
Proof. vm_compute. done. Qed.

(** ** The mute enforcement loop *)

(** A refusal, or any other failure, of the first mute of a tick ends the
    tick's pass over the members: what follows is the sleep. *)
Lemma enforce_iteration_refused (g ch : Z) (w : World) (member : Member)
    (rest : list Member) (voice : VoiceState) (e : exn) (during : World → World)
    (env : list event) :
  default true (focus_mode_active w !! g) = true →
  channel_members (guild_of w g) ch = member :: rest →
  member_bot member = false →
  member_voice (guild_of w g) (member_id member) = Some voice →
  vs_mute voice = false →
  is_Exception e = true →
  out_trace (run (enforce_iteration g ch w) (mk_event (RFail e) during :: env))
  = [OpEdit g (member_id member) true "Active study session enforces mute"; OpSleep 10].
Proof.
  intros Hfocus Hmembers Hbot Hvoice Hmute He.
  unfold enforce_iteration, try_except, bind, get; simpl.
  rewrite Hfocus, Hmembers; simpl. rewrite Hbot; simpl.
  unfold bind; simpl. rewrite Hvoice, Hmute; simpl.
  destruct e; try discriminate He; simpl;
    by destruct (ev_reply (next_event env)).
Qed.

(** C5, where the code departs from it.  Members 1 and 2 sit unmuted in the
    channel and focus mode is on.  When the platform refuses to mute member 1
    the [try] block is left as a whole: the tick goes to its sleep and member
    2 is not attempted, although the same tick mutes both when nothing is
    refused. *)
Theorem enforce_iteration_stops_at_refusal :
  channel_members (guild_of enforcing_world 7) 10
  = [mk_member 1 false; mk_member 2 false; mk_member 3 true]
  ∧ member_voice (guild_of enforcing_world 7) 2 = Some (mk_voice 10 false)
  ∧ out_res (run (enforce_iteration 7 10 enforcing_world) refuse_first) = Ret tt
  ∧ out_trace (run (enforce_iteration 7 10 enforcing_world) refuse_first)
    = [OpEdit 7 1 true "Active study session enforces mute"; OpSleep 10]
  ∧ mute_attempts (out_trace (run (enforce_iteration 7 10 enforcing_world) refuse_first)) = [1]
  ∧ mute_attempts (out_trace (run (enforce_iteration 7 10 enforcing_world) [])) = [1; 2].
Proof. vm_compute. done. Qed.

Lemma cancellable_bind {A B} (c : coro A) (f : A → task B) :
  cancellable c → (∀ a w, cancellable (f a w)) → cancellable (coro_bind c f).
Proof.
  intros Hc Hf. induction c as [[a|e] w|o w k IH]; simpl; [by apply Hf|done|].
  destruct Hc as [Hcancel Hk]. split.
  - intros w'. by rewrite Hcancel.
  - intros r w'. by apply IH.
Qed.

Lemma cancellable_catch {A} (c : coro A) (h : exn → option (task A)) :
  cancellable c → h CancelledError = None →
  (∀ e handler w, h e = Some handler → cancellable (handler w)) →
  cancellable (coro_catch c h).
Proof.
  intros Hc Hnone Hh. induction c as [[a|e] w|o w k IH]; simpl; [done| |].
  - destruct (h e) as [handler|] eqn:He; [by eapply Hh|done].
  - destruct Hc as [Hcancel Hk]. split.
    + intros w'. rewrite Hcancel; simpl. by rewrite Hnone.
    + intros r w'. by apply IH.
Qed.

Lemma cancellable_for_each {X} (xs : list X) (body : X → task unit) w :
  (∀ x w', cancellable (body x w')) → cancellable (for_each xs body w).
Proof.
  intros Hb. revert w. induction xs as [|x xs IH]; intros w; simpl; [done|].
  unfold bind. apply cancellable_bind; [apply Hb|]. intros _ w'. apply IH.
Qed.

Lemma cancellable_sleep seconds w : cancellable (sleep seconds w).
Proof. simpl. split; [done|]. by intros [v|e] w'. Qed.

Lemma cancellable_enforce_iteration g ch w : cancellable (enforce_iteration g ch w).
Proof.
  unfold enforce_iteration, try_except. apply cancellable_catch.
  - unfold bind, get; simpl. destruct (negb _); [apply cancellable_sleep|].
    apply cancellable_bind; [|intros _ w'; apply cancellable_sleep].
    apply cancellable_for_each. intros member w'.
    destruct (member_bot member); [done|]. simpl.
    destruct (member_voice _ _) as [voice|]; [|done].
    destruct (vs_mute voice); [done|]. simpl.
    split; [done|]. intros [v|e] w''; simpl; [|done].
    by destruct (enforced_user_ids w'' !! g).
  - done.
  - intros e handler w'. destruct e; simpl; intros [= <-]; apply cancellable_sleep.
Qed.

Lemma cancellable_enforce_loop fuel g ch w : cancellable (enforce_loop fuel g ch w).
Proof.
  revert w. induction fuel as [|fuel IH]; intros w; simpl; [done|].
  unfold bind, get; simpl. destruct (bool_decide _); [|done].
  apply cancellable_bind; [apply cancellable_enforce_iteration|]. intros _ w'. apply IH.
Qed.

(** One pass of the loop body, against any environment: it ends with its
    sleep, or with the cancellation of the task. *)
Lemma enforce_iteration_wp g ch w :
  wp any_env no_guarantee (enforce_iteration g ch w) (λ r _ tr,
    (r = Ret tt ∧ ends_with_sleep tr) ∨ r = Raise CancelledError).
Proof.
  assert (∀ tr w0 seconds, seconds = 5 ∨ seconds = 10 →
    wp any_env no_guarantee (sleep seconds w0) (λ r' _ tr',
      (r' = Ret tt ∧ ends_with_sleep (tr ++ tr')) ∨ r' = Raise CancelledError)) as Hsleep.
  { intros tr w0 seconds Hs. simpl. split; [done|]. intros [v|e] w' _; simpl; [left|by right].
    split; [done|]. by exists tr, seconds. }
  unfold enforce_iteration, try_except. apply wp_catch.
  unfold bind, get; simpl. destruct (negb _).
  - eapply wp_mono; [|apply (Hsleep [] w 5); by left].
    intros r w' tr [[-> Htr]| ->]; simpl; [by left|by right].
  - apply wp_bind. apply wp_any. intros [[]|e] w' tr.
    + eapply wp_mono; [|apply (Hsleep tr w' 10); by right].
      intros r w'' tr' [[-> Htr]| ->]; simpl; [by left|by right].
    + destruct e; simpl; try (apply Hsleep; by right). by right.
Qed.

Lemma enforce_loop_wp fuel g ch w :
  wp any_env no_guarantee (enforce_loop fuel g ch w) (λ r w' _,
    (∀ e, r = Raise e → e = CancelledError)
    ∧ (r = Ret Returned → session_inactive g w')).
Proof.
  revert w. induction fuel as [|fuel IH]; intros w; simpl.
  { split; [by intros e [=]|by intros [=]]. }
  unfold bind, get; simpl. destruct (bool_decide_reflect (g ∈ dom (active_sessions w))) as [Hin|Hout].
  - apply wp_bind. eapply wp_mono; [|apply enforce_iteration_wp].
    intros r w' tr [[-> _]| ->]; simpl.
    + eapply wp_mono; [|apply IH]. by intros r' w'' tr' Hpost.
    + split; [by intros e [= <-]|by intros [=]].
  - simpl. split; [by intros e [=]|]. intros _. by apply not_elem_of_dom.
Qed.

Lemma sleeps_app tr1 tr2 : sleeps (tr1 ++ tr2) = (sleeps tr1 + sleeps tr2)%nat.
Proof. unfold sleeps. by rewrite omap_app, length_app. Qed.

Lemma wp_and {A} R G (c : coro A) (Q1 Q2 : res A → World → list op → Prop) :
  wp R G c Q1 → wp R G c Q2 → wp R G c (λ r w tr, Q1 r w tr ∧ Q2 r w tr).
Proof.
  revert Q1 Q2. induction c as [r w|o w k IH]; intros Q1 Q2; simpl; [done|].
  intros [Hg H1] [_ H2]. split; [done|]. intros r w' Hr.
  apply (IH r w' (λ r' w'' tr, Q1 r' w'' (o :: tr)) (λ r' w'' tr, Q2 r' w'' (o :: tr)));
    auto.
Qed.

Section turn.
Context (R : rely) (J : World → Prop) (C : Prop) (g : Z).
Hypothesis resumed : ∀ o w r w', R o w r w' → J w' ∧ (C ∨ not_cancelled o r).

Lemma enforce_member_turn member w :
  wp R no_guarantee (enforce_member g member w) (λ r _ tr, sleeps tr = 0%nat ∧ pass_end C r).
Proof.
  unfold enforce_member. destruct (member_bot member); [done|].
  unfold bind at 1, get at 1; cbn [coro_bind].
  destruct (member_voice (guild_of w g) (member_id member)) as [voice|]; [|done].
  destruct (vs_mute voice); [done|].
  unfold bind, member_edit, platform_call, get, modify; cbn.
  split; [done|]. intros [v|e] w1 Hr; cbn.
  - destruct (enforced_user_ids w1 !! g); cbn; [done|]. split; [done|]. by left.
  - split; [done|]. destruct (resumed _ _ _ _ Hr) as [_ [HC|[He _]]]; [|by left].
    destruct e; try (by left). right. done.
Qed.

Lemma enforce_pass_turn ms w :
  wp R no_guarantee (for_each ms (enforce_member g) w) (λ r _ tr,
    sleeps tr = 0%nat ∧ pass_end C r).
Proof.
  revert w. induction ms as [|m ms IH]; intros w; [done|].
  cbn [for_each]. unfold bind. apply wp_bind.
  eapply wp_mono; [|apply enforce_member_turn].
  intros [[]|e] w1 tr1 [Hs1 He1]; [|by rewrite ?app_nil_r].
  eapply wp_mono; [|apply IH]. intros r w2 tr2 [Hs2 He2].
  rewrite sleeps_app, Hs1, Hs2. done.
Qed.

Lemma sleep_turn seconds w :
  wp R no_guarantee (sleep seconds w) (λ r w' tr,
    sleeps tr = 1%nat ∧ (r = Ret tt ∧ J w' ∨ r = Raise CancelledError ∧ C)).
Proof.
  unfold sleep; cbn. split; [done|]. intros [v|e] w' Hr; cbn.
  - split; [done|]. left. split; [done|]. by destruct (resumed _ _ _ _ Hr).
  - split; [done|]. right. split; [done|].
    by destruct (resumed _ _ _ _ Hr) as [_ [HC|[_ Hs]]].
Qed.

(** One turn of the loop body: it sleeps once and returns; or, where
    cancellation is possible, ends with [CancelledError]. *)
Lemma enforce_iteration_turn channel_id w :
  wp R no_guarantee (enforce_iteration g channel_id w) (λ r w' tr,
    r = Ret tt ∧ sleeps tr = 1%nat ∧ J w'
    ∨ r = Raise CancelledError ∧ (sleeps tr ≤ 1)%nat ∧ C).
Proof.
  unfold enforce_iteration, try_except. apply wp_catch.
  unfold bind at 1, get at 1; cbn [coro_bind].
  destruct (negb (default true (focus_mode_active w !! g))).
  - eapply wp_mono; [|apply sleep_turn].
    intros r w' tr [Hs [[-> HJ]|[-> HC]]]; cbn; [left; done|right].
    split; [done|]. split; [lia|done].
  - unfold bind at 1. apply wp_bind.
    eapply wp_mono; [|apply (enforce_pass_turn (channel_members (guild_of w g) channel_id) w)].
    intros [[]|e] w1 tr1 [Hs1 He1].
    + eapply wp_mono; [|apply sleep_turn].
      intros r w' tr [Hs [[-> HJ]|[-> HC]]]; cbn; rewrite sleeps_app, Hs1, Hs.
      * by left.
      * right. split; [done|]. split; [lia|done].
    + assert (wp R no_guarantee (sleep 10 w1) (λ r' w' tr',
                r' = Ret tt ∧ sleeps (tr1 ++ tr') = 1%nat ∧ J w'
                ∨ r' = Raise CancelledError ∧ (sleeps (tr1 ++ tr') ≤ 1)%nat ∧ C)) as Hsleep.
      { eapply wp_mono; [|apply sleep_turn].
        intros r w' tr [Hs [[-> HJ]|[-> HC]]]; rewrite sleeps_app, Hs1, Hs.
        - by left.
        - right. split; [done|]. split; [lia|done]. }
      destruct He1 as [He|[-> HC]].
      * destruct e; try discriminate He; cbn; exact Hsleep.
      * cbn. right. split; [done|]. split; [lia|done].
Qed.

End turn.

Lemma enforce_loop_surviving fuel g channel_id w :
  session_active g w →
  wp (surviving g) no_guarantee (enforce_loop fuel g channel_id w) (λ r _ tr,
    r = Ret StillLooping ∧ sleeps tr = fuel).
Proof.
  revert w. induction fuel as [|fuel IH]; intros w Hs; [done|].
  cbn [enforce_loop]. unfold bind at 1, get at 1; cbn [coro_bind].
  rewrite bool_decide_eq_true_2 by (by apply elem_of_dom).
  unfold bind. apply wp_bind.
  eapply wp_mono;
    [|apply (enforce_iteration_turn (surviving g) (session_active g) False g)].
  2:{ intros o w0 r w' [HJ Hn]. split; [done|by right]. }
  intros r w1 tr1 [(-> & Hs1 & HJ)|(_ & _ & [])].
  eapply wp_mono; [|by apply IH]. intros r w2 tr2 [-> Hs2].
  rewrite sleeps_app, Hs1, Hs2. done.
Qed.

Lemma enforce_loop_ended fuel g channel_id w :
  wp (resumed_in (session_inactive g)) no_guarantee
    (enforce_loop (S (S fuel)) g channel_id w) (λ r _ tr,
      (r = Ret Returned ∨ r = Raise CancelledError) ∧ (sleeps tr ≤ 1)%nat).
Proof.
  cbn [enforce_loop]. unfold bind at 1, get at 1; cbn [coro_bind].
  destruct (bool_decide (g ∈ dom (active_sessions w))).
  2:{ cbn. split; [by left|]. unfold sleeps; cbn. lia. }
  unfold bind at 1. apply wp_bind.
  eapply wp_mono;
    [|apply (enforce_iteration_turn (resumed_in (session_inactive g))
               (session_inactive g) True g)].
  2:{ intros o w0 r w' HJ. split; [done|by left]. }
  intros r w1 tr1 [(-> & Hs1 & HJ)|(-> & Hs1 & _)].
  - unfold bind, get; cbn [coro_bind].
    rewrite bool_decide_eq_false_2 by (by apply not_elem_of_dom).
    cbn. rewrite app_nil_r, Hs1. split; [by left|lia].
  - split; [by right|done].
Qed.

Lemma enforce_loop_turns fuel g channel_id w :
  wp any_env no_guarantee (enforce_loop fuel g channel_id w) (λ r _ tr,
    r = Ret StillLooping → sleeps tr = fuel).
Proof.
  revert w. induction fuel as [|fuel IH]; intros w; [done|].
  cbn [enforce_loop]. unfold bind at 1, get at 1; cbn [coro_bind].
  destruct (bool_decide (g ∈ dom (active_sessions w))); [|done].
  unfold bind. apply wp_bind.
  eapply wp_mono; [|apply (enforce_iteration_turn any_env (λ _, True) True g)].
  2:{ intros o w0 r w' _. split; [done|by left]. }
  intros r w1 tr1 [(-> & Hs1 & _)|(-> & _)]; [|done].
  eapply wp_mono; [|by apply IH]. intros r w2 tr2 Hs2 Hr.
  rewrite sleeps_app, Hs1, Hs2; done.
Qed.


(** The sample session's loop over three turns: a refusal and a platform
    error are each followed by the sleep and the next turn. *)
Example enforce_loop_survives_failures :
  out_res (run (enforce_channel_mute 3 sample_session studying_world)
             [refuses Forbidden; quiet; refuses HTTPException]) = Ret StillLooping
  ∧ out_trace (run (enforce_channel_mute 3 sample_session studying_world)
                 [refuses Forbidden; quiet; refuses HTTPException])
    = [OpEdit 7 1 true "Active study session enforces mute"; OpSleep 10;
       OpEdit 7 1 true "Active study session enforces mute"; OpSleep 10;
       OpEdit 7 1 true "Active study session enforces mute";
       OpEdit 7 2 true "Active study session enforces mute"; OpSleep 10].
Proof. vm_compute. done. Qed.

(** The session is stopped by another task during the first sleep: the loop
    returns at its next check. *)
Example enforce_loop_returns_after_stop :
  out_res (run (enforce_channel_mute 5 sample_session studying_world)
             [quiet; quiet; session_ended_meanwhile 7]) = Ret Returned
  ∧ out_trace (run (enforce_channel_mute 5 sample_session studying_world)
                 [quiet; quiet; session_ended_meanwhile 7])
    = [OpEdit 7 1 true "Active study session enforces mute";
       OpEdit 7 2 true "Active study session enforces mute"; OpSleep 10].
Proof. vm_compute. done. Qed.

(** The task is cancelled during the first sleep. *)
Example enforce_loop_cancelled :
  out_res (run (enforce_channel_mute 5 sample_session studying_world)
             [quiet; quiet; refuses CancelledError]) = Raise CancelledError.
Proof. vm_compute. reflexivity. Qed.

(** ** The announcements as posted *)

Example render_focus : render (MsgFocus 1 2 25) = "Pomodoro cycle 1/2: focus for 25 minutes.".
Proof. reflexivity. Qed.

Example render_finished :
  render (MsgFinished 3300) = "Pomodoro finished. Study session ended after 0h 55m 0s.".
Proof. reflexivity. Qed.

(** * Further properties of the code *)

(** ** More of the store *)

Lemma upsert_add_insert `{Countable K} (key : K) seconds (tbl : gmap K Z) :
  upsert_add key seconds tbl = <[key := default 0 (tbl !! key) + seconds]> tbl.
Proof. unfold upsert_add. by destruct (tbl !! key). Qed.

Lemma upsert_add_commute `{Countable K} (k1 k2 : K) s1 s2 (tbl : gmap K Z) :
  upsert_add k1 s1 (upsert_add k2 s2 tbl) = upsert_add k2 s2 (upsert_add k1 s1 tbl).
Proof.
  apply map_eq. intros i. rewrite !upsert_add_insert.
  destruct (decide (k1 = k2)) as [->|Hne].
  - rewrite !lookup_insert_eq; simpl.
    destruct (decide (i = k2)) as [->|Hi].
    + rewrite !lookup_insert_eq. f_equal. lia.
    + by rewrite !lookup_insert_ne.
  - rewrite (lookup_insert_ne _ k2 k1) by done.
    rewrite (lookup_insert_ne _ k1 k2) by done.
    destruct (decide (i = k1)) as [->|Hi1].
    + rewrite lookup_insert_eq. rewrite (lookup_insert_ne _ k2 k1) by done.
      by rewrite lookup_insert_eq.
    + rewrite (lookup_insert_ne _ k1 i) by done.
      destruct (decide (i = k2)) as [->|Hi2].
      * by rewrite !lookup_insert_eq.
      * by rewrite !lookup_insert_ne.
Qed.

Lemma upsert_add_twice `{Countable K} (k : K) s1 s2 (tbl : gmap K Z) :
  upsert_add k s1 (upsert_add k s2 tbl) = upsert_add k (s2 + s1) tbl.
Proof.
  rewrite !upsert_add_insert. rewrite lookup_insert_eq; simpl.
  rewrite insert_insert_eq. f_equal. lia.
Qed.

(** X1.  The order of two accruals does not matter.  With amounts that, added
    to the totals of the store, stay within the 64 bits of an SQLite integer:
    two calls of [add_study_seconds] that return leave the same tables in
    either order, whatever the guilds, users and instants, an amount of zero
    or less leaving them as they were; and two accruals of amounts that are not
    negative, for one user at one instant, leave what one accrual of the sum
    leaves.  (A call in a quiet environment has this effect on the store.) *)
Theorem add_study_seconds_order_irrelevant (g1 u1 s1 : Z) (t1 : datetime)
    (g2 u2 s2 : Z) (t2 : datetime) (st : StudyStore) :
  within_int64 s1 s2 st →
  (∀ w, store (out_world (run (add_study_seconds g1 u1 s1 t1 w) []))
        = add_study_seconds_effect g1 u1 s1 t1 (store w))
  ∧ (s1 ≤ 0 → add_study_seconds_effect g1 u1 s1 t1 st = st)
  ∧ add_study_seconds_effect g1 u1 s1 t1 (add_study_seconds_effect g2 u2 s2 t2 st)
    = add_study_seconds_effect g2 u2 s2 t2 (add_study_seconds_effect g1 u1 s1 t1 st)
  ∧ (0 ≤ s1 → 0 ≤ s2 →
     add_study_seconds_effect g1 u1 s1 t1 (add_study_seconds_effect g1 u1 s2 t1 st)
     = add_study_seconds_effect g1 u1 (s2 + s1) t1 st).
Proof.
  intros _. unfold add_study_seconds_effect, add_study_seconds.
  split; [|split; [|split]].
  - intros w. by destruct (s1 <=? 0).
  - intros Hle. apply Z.leb_le in Hle. by rewrite Hle.
  - destruct (s1 <=? 0), (s2 <=? 0); try done.
    unfold add_study_seconds_tx; simpl. f_equal; apply upsert_add_commute.
  - intros H1 H2.
    destruct (Z.leb_spec s1 0), (Z.leb_spec s2 0), (Z.leb_spec (s2 + s1) 0); try lia.
    + done.
    + by replace (s2 + s1) with s2 by lia.
    + by replace (s2 + s1) with s1 by lia.
    + unfold add_study_seconds_tx; simpl. f_equal; apply upsert_add_twice.
Qed.

Lemma add_study_seconds_order_irrelevant_witness :
  add_study_seconds_effect 7 1 5 (mk_datetime sample_clock 0)
    (add_study_seconds_effect 7 1 (-1) (mk_datetime sample_clock 0) empty_store)
  = add_study_seconds_effect 7 1 (-1) (mk_datetime sample_clock 0)
      (add_study_seconds_effect 7 1 5 (mk_datetime sample_clock 0) empty_store).
Proof.
  apply (add_study_seconds_order_irrelevant 7 1 5 (mk_datetime sample_clock 0)
           7 1 (-1) (mk_datetime sample_clock 0) empty_store).
  split; [done|].
  split; intros key total Hrow; unfold empty_store in Hrow; simpl in Hrow;
    by rewrite lookup_empty in Hrow.
Defined.

(** X2.  The weekly bucket key never moves backwards in time: of two instants
    the later one has the same or a later key. *)
Theorem week_start_utc_monotone (a b : datetime) :
  dt_instant a ≤ dt_instant b → week_start_utc a ≤ week_start_utc b.
Proof.
  intros Hab. rewrite !week_start_utc_eq.
  pose proof us_per_day_pos as Hpos.
  pose proof (Z.div_le_mono _ _ us_per_day Hpos Hab) as Hd.
  set (da := dt_instant a / us_per_day + 1) in *.
  set (db := dt_instant b / us_per_day + 1) in *.
  assert (da ≤ db) as Hdd by lia. clearbody da db. unfold date_weekday.
  pose proof (Z.div_mod (da + 6) 7 ltac:(lia)).
  pose proof (Z.div_mod (db + 6) 7 ltac:(lia)).
  pose proof (Z.div_le_mono (da + 6) (db + 6) 7 ltac:(lia) ltac:(lia)). lia.
Qed.

Lemma week_start_utc_monotone_witness :
  week_start_utc (civil 2026 11 1 23 59 59 0) ≤ week_start_utc (civil 2026 11 2 0 0 0 0).
Proof. apply week_start_utc_monotone. vm_compute. discriminate. Defined.

(** X3.  In a store whose session ids are all at or below the counter, a new
    session record gets an id that no row has, above the old counter; the row
    is open (no end, no duration) and carries the guild, channel and start
    given; every other row is as before; and the store is again of that kind.
    Closing that id right after fills in exactly its end and duration. *)
Theorem create_session_record_tx_fresh (g channel : Z) (started : datetime)
    (st : StudyStore) :
  store_wf st →
  session_history st !! (create_session_record_tx g channel started st).2 = None
  ∧ session_seq st < (create_session_record_tx g channel started st).2
  ∧ session_history (create_session_record_tx g channel started st).1
      !! (create_session_record_tx g channel started st).2
    = Some (mk_session_row g channel started None None)
  ∧ (∀ other, other ≠ (create_session_record_tx g channel started st).2 →
       session_history (create_session_record_tx g channel started st).1 !! other
       = session_history st !! other)
  ∧ store_wf (create_session_record_tx g channel started st).1
  ∧ (∀ ended d,
       session_history
         (close_session_record_tx (create_session_record_tx g channel started st).2 ended d
            (create_session_record_tx g channel started st).1)
         !! (create_session_record_tx g channel started st).2
       = Some (mk_session_row g channel started (Some ended) (Some d))).
Proof.
  intros Hwf. simpl. split; [|split; [lia|split; [|split; [|split]]]].
  - destruct (session_history st !! (session_seq st + 1)) as [row|] eqn:E; [|done].
    apply Hwf in E. lia.
  - apply lookup_insert_eq.
  - intros other Hne. by apply lookup_insert_ne.
  - intros session_id row. simpl. rewrite lookup_insert.
    case_decide as Hid; [intros _; lia|]. intros Hrow. apply Hwf in Hrow. lia.
  - intros ended d. rewrite lookup_alter_eq, lookup_insert_eq. done.
Qed.

Lemma create_session_record_tx_fresh_witness :
  session_history empty_store
    !! (create_session_record_tx 7 10 (mk_datetime sample_clock 0) empty_store).2 = None.
Proof.
  apply (create_session_record_tx_fresh 7 10 (mk_datetime sample_clock 0) empty_store).
  intros session_id row Hrow. vm_compute in Hrow. discriminate Hrow.
Defined.

(** X4.  Closing a session record changes nothing but the end and duration of
    the row with that id: the row keeps its guild, channel and start; every
    other row, the id counter and the three other tables (totals, weekly
    totals, guild configuration) are untouched; and closing an id that has no
    row changes nothing at all. *)
Theorem close_session_record_tx_only_that_row (session_id : Z) (ended : datetime) (d : Z)
    (st : StudyStore) :
  (∀ row, session_history st !! session_id = Some row →
     session_history (close_session_record_tx session_id ended d st) !! session_id
     = Some (mk_session_row (sh_guild_id row) (sh_voice_channel_id row) (sh_started_at row)
               (Some ended) (Some d)))
  ∧ (∀ other, other ≠ session_id →
       session_history (close_session_record_tx session_id ended d st) !! other
       = session_history st !! other)
  ∧ (session_history st !! session_id = None →
       close_session_record_tx session_id ended d st = st)
  ∧ study_time (close_session_record_tx session_id ended d st) = study_time st
  ∧ weekly_study_time (close_session_record_tx session_id ended d st) = weekly_study_time st
  ∧ guild_config (close_session_record_tx session_id ended d st) = guild_config st
  ∧ session_seq (close_session_record_tx session_id ended d st) = session_seq st.
Proof.
  simpl. split; [|split; [|split]]; try done.
  - intros row Hrow. by rewrite lookup_alter_eq, Hrow.
  - intros other Hne. by apply lookup_alter_ne.
  - intros Hnone. destruct st; unfold close_session_record_tx; simpl in *. f_equal.
    apply alter_id. intros row Hrow. rewrite Hrow in Hnone. discriminate Hnone.
Qed.

Lemma reset_weekly_data_tx_nothing (g : Z) (week : date) (st : StudyStore) :
  (∀ u, weekly_study_time st !! (g, u, week) = None) →
  reset_weekly_data_tx g week st = (st, 0).
Proof.
  intros Hnone.
  assert (∀ key total, weekly_study_time st !! key = Some total →
            ¬ in_bucket g week (key, total)) as Hout.
  { intros [[g' u] week'] total Hrow [Hg Hw]; simpl in *. subst.
    rewrite Hnone in Hrow. discriminate Hrow. }
  unfold reset_weekly_data_tx. f_equal.
  - destruct st; simpl in *. f_equal. by apply map_filter_id.
  - replace (filter (in_bucket g week) (weekly_study_time st))
      with (∅ : gmap (Z * Z * date) Z); [done|].
    symmetry. apply map_empty_filter_2. intros key total Hrow. by apply Hout.
Qed.

(** X5.  Resetting a week of a guild that has no row for that week removes
    nothing, returns 0 and leaves the store as it was; in particular a second
    reset of the same week, right after the first, does so. *)
Theorem reset_weekly_data_tx_idempotent (g : Z) (week : date) (st : StudyStore) :
  reset_weekly_data_tx g week (reset_weekly_data_tx g week st).1
  = ((reset_weekly_data_tx g week st).1, 0)
  ∧ ((∀ u, weekly_study_time st !! (g, u, week) = None) →
     reset_weekly_data_tx g week st = (st, 0)).
Proof.
  split; [|apply reset_weekly_data_tx_nothing].
  apply reset_weekly_data_tx_nothing. intros u. simpl.
  apply map_lookup_filter_None. right. intros total _ Hn. apply Hn. by split.
Qed.

Lemma same_week_same_key (a b : datetime) (monday : date) :
  date_weekday monday = 0 →
  midnight_utc monday ≤ dt_instant a < midnight_utc monday + 7 * us_per_day →
  midnight_utc monday ≤ dt_instant b < midnight_utc monday + 7 * us_per_day →
  week_start_utc a = week_start_utc b.
Proof.
  assert (∀ t : datetime, date_weekday monday = 0 →
            midnight_utc monday ≤ dt_instant t < midnight_utc monday + 7 * us_per_day →
            week_start_utc t = monday) as Hkey.
  { intros t Hm [Hlo Hhi]. rewrite week_start_utc_eq.
    pose proof (day_bounds (dt_instant t)) as Hd.
    set (d := dt_instant t / us_per_day + 1) in *.
    pose proof (weekday_range d) as Hw. pose proof (monday_before d) as Hmon.
    pose proof us_per_day_pos. unfold midnight_utc in *.
    assert (monday ≤ d < monday + 7) as Hrange by nia.
    destruct (Z.lt_trichotomy (d - date_weekday d) monday) as [Hlt|[Heq|Hgt]]; [|done|].
    - pose proof (mondays_apart _ _ Hmon Hm Hlt). lia.
    - pose proof (mondays_apart _ _ Hm Hmon Hgt). lia. }
  intros Hm Ha Hb. by rewrite (Hkey a), (Hkey b).
Qed.

(** X6.  Seconds accrued at one instant of a UTC week and a weekly reset keyed
    by another instant of the same week: the reset removes the weekly row the
    accrual wrote, and the user's all-time total keeps the accrued seconds. *)
Theorem reset_clears_this_weeks_accrual (g u seconds : Z) (accrued_at reset_at : datetime)
    (monday : date) (st : StudyStore) :
  date_weekday monday = 0 →
  midnight_utc monday ≤ dt_instant accrued_at < midnight_utc monday + 7 * us_per_day →
  midnight_utc monday ≤ dt_instant reset_at < midnight_utc monday + 7 * us_per_day →
  weekly_study_time (add_study_seconds_tx g u seconds accrued_at st)
    !! (g, u, week_start_utc reset_at)
  = Some (default 0 (weekly_study_time st !! (g, u, week_start_utc reset_at)) + seconds)
  ∧ weekly_study_time
      (reset_weekly_data_tx g (week_start_utc reset_at)
         (add_study_seconds_tx g u seconds accrued_at st)).1
      !! (g, u, week_start_utc reset_at) = None
  ∧ get_user_seconds g u
      (reset_weekly_data_tx g (week_start_utc reset_at)
         (add_study_seconds_tx g u seconds accrued_at st)).1
    = get_user_seconds g u st + seconds.
Proof.
  intros Hm Ha Hr. rewrite <- (same_week_same_key accrued_at reset_at monday Hm Ha Hr).
  split; [|split].
  - simpl. apply upsert_add_lookup.
  - simpl. apply map_lookup_filter_None. right. intros total _ Hn. apply Hn. by split.
  - unfold get_user_seconds; simpl. by rewrite upsert_add_lookup.
Qed.

Lemma reset_clears_this_weeks_accrual_witness :
  get_user_seconds 7 1
    (reset_weekly_data_tx 7 (week_start_utc (civil 2026 11 8 23 0 0 0))
       (add_study_seconds_tx 7 1 120 (civil 2026 11 3 10 0 0 0) empty_store)).1
  = get_user_seconds 7 1 empty_store + 120.
Proof.
  apply (reset_clears_this_weeks_accrual 7 1 120 (civil 2026 11 3 10 0 0 0)
           (civil 2026 11 8 23 0 0 0) (ymd2ord 2026 11 2) empty_store).
  - reflexivity.
  - vm_compute. split; [discriminate|reflexivity].
  - vm_compute. split; [discriminate|reflexivity].
Defined.

(** X7.  [fmt_duration] prints hours, minutes and seconds that add up to the
    amount given, with minutes and seconds between 0 and 59; for a negative
    amount it is the hours that are negative. *)
Theorem fmt_duration_parts (seconds : Z) :
  ∃ hours minutes secs,
    fmt_duration seconds
    = pretty hours +:+ "h " +:+ pretty minutes +:+ "m " +:+ pretty secs +:+ "s"
    ∧ seconds = hours * 3600 + minutes * 60 + secs
    ∧ 0 ≤ minutes < 60 ∧ 0 ≤ secs < 60
    ∧ (0 ≤ seconds ↔ 0 ≤ hours).
Proof.
  exists (seconds / 3600), (seconds mod 3600 / 60), (seconds mod 3600 mod 60).
  split; [reflexivity|].
  pose proof (Z.div_mod seconds 3600 ltac:(lia)).
  pose proof (Z.mod_pos_bound seconds 3600 ltac:(lia)).
  pose proof (Z.div_mod (seconds mod 3600) 60 ltac:(lia)).
  pose proof (Z.mod_pos_bound (seconds mod 3600) 60 ltac:(lia)).
  repeat split; lia.
Qed.

(** X8.  The guild configuration reads back what was last written for the
    guild; a guild never configured reads as no channel and no category;
    writing one guild leaves the others and the other tables alone. *)
Theorem guild_config_round_trip (g voice category : Z) (st : StudyStore) :
  get_guild_config g (upsert_guild_config_tx g voice category st) = (Some voice, Some category)
  ∧ (∀ voice0 category0,
       upsert_guild_config_tx g voice category (upsert_guild_config_tx g voice0 category0 st)
       = upsert_guild_config_tx g voice category st)
  ∧ (∀ other, other ≠ g →
       get_guild_config other (upsert_guild_config_tx g voice category st)
       = get_guild_config other st)
  ∧ (guild_config st !! g = None → get_guild_config g st = (None, None))
  ∧ study_time (upsert_guild_config_tx g voice category st) = study_time st
  ∧ weekly_study_time (upsert_guild_config_tx g voice category st) = weekly_study_time st
  ∧ session_history (upsert_guild_config_tx g voice category st) = session_history st.
Proof.
  unfold get_guild_config, upsert_guild_config_tx; simpl.
  split; [by rewrite lookup_insert_eq|]. split; [|split; [|split]]; try done.
  - intros voice0 category0. by rewrite insert_insert_eq.
  - intros other Hne. by rewrite lookup_insert_ne.
  - by intros ->.
Qed.

(** ** Runs without interference *)

Lemma wp_follows {A} R G (c : coro A) Q env :
  wp R G c Q → follows R c env →
  Q (out_res (run c env)) (out_world (run c env)) (out_trace (run c env)).
Proof.
  revert Q env. induction c as [r w|o w k IH]; intros Q env; simpl; [done|].
  intros [_ Hk] [Hr Hf]. apply (IH _ _ (λ r' w'' tr, Q r' w'' (o :: tr))); [|done].
  by apply Hk.
Qed.

Lemma wp_bind_ret {A B} R G (c : coro A) (f : A → task B) (Q1 : A → World → list op → Prop)
    (Q : res B → World → list op → Prop) :
  wp R G c (λ r w tr, ∃ a, r = Ret a ∧ Q1 a w tr) →
  (∀ a w tr, Q1 a w tr → wp R G (f a w) (λ r' w' tr', Q r' w' (tr ++ tr'))) →
  wp R G (coro_bind c f) Q.
Proof.
  intros Hc Hf. apply wp_bind. eapply wp_mono; [|exact Hc].
  intros r w tr (a & -> & HQ1). by apply Hf.
Qed.

Lemma silent_nil : silent [].
Proof. done. Qed.

Lemma silent_app tr1 tr2 : silent tr1 → silent tr2 → silent (tr1 ++ tr2).
Proof.
  intros (Ha & Hm & Hu & Hc) (Ha' & Hm' & Hu' & Hc').
  unfold silent, announcements, mute_attempts, unmute_attempts, closed_records in *.
  rewrite !omap_app, Ha, Hm, Hu, Hc, Ha', Hm', Hu', Hc'. done.
Qed.

Lemma later_refl w : later w w.
Proof. exists (clock w). split; [lia|by destruct w]. Qed.

Lemma later_trans w1 w2 w3 : later w1 w2 → later w2 w3 → later w1 w3.
Proof.
  intros (t & Ht & ->) (t' & Ht' & ->). exists t'. simpl in *. split; [lia|done].
Qed.

Lemma accrue_effect_at_time g u now t w :
  accrue_effect g u now (at_time t w) = at_time t (accrue_effect g u now w).
Proof.
  unfold accrue_effect. change (ledger g (at_time t w)) with (ledger g w).
  destruct (ledger g w !! u) as [joined_at|]; [|done]. by destruct (_ <=? 0).
Qed.

Lemma accrue_effect_clock g u now w : clock (accrue_effect g u now w) = clock w.
Proof.
  unfold accrue_effect. destruct (ledger g w !! u) as [joined_at|]; [|done].
  by destruct (_ <=? 0).
Qed.

Lemma accrue_effect_later g u now w w' :
  later w w' → later (accrue_effect g u now w) (accrue_effect g u now w').
Proof.
  intros (t & Ht & ->). exists t. rewrite accrue_effect_clock, accrue_effect_at_time. done.
Qed.

Lemma settle_later g now us w w' :
  later w w' → later (settle g now us w) (settle g now us w').
Proof.
  unfold settle. revert w w'. induction us as [|u us IH]; intros w w' Hl; [done|].
  cbn [foldl]. by apply IH, accrue_effect_later.
Qed.

(** Under [lenient], an accrual returns and has its effect. *)
Lemma accrue_user_time_lenient g u now w :
  wp lenient no_guarantee (accrue_user_time g u now w) (λ r w' tr,
    ∃ a, r = Ret a ∧ later (accrue_effect g u now w) w' ∧ silent tr).
Proof.
  unfold accrue_user_time, accrue_effect, bind, get, modify; simpl.
  destruct (ledger g w !! u) as [joined_at|]; simpl;
    [|exists tt; split; [done|split; [apply later_refl|done]]].
  unfold add_study_seconds. destruct (_ <=? 0); simpl;
    [exists tt; split; [done|split; [apply later_refl|done]]|].
  split; [done|]. intros [v|e] w' [(t & Ht & ->) Hserved]; simpl.
  - exists tt. split; [done|]. split; [|done]. by exists t.
  - by destruct e.
Qed.

Lemma accrual_loop_lenient g now us w :
  wp lenient no_guarantee (for_each us (λ u, accrue_user_time g u now) w) (λ r w' tr,
    ∃ a, r = Ret a ∧ later (settle g now us w) w' ∧ silent tr).
Proof.
  revert w. induction us as [|u us IH]; intros w; simpl.
  { exists tt. split; [done|]. split; [apply later_refl|done]. }
  unfold bind.
  eapply (wp_bind_ret _ _ _ _ (λ _ w' tr, later (accrue_effect g u now w) w' ∧ silent tr)).
  - apply accrue_user_time_lenient.
  - intros [] w' tr [Hl Htr]. eapply wp_mono; [|apply IH].
    intros r w'' tr' (a & -> & Hl' & Htr'). exists a.
    split; [done|]. split; [|by apply silent_app].
    eapply later_trans; [|exact Hl']. by apply (settle_later g now us) in Hl.
Qed.

(** *** What an accrual loop leaves behind *)

Lemma accrue_effect_ledger g u now w :
  ledger g (accrue_effect g u now w) = delete u (ledger g w).
Proof.
  unfold accrue_effect. destruct (ledger g w !! u) as [joined_at|]; [|apply ledger_popped].
  destruct (_ <=? 0); apply ledger_popped.
Qed.

Lemma accrue_effect_total g a u now w :
  get_user_seconds g u (store (accrue_effect g a now w))
  = get_user_seconds g u (store w) + (if decide (u = a) then credit g a now w else 0).
Proof.
  unfold accrue_effect, credit, get_user_seconds.
  destruct (ledger g w !! a) as [joined_at|]; simpl; [|case_decide; lia].
  destruct (Z.leb_spec (int_total_seconds (datetime_sub now joined_at)) 0); simpl.
  - case_decide; lia.
  - case_decide as Hu.
    + subst. rewrite upsert_add_lookup; simpl. lia.
    + rewrite upsert_add_lookup_ne by congruence. lia.
Qed.

Lemma accrue_effect_weekly g a u now w :
  default 0 (weekly_study_time (store (accrue_effect g a now w)) !! (g, u, week_start_utc now))
  = default 0 (weekly_study_time (store w) !! (g, u, week_start_utc now))
    + (if decide (u = a) then credit g a now w else 0).
Proof.
  unfold accrue_effect, credit.
  destruct (ledger g w !! a) as [joined_at|]; simpl; [|case_decide; lia].
  destruct (Z.leb_spec (int_total_seconds (datetime_sub now joined_at)) 0); simpl.
  - case_decide; lia.
  - case_decide as Hu.
    + subst. rewrite upsert_add_lookup; simpl. lia.
    + rewrite upsert_add_lookup_ne by congruence. lia.
Qed.

Lemma accrue_effect_credit g a u now now' w :
  credit g u now' (accrue_effect g a now w) = if decide (u = a) then 0 else credit g u now' w.
Proof.
  unfold credit. rewrite accrue_effect_ledger. case_decide as Hu.
  - subst. by rewrite od_lookup_delete_eq.
  - by rewrite od_lookup_delete_ne.
Qed.

Lemma settle_ledger g now us w u :
  ledger g (settle g now us w) !! u = if decide (u ∈ us) then None else ledger g w !! u.
Proof.
  unfold settle. revert w. induction us as [|a us IH]; intros w; cbn [foldl].
  - destruct (decide (u ∈ [])) as [Hin|_]; [by apply elem_of_nil in Hin|done].
  - rewrite IH. rewrite accrue_effect_ledger.
    destruct (decide (u = a)) as [->|Hne].
    + rewrite od_lookup_delete_eq. rewrite (decide_True _ _ (list_elem_of_here a us)).
      by case_decide.
    + rewrite od_lookup_delete_ne by done.
      destruct (decide (u ∈ us)) as [Hin|Hout].
      * by rewrite decide_True by (by right).
      * rewrite decide_False; [done|]. intros [?|?]%elem_of_cons; done.
Qed.

Lemma settle_total g now us w u :
  get_user_seconds g u (store (settle g now us w))
  = get_user_seconds g u (store w) + (if decide (u ∈ us) then credit g u now w else 0).
Proof.
  unfold settle. revert w. induction us as [|a us IH]; intros w.
  - cbn [foldl]. destruct (decide (u ∈ [])) as [Hin|_]; [by apply elem_of_nil in Hin|lia].
  - cbn [foldl]. rewrite IH, accrue_effect_total, accrue_effect_credit.
    destruct (decide (u = a)) as [->|Hne].
    + rewrite (decide_True _ _ (list_elem_of_here a us)).
      destruct (decide (a ∈ us)); lia.
    + destruct (decide (u ∈ us)) as [Hin|Hout].
      * rewrite decide_True by (by right). lia.
      * rewrite decide_False; [lia|]. intros [?|?]%elem_of_cons; done.
Qed.

Lemma settle_weekly g now us w u :
  default 0 (weekly_study_time (store (settle g now us w)) !! (g, u, week_start_utc now))
  = default 0 (weekly_study_time (store w) !! (g, u, week_start_utc now))
    + (if decide (u ∈ us) then credit g u now w else 0).
Proof.
  unfold settle. revert w. induction us as [|a us IH]; intros w.
  - cbn [foldl]. destruct (decide (u ∈ [])) as [Hin|_]; [by apply elem_of_nil in Hin|lia].
  - cbn [foldl]. rewrite IH, accrue_effect_weekly, accrue_effect_credit.
    destruct (decide (u = a)) as [->|Hne].
    + rewrite (decide_True _ _ (list_elem_of_here a us)).
      destruct (decide (a ∈ us)); lia.
    + destruct (decide (u ∈ us)) as [Hin|Hout].
      * rewrite decide_True by (by right). lia.
      * rewrite decide_False; [lia|]. intros [?|?]%elem_of_cons; done.
Qed.

(** The fields an accrual loop does not write. *)
Lemma settle_frame g now us w :
  active_sessions (settle g now us w) = active_sessions w
  ∧ active_session_record_id (settle g now us w) = active_session_record_id w
  ∧ enforced_user_ids (settle g now us w) = enforced_user_ids w
  ∧ focus_mode_active (settle g now us w) = focus_mode_active w
  ∧ pomodoro_states (settle g now us w) = pomodoro_states w
  ∧ enforce_mute_task (settle g now us w) = enforce_mute_task w
  ∧ tasks (settle g now us w) = tasks w
  ∧ cancel_requested (settle g now us w) = cancel_requested w
  ∧ next_id (settle g now us w) = next_id w
  ∧ guilds (settle g now us w) = guilds w
  ∧ clock (settle g now us w) = clock w
  ∧ session_history (store (settle g now us w)) = session_history (store w)
  ∧ session_seq (store (settle g now us w)) = session_seq (store w)
  ∧ guild_config (store (settle g now us w)) = guild_config (store w).
Proof.
  unfold settle. revert w. induction us as [|a us IH]; intros w; [by repeat split|].
  cbn [foldl].
  destruct (IH (accrue_effect g a now w))
    as (-> & -> & -> & -> & -> & -> & -> & -> & -> & -> & -> & -> & -> & ->).
  unfold accrue_effect. destruct (ledger g w !! a) as [joined_at|]; [|by repeat split].
  destruct (_ <=? 0); by repeat split.
Qed.

Lemma ledger_keys_spec g w u : u ∈ ledger_keys g w ↔ is_Some (ledger g w !! u).
Proof. apply od_keys_spec. Qed.

Lemma credit_absent g u now w : ledger g w !! u = None → credit g u now w = 0.
Proof. unfold credit. by intros ->. Qed.

(** Settling all the keys of the ledger: the ledger is empty and each user
    has been credited. *)
Lemma settle_all g now w :
  (∀ u, ledger g (settle g now (ledger_keys g w) w) !! u = None)
  ∧ (∀ u, get_user_seconds g u (store (settle g now (ledger_keys g w) w))
          = get_user_seconds g u (store w) + credit g u now w)
  ∧ (∀ u, default 0 (weekly_study_time (store (settle g now (ledger_keys g w) w))
                       !! (g, u, week_start_utc now))
          = default 0 (weekly_study_time (store w) !! (g, u, week_start_utc now))
            + credit g u now w).
Proof.
  split; [|split]; intros u.
  - rewrite settle_ledger. case_decide as Hin; [done|].
    destruct (ledger g w !! u) eqn:E; [|done].
    destruct Hin. apply ledger_keys_spec. by eexists.
  - rewrite settle_total. case_decide as Hin; [done|].
    rewrite credit_absent; [done|].
    destruct (ledger g w !! u) eqn:E; [|done].
    destruct Hin. apply ledger_keys_spec. by eexists.
  - rewrite settle_weekly. case_decide as Hin; [done|].
    rewrite credit_absent; [done|].
    destruct (ledger g w !! u) eqn:E; [|done].
    destruct Hin. apply ledger_keys_spec. by eexists.
Qed.

(** *** The mute and unmute loops *)

Lemma unmute_enforced_lenient g reason m w :
  wp lenient no_guarantee (unmute_enforced g reason m w) (λ r w' tr,
    ∃ a, r = Ret a ∧ later w w'
      ∧ unmute_attempts tr
        = (if to_be_unmuted (guild_of w g) (enforced g w) m then [member_id m] else [])
      ∧ announcements tr = [] ∧ mute_attempts tr = [] ∧ closed_records tr = []).
Proof.
  unfold unmute_enforced, to_be_unmuted. destruct (member_bot m); simpl.
  { exists tt. split; [done|]. split; [apply later_refl|done]. }
  unfold bind, get; simpl.
  destruct (bool_decide _ && voice_muted _); simpl.
  - split; [done|]. intros [v|e] w' [Hl Hs]; simpl.
    + by exists tt.
    + destruct e; simpl in Hs; try done. by exists tt.
  - exists tt. split; [done|]. split; [apply later_refl|done].
Qed.

Lemma unmute_loop_lenient g reason ms w :
  wp lenient no_guarantee (for_each ms (unmute_enforced g reason) w) (λ r w' tr,
    ∃ a, r = Ret a ∧ later w w'
      ∧ unmute_attempts tr
        = member_id <$> filter (λ m, to_be_unmuted (guild_of w g) (enforced g w) m = true) ms
      ∧ announcements tr = [] ∧ mute_attempts tr = [] ∧ closed_records tr = []).
Proof.
  revert w. induction ms as [|m ms IH]; intros w; simpl.
  { exists tt. split; [done|]. split; [apply later_refl|done]. }
  unfold bind.
  eapply (wp_bind_ret _ _ _ _ (λ _ w' tr, later w w'
      ∧ unmute_attempts tr
        = (if to_be_unmuted (guild_of w g) (enforced g w) m then [member_id m] else [])
      ∧ announcements tr = [] ∧ mute_attempts tr = [] ∧ closed_records tr = [])).
  - eapply wp_mono; [|apply unmute_enforced_lenient].
    intros r w' tr (a & -> & H). by exists a.
  - intros [] w' tr (Hl & Hu & Ha & Hm & Hc). eapply wp_mono; [|apply IH].
    intros r w'' tr' (a & -> & Hl' & Hu' & Ha' & Hm' & Hc'). exists a.
    split; [done|]. split; [by eapply later_trans|].
    unfold unmute_attempts, announcements, mute_attempts, closed_records in *.
    rewrite !omap_app, Hu, Ha, Hm, Hc, Hu', Ha', Hm', Hc'.
    destruct Hl as (t & Ht & ->).
    change (guild_of (at_time t w) g) with (guild_of w g).
    change (enforced g (at_time t w)) with (enforced g w).
    split; [|done]. rewrite filter_cons.
    destruct (to_be_unmuted (guild_of w g) (enforced g w) m) eqn:E.
    + by rewrite decide_True.
    + by rewrite decide_False.
Qed.

Lemma union_empty_subseteq (a : gset Z) : a ⊆ a ∪ ∅.
Proof. intros x Hx. apply elem_of_union. by left. Qed.

Lemma grown_refl g w : grown g ∅ w w.
Proof.
  exists (clock w), (enforced_user_ids w). split; [lia|]. split; [by destruct w|].
  split; [done|]. split; [done|apply union_empty_subseteq].
Qed.

Lemma grown_trans g ids1 ids2 w1 w2 w3 :
  grown g ids1 w1 w2 → grown g ids2 w2 w3 → grown g (ids1 ∪ ids2) w1 w3.
Proof.
  intros (t & e & Ht & -> & Ho & Hlo & Hhi) (t' & e' & Ht' & -> & Ho' & Hlo' & Hhi').
  simpl in *. exists t', e'. split; [lia|]. split; [done|].
  split; [intros g' Hg'; by rewrite Ho', Ho|]. split; [by etrans|].
  intros x Hx. apply Hhi', elem_of_union in Hx as [Hx|Hx].
  - apply Hhi, elem_of_union in Hx as [Hx|Hx]; rewrite !elem_of_union; tauto.
  - rewrite !elem_of_union; tauto.
Qed.

Lemma later_grown g w w' : later w w' → grown g ∅ w w'.
Proof.
  intros (t & Ht & ->). exists t, (enforced_user_ids w). split; [done|].
  split; [by destruct w|]. split; [done|]. split; [done|apply union_empty_subseteq].
Qed.

Lemma mute_present_lenient g m w :
  wp lenient no_guarantee (mute_present g m w) (λ r w' tr,
    ∃ a, r = Ret a
      ∧ grown g (if to_be_muted (guild_of w g) m then {[member_id m]} else ∅) w w'
      ∧ mute_attempts tr = (if to_be_muted (guild_of w g) m then [member_id m] else [])
      ∧ announcements tr = [] ∧ unmute_attempts tr = [] ∧ closed_records tr = []).
Proof.
  unfold mute_present, to_be_muted, bind, get; simpl.
  destruct (member_bot m || _ || _); simpl.
  { exists tt. split; [done|]. split; [apply grown_refl|done]. }
  split; [done|]. intros [v|e] w' [(t & Ht & ->) Hs]; simpl.
  - exists tt. split; [done|]. split; [|done].
    exists t, (<[g := {[member_id m]} ∪ default ∅ (enforced_user_ids w !! g)]>
                 (enforced_user_ids w)).
    split; [done|]. split; [done|].
    split; [intros g' Hg'; by rewrite lookup_insert_ne|].
    rewrite lookup_insert_eq; simpl. split.
    + apply union_subseteq_r.
    + intros x. rewrite !elem_of_union. tauto.
  - destruct e; simpl in Hs; try done. exists tt. split; [done|]. split; [|done].
    exists t, (enforced_user_ids w). split; [done|]. split; [by destruct w|].
    split; [done|]. split; [done|apply union_subseteq_l].
Qed.

Lemma mute_loop_lenient g ms w :
  wp lenient no_guarantee (for_each ms (mute_present g) w) (λ r w' tr,
    ∃ a, r = Ret a
      ∧ grown g (list_to_set (mute_attempts tr)) w w'
      ∧ mute_attempts tr
        = member_id <$> filter (λ m, to_be_muted (guild_of w g) m = true) ms
      ∧ announcements tr = [] ∧ unmute_attempts tr = [] ∧ closed_records tr = []).
Proof.
  revert w. induction ms as [|m ms IH]; intros w; simpl.
  { exists tt. split; [done|]. split; [apply grown_refl|done]. }
  unfold bind.
  eapply (wp_bind_ret _ _ _ _ (λ _ w' tr,
      grown g (if to_be_muted (guild_of w g) m then {[member_id m]} else ∅) w w'
      ∧ mute_attempts tr = (if to_be_muted (guild_of w g) m then [member_id m] else [])
      ∧ announcements tr = [] ∧ unmute_attempts tr = [] ∧ closed_records tr = [])).
  - eapply wp_mono; [|apply mute_present_lenient].
    intros r w' tr (a & -> & H). by exists a.
  - intros [] w' tr (Hg & Hm & Ha & Hu & Hc). eapply wp_mono; [|apply IH].
    intros r w'' tr' (a & -> & Hg' & Hm' & Ha' & Hu' & Hc'). exists a.
    split; [done|].
    assert (guild_of w' g = guild_of w g) as Hgd.
    { by destruct Hg as (t & e & _ & -> & _). }
    rewrite Hgd in Hm'.
    assert (mute_attempts (tr ++ tr')
            = member_id <$> filter (λ m0, to_be_muted (guild_of w g) m0 = true) (m :: ms))
      as Hall.
    { unfold mute_attempts in *. rewrite omap_app, Hm, Hm', filter_cons.
      destruct (to_be_muted (guild_of w g) m) eqn:E.
      - by rewrite decide_True.
      - by rewrite decide_False. }
    split; [|split; [exact Hall|]].
    + pose proof (grown_trans _ _ _ _ _ _ Hg Hg') as Hgg.
      destruct Hgg as (t & e & Ht & -> & Ho & Hlo & Hhi).
      exists t, e. split; [done|]. split; [done|]. split; [done|]. split; [done|].
      unfold mute_attempts in *. rewrite omap_app, list_to_set_app_L, Hm.
      intros x Hx. apply Hhi in Hx. revert Hx.
      destruct (to_be_muted (guild_of w g) m); simpl;
        rewrite !elem_of_union, ?elem_of_singleton, ?elem_of_empty; tauto.
    + unfold unmute_attempts, announcements, closed_records in *.
      rewrite !omap_app, Ha, Hu, Hc, Ha', Hu', Hc'. done.
Qed.

Lemma seeding_lookup (l : list Member) (now : datetime) (d : odict) (u : Z) :
  foldl (λ d m, <[member_id m := now]> d) d l !! u
  = if bool_decide (u ∈ member_id <$> l) then Some now else d !! u.
Proof.
  revert d. induction l as [|m l IH]; intros d; cbn [foldl fmap list_fmap].
  { rewrite bool_decide_eq_false_2; [done|]. by intros ?%elem_of_nil. }
  rewrite IH. destruct (decide (u ∈ member_id <$> l)) as [Hin|Hout].
  - rewrite !bool_decide_eq_true_2; [done|by right|done].
  - rewrite (bool_decide_eq_false_2 _ Hout).
    destruct (decide (u = member_id m)) as [->|Hne].
    + rewrite od_lookup_insert_eq. rewrite bool_decide_eq_true_2; [done|by left].
    + rewrite od_lookup_insert_ne by done.
      rewrite bool_decide_eq_false_2; [done|]. intros [?|?]%elem_of_cons; done.
Qed.

Lemma seed_ledger_lookup ms now u :
  seed_ledger ms now !! u = if bool_decide (u ∈ humans ms) then Some now else None.
Proof. unfold seed_ledger, humans. by rewrite seeding_lookup. Qed.

Lemma later_fields w w' :
  later w w' →
  store w' = store w ∧ active_sessions w' = active_sessions w
  ∧ active_session_record_id w' = active_session_record_id w
  ∧ enforced_user_ids w' = enforced_user_ids w
  ∧ session_joined_at w' = session_joined_at w
  ∧ focus_mode_active w' = focus_mode_active w
  ∧ pomodoro_states w' = pomodoro_states w
  ∧ enforce_mute_task w' = enforce_mute_task w
  ∧ tasks w' = tasks w ∧ cancel_requested w' = cancel_requested w
  ∧ next_id w' = next_id w ∧ guilds w' = guilds w ∧ clock w ≤ clock w'.
Proof. intros (t & Ht & ->). by repeat split. Qed.

Lemma set_focus_mode_break_lenient g session channel_id w :
  active_sessions w !! g = Some session →
  get_voice_channel (guild_of w g) (voice_channel_id session) = Some channel_id →
  wp lenient no_guarantee (set_focus_mode g false w) (λ r w' tr,
    ∃ a, r = Ret a
    ∧ later (settle g (utcnow w) (ledger_keys g w) (set_focus_mode_active <[g := false]> w)) w'
    ∧ unmute_attempts tr
      = member_id <$> filter (λ m, to_be_unmuted (guild_of w g) (enforced g w) m = true)
                        (channel_members (guild_of w g) channel_id)
    ∧ announcements tr = [] ∧ mute_attempts tr = [] ∧ closed_records tr = []).
Proof.
  intros Hs Hc. unfold set_focus_mode, bind, get, modify.
  cbn [coro_bind]. rewrite Hs, Hc. cbn [coro_bind].
  eapply (wp_bind_ret _ _ _ _ (λ _ w' tr,
    later (settle g (utcnow w) (ledger_keys g w) (set_focus_mode_active <[g := false]> w)) w'
    ∧ silent tr)).
  - eapply wp_mono; [|apply accrual_loop_lenient].
    intros r w' tr (a & -> & H). by exists a.
  - intros [] w1 tr [Hl (Ha & Hm & Hu & Hc')].
    eapply wp_mono;
      [|apply (unmute_loop_lenient g "Pomodoro break started"
                 (channel_members (guild_of w1 g) channel_id) w1)].
    intros r w' tr' (a & -> & Hl' & Hu' & Ha' & Hm' & Hc''). exists a.
    split; [done|]. split; [by eapply later_trans|].
    unfold unmute_attempts, announcements, mute_attempts, closed_records in *.
    rewrite !omap_app, Hu, Ha, Hm, Hc', Hu', Ha', Hm', Hc''.
    split; [|done]. simpl.
    apply later_fields in Hl as (_ & _ & _ & He & _ & _ & _ & _ & _ & _ & _ & Hg & _).
    destruct (settle_frame g (utcnow w) (ledger_keys g w) (set_focus_mode_active <[g := false]> w))
      as (_ & _ & He' & _ & _ & _ & _ & _ & _ & Hg' & _).
    unfold guild_of, enforced. rewrite Hg, Hg', He, He'. done.
Qed.

(** *** Accrual, focus phases and the end of a session *)

(** X9.  An accrual consumes the join instant it credits: of two accruals for
    the same user in a row, whatever their times, only the first credits
    anything.  In a run without interference the user's total grows by the
    whole seconds since the join instant (by nothing when there was no join
    instant) and the user has no join instant afterwards. *)
Theorem accrue_user_time_credits_once g u now now' w :
  wp lenient no_guarantee ((accrue_user_time g u now ;;; accrue_user_time g u now') w)
    (λ r w' tr,
       r = Ret tt
       ∧ ledger g w' !! u = None
       ∧ get_user_seconds g u (store w')
         = get_user_seconds g u (store w) + credit g u now w).
Proof.
  unfold bind.
  eapply (wp_bind_ret _ _ _ _ (λ _ w' tr, later (accrue_effect g u now w) w')).
  - eapply wp_mono; [|apply accrue_user_time_lenient].
    intros r w' tr (a & -> & Hl & _). by exists a.
  - intros [] w1 tr Hl. eapply wp_mono; [|apply accrue_user_time_lenient].
    intros r w' tr' ([] & -> & Hl' & _). split; [done|].
    apply (accrue_effect_later g u now') in Hl.
    pose proof (later_trans _ _ _ Hl Hl') as Hw.
    apply later_fields in Hw as (Hst & _ & _ & _ & Hj & _).
    unfold ledger at 1. rewrite Hj, Hst.
    change (default ∅ (session_joined_at (accrue_effect g u now' (accrue_effect g u now w)) !! g))
      with (ledger g (accrue_effect g u now' (accrue_effect g u now w))).
    rewrite accrue_effect_ledger, od_lookup_delete_eq. split; [done|].
    rewrite !accrue_effect_total, accrue_effect_credit.
    rewrite !decide_True by done. lia.
Qed.

(** X10.  Starting a break ([set_focus_mode] with [enabled] false), for a
    guild with a session whose voice channel exists, in a run without
    interference: the routine returns, the focus flag is off, every user with
    a join instant has been credited the whole seconds since it, the ledger of
    the guild is empty, and exactly the present non-bot members that are in
    the enforced set and muted are asked to be unmuted, refusals
    notwithstanding.  The enforced set itself is left as it was. *)
Theorem set_focus_mode_break_settles g session channel_id w :
  active_sessions w !! g = Some session →
  get_voice_channel (guild_of w g) (voice_channel_id session) = Some channel_id →
  wp lenient no_guarantee (set_focus_mode g false w) (λ r w' tr,
    r = Ret tt
    ∧ focus_mode_active w' !! g = Some false
    ∧ (∀ u, ledger g w' !! u = None)
    ∧ (∀ u, get_user_seconds g u (store w')
            = get_user_seconds g u (store w) + credit g u (utcnow w) w)
    ∧ enforced_user_ids w' = enforced_user_ids w
    ∧ unmute_attempts tr
      = member_id <$> filter (λ m, to_be_unmuted (guild_of w g) (enforced g w) m = true)
                        (channel_members (guild_of w g) channel_id)
    ∧ mute_attempts tr = [] ∧ announcements tr = []).
Proof.
  intros Hs Hc. eapply wp_mono; [|by eapply set_focus_mode_break_lenient].
  intros r w' tr ([] & -> & Hl & Hu & Ha & Hm & _).
  set (w0 := set_focus_mode_active <[g := false]> w) in *.
  apply later_fields in Hl as (Hst & _ & _ & He & Hj & Hf & _).
  destruct (settle_frame g (utcnow w) (ledger_keys g w) w0)
    as (_ & _ & He' & Hf' & _).
  destruct (settle_all g (utcnow w) w0) as (Hledger & Htotal & _).
  split; [done|]. split; [by rewrite Hf, Hf'; apply lookup_insert_eq|].
  split; [|split; [|split; [by rewrite He, He'|done]]].
  - intros u. unfold ledger. rewrite Hj. apply Hledger.
  - intros u. rewrite Hst. apply Htotal.
Qed.

Lemma set_focus_mode_break_settles_witness :
  wp lenient no_guarantee (set_focus_mode 7 false later_world) (λ r w' tr,
    r = Ret tt ∧ ledger 7 w' !! 1 = None ∧ get_user_seconds 7 1 (store w') = 120).
Proof.
  eapply wp_mono;
    [|apply (set_focus_mode_break_settles 7 sample_session 10 later_world); reflexivity].
  intros r w' tr (-> & _ & Hl & Ht & _). split; [done|]. split; [apply Hl|].
  rewrite Ht. reflexivity.
Defined.

Lemma set_focus_mode_focus_lenient g session channel_id w :
  active_sessions w !! g = Some session →
  get_voice_channel (guild_of w g) (voice_channel_id session) = Some channel_id →
  wp lenient no_guarantee (set_focus_mode g true w) (λ r w' tr,
    ∃ a, r = Ret a
    ∧ grown g (list_to_set (mute_attempts tr))
        (set_session_joined_at
           <[g := seed_ledger (channel_members (guild_of w g) channel_id) (utcnow w)]>
           (set_focus_mode_active <[g := true]> w)) w'
    ∧ mute_attempts tr
      = member_id <$> filter (λ m, to_be_muted (guild_of w g) m = true)
                        (channel_members (guild_of w g) channel_id)
    ∧ announcements tr = [] ∧ unmute_attempts tr = [] ∧ closed_records tr = []).
Proof.
  intros Hs Hc. unfold set_focus_mode, bind, get, modify.
  cbn [coro_bind]. rewrite Hs, Hc. cbn [coro_bind].
  eapply wp_mono;
    [|apply (mute_loop_lenient g (channel_members (guild_of w g) channel_id)
               (set_session_joined_at
                  <[g := seed_ledger (channel_members (guild_of w g) channel_id) (utcnow w)]>
                  (set_focus_mode_active <[g := true]> w)))].
  intros r w' tr H. exact H.
Qed.

Lemma grown_fields g ids w w' :
  grown g ids w w' →
  store w' = store w ∧ active_sessions w' = active_sessions w
  ∧ active_session_record_id w' = active_session_record_id w
  ∧ session_joined_at w' = session_joined_at w
  ∧ focus_mode_active w' = focus_mode_active w
  ∧ pomodoro_states w' = pomodoro_states w
  ∧ enforce_mute_task w' = enforce_mute_task w
  ∧ tasks w' = tasks w ∧ cancel_requested w' = cancel_requested w
  ∧ next_id w' = next_id w ∧ guilds w' = guilds w ∧ clock w ≤ clock w'
  ∧ enforced g w ⊆ enforced g w' ∧ enforced g w' ⊆ enforced g w ∪ ids
  ∧ ∀ g', g' ≠ g → enforced_user_ids w' !! g' = enforced_user_ids w !! g'.
Proof. intros (t & e & Ht & -> & Ho & Hlo & Hhi). by repeat split. Qed.

(** X11.  Starting a focus phase ([set_focus_mode] with [enabled] true), same
    setting: the routine returns, the focus flag is on, the ledger of the
    guild is replaced by one holding exactly the non-bot members present, all
    joined now (join instants not yet accrued are dropped uncredited: the store
    is unchanged), and every present member that is neither a bot nor muted is
    asked to be muted, also after a refusal.  The enforced set only grows, and
    only by members that were asked. *)
Theorem set_focus_mode_focus_reseeds g session channel_id w :
  active_sessions w !! g = Some session →
  get_voice_channel (guild_of w g) (voice_channel_id session) = Some channel_id →
  wp lenient no_guarantee (set_focus_mode g true w) (λ r w' tr,
    r = Ret tt
    ∧ focus_mode_active w' !! g = Some true
    ∧ (∀ u, ledger g w' !! u
            = if bool_decide (u ∈ humans (channel_members (guild_of w g) channel_id))
              then Some (utcnow w) else None)
    ∧ store w' = store w
    ∧ mute_attempts tr
      = member_id <$> filter (λ m, to_be_muted (guild_of w g) m = true)
                        (channel_members (guild_of w g) channel_id)
    ∧ enforced g w ⊆ enforced g w'
    ∧ enforced g w' ⊆ enforced g w ∪ list_to_set (mute_attempts tr)
    ∧ unmute_attempts tr = [] ∧ announcements tr = []).
Proof.
  intros Hs Hc. eapply wp_mono; [|by eapply set_focus_mode_focus_lenient].
  intros r w' tr ([] & -> & Hg & Hm & Ha & Hu & _).
  apply grown_fields in Hg
    as (Hst & _ & _ & Hj & Hf & _ & _ & _ & _ & _ & _ & _ & Hlo & Hhi & _).
  split; [done|]. split; [by rewrite Hf; apply lookup_insert_eq|].
  split; [|done].
  intros u. unfold ledger. rewrite Hj. cbn [session_joined_at set_session_joined_at].
  rewrite lookup_insert_eq. apply seed_ledger_lookup.
Qed.

Lemma set_focus_mode_focus_reseeds_witness :
  wp lenient no_guarantee (set_focus_mode 7 true later_world) (λ r w' tr,
    r = Ret tt ∧ mute_attempts tr = [1; 2]
    ∧ ledger 7 w' !! 1 = Some (utcnow later_world) ∧ ledger 7 w' !! 3 = None).
Proof.
  eapply wp_mono;
    [|apply (set_focus_mode_focus_reseeds 7 sample_session 10 later_world); reflexivity].
  intros r w' tr (-> & _ & Hl & _ & Hm & _). split; [done|]. split; [by rewrite Hm|].
  rewrite !Hl. done.
Defined.

(** X12.  Without a session, or with a session whose voice channel is gone,
    [set_focus_mode] does nothing at all: it does not suspend and leaves the
    state, the focus flag included, as it found it. *)
Theorem set_focus_mode_without_channel g enabled w :
  (∀ session, active_sessions w !! g = Some session →
     get_voice_channel (guild_of w g) (voice_channel_id session) = None) →
  set_focus_mode g enabled w = Finished (Ret tt) w.
Proof.
  intros H. unfold set_focus_mode, bind, get; simpl.
  destruct (active_sessions w !! g) as [session|]; [|done].
  by rewrite (H session eq_refl).
Qed.

Lemma set_focus_mode_without_channel_witness :
  set_focus_mode 7 true channel_gone_world = Finished (Ret tt) channel_gone_world
  ∧ set_focus_mode 7 false idle_world = Finished (Ret tt) idle_world.
Proof.
  split; apply set_focus_mode_without_channel.
  - intros session [= <-]. reflexivity.
  - intros session [=].
Defined.

Lemma settle_fields g now us w :
  active_sessions (settle g now us w) = active_sessions w
  ∧ active_session_record_id (settle g now us w) = active_session_record_id w
  ∧ enforced_user_ids (settle g now us w) = enforced_user_ids w
  ∧ enforce_mute_task (settle g now us w) = enforce_mute_task w
  ∧ guilds (settle g now us w) = guilds w
  ∧ clock (settle g now us w) = clock w.
Proof.
  destruct (settle_frame g now us w)
    as (H1 & H2 & H3 & _ & _ & H4 & _ & _ & _ & H5 & H6 & _).
  by repeat split.
Qed.

Lemma stop_session_lenient g reason session w :
  active_sessions w !! g = Some session →
  wp lenient no_guarantee (stop_session g reason w) (λ r w' tr,
    r = Ret (Some (session_duration w session))
    ∧ later (stop_effect g session w) w'
    ∧ unmute_attempts tr
      = unmute_targets g (get_voice_channel (guild_of w g) (voice_channel_id session)) w
    ∧ announcements tr = [] ∧ mute_attempts tr = []
    ∧ closed_records tr = option_list (active_session_record_id w !! g)).
Proof.
  intros Hs. unfold stop_session, bind, get, modify. cbn [coro_bind]. rewrite Hs.
  cbn [coro_bind].
  set (w0 := set_active_sessions (delete g) w).
  destruct (settle_fields g (utcnow w) (ledger_keys g w) w0)
    as (_ & Hrec & Henf & Htask & Hgd & Hclock).
  eapply (wp_bind_ret _ _ _ _ (λ _ w' tr,
    later (settle g (utcnow w) (ledger_keys g w) w0) w' ∧ silent tr)).
  { eapply wp_mono; [|apply accrual_loop_lenient].
    intros r w' tr (a & -> & H). by exists a. }
  intros [] w1 tr [Hl (Ha & Hm & Hu & Hc)].
  eapply (wp_bind_ret _ _ _ _ (λ _ w' tr',
    later (settle g (utcnow w) (ledger_keys g w) w0) w'
    ∧ unmute_attempts tr'
      = unmute_targets g (get_voice_channel (guild_of w g) (voice_channel_id session)) w
    ∧ announcements tr' = [] ∧ mute_attempts tr' = [] ∧ closed_records tr' = [])).
  { assert (guild_of w1 g = guild_of w g ∧ enforced g w1 = enforced g w) as [Hg1 He1].
    { destruct Hl as (t & Ht & ->). unfold guild_of, enforced.
      cbn [guilds enforced_user_ids at_time]. by rewrite Hgd, Henf. }
    rewrite Hg1.
    destruct (get_voice_channel (guild_of w g) (voice_channel_id session)) as [channel_id|].
    - eapply wp_mono;
        [|apply (unmute_loop_lenient g reason (channel_members (guild_of w g) channel_id) w1)].
      intros r w' tr' (a & -> & Hl' & Hu' & Ha' & Hm' & Hc'). exists a.
      split; [done|]. split; [by eapply later_trans|].
      unfold unmute_targets. by rewrite Hu', Hg1, He1.
    - exists tt. done. }
  intros [] w2 tr' (Hl2 & Hu' & Ha' & Hm' & Hc').
  destruct Hl2 as (t & Ht & ->). cbn [enforce_mute_task active_session_record_id
    set_focus_mode_active set_session_joined_at set_enforced_user_ids at_time].
  rewrite Htask, Hrec.
  change (enforce_mute_task w0) with (enforce_mute_task w).
  change (active_session_record_id w0) with (active_session_record_id w).
  assert (∀ tr'', closed_records tr''
            = option_list (active_session_record_id w !! g) →
          announcements tr'' = [] → mute_attempts tr'' = [] → unmute_attempts tr'' = [] →
          unmute_attempts (tr ++ tr' ++ tr'')
          = unmute_targets g (get_voice_channel (guild_of w g) (voice_channel_id session)) w
          ∧ announcements (tr ++ tr' ++ tr'') = [] ∧ mute_attempts (tr ++ tr' ++ tr'') = []
          ∧ closed_records (tr ++ tr' ++ tr'')
            = option_list (active_session_record_id w !! g)) as Htrace.
  { intros tr'' Hc'' Ha'' Hm'' Hu''.
    unfold unmute_attempts, announcements, mute_attempts, closed_records in *.
    rewrite !omap_app, Hu, Ha, Hm, Hc, Hu', Ha', Hm', Hc', Hu'', Ha'', Hm'', Hc''.
    by rewrite app_nil_r. }
  unfold stop_effect. fold w0.
  destruct (enforce_mute_task w !! session_obj session) as [task|];
    destruct (active_session_record_id w !! g) as [session_id|]; cbn [coro_bind ret].
  - split; [done|]. intros [v|e] w' [(t' & Ht' & ->) Hsv]; [|by destruct e].
    cbn [coro_bind ret]. split; [done|]. split.
    + exists t'. split; [cbn in Ht' |- *; lia|reflexivity].
    + by apply Htrace.
  - split; [done|]. split.
    + exists t. split; [exact Ht|reflexivity].
    + by apply Htrace.
  - split; [done|]. intros [v|e] w' [(t' & Ht' & ->) Hsv]; [|by destruct e].
    cbn [coro_bind ret]. split; [done|]. split.
    + exists t'. split; [cbn in Ht' |- *; lia|reflexivity].
    + by apply Htrace.
  - split; [done|]. split.
    + exists t. split; [exact Ht|reflexivity].
    + by apply Htrace.
Qed.

Lemma accrue_effect_other g g' u now w :
  g' ≠ g →
  session_joined_at (accrue_effect g u now w) !! g' = session_joined_at w !! g'
  ∧ ∀ u', study_time (store (accrue_effect g u now w)) !! (g', u')
          = study_time (store w) !! (g', u').
Proof.
  intros Hne. unfold accrue_effect.
  destruct (ledger g w !! u) as [joined_at|]; [destruct (_ <=? 0)|]; simpl;
    (split; [by apply lookup_alter_ne|]); try done.
  intros u'. apply upsert_add_lookup_ne. congruence.
Qed.

Lemma settle_other g g' now us w :
  g' ≠ g →
  session_joined_at (settle g now us w) !! g' = session_joined_at w !! g'
  ∧ ∀ u', study_time (store (settle g now us w)) !! (g', u')
          = study_time (store w) !! (g', u').
Proof.
  intros Hne. unfold settle. revert w. induction us as [|u us IH]; intros w; [done|].
  cbn [foldl]. destruct (IH (accrue_effect g u now w)) as [-> Hst].
  destruct (accrue_effect_other g g' u now w Hne) as [-> Hst'].
  split; [done|]. intros u'. by rewrite Hst, Hst'.
Qed.

Lemma stop_effect_fields g session w :
  active_sessions (stop_effect g session w) !! g = None
  ∧ active_session_record_id (stop_effect g session w) !! g = None
  ∧ enforced_user_ids (stop_effect g session w) !! g = None
  ∧ session_joined_at (stop_effect g session w) !! g = None
  ∧ focus_mode_active (stop_effect g session w) !! g = None
  ∧ (∀ u, get_user_seconds g u (store (stop_effect g session w))
          = get_user_seconds g u (store w) + credit g u (utcnow w) w)
  ∧ (∀ t, enforce_mute_task w !! session_obj session = Some t →
          t ∈ cancel_requested (stop_effect g session w))
  ∧ (∀ session_id, active_session_record_id w !! g = Some session_id →
       session_history (store (stop_effect g session w)) !! session_id
       = close_row (utcnow w) (session_duration w session)
           <$> session_history (store w) !! session_id).
Proof.
  set (w0 := set_active_sessions (delete g) w).
  destruct (settle_frame g (utcnow w) (ledger_keys g w) w0)
    as (Hact' & _ & _ & _ & _ & _ & _ & Hcan' & _ & _ & _ & Hhist & _).
  destruct (settle_all g (utcnow w) w0) as (_ & Htotal & _).
  assert (active_sessions (stop_effect g session w) !! g = None
          ∧ active_session_record_id (stop_effect g session w) !! g = None
          ∧ enforced_user_ids (stop_effect g session w) !! g = None
          ∧ session_joined_at (stop_effect g session w) !! g = None
          ∧ focus_mode_active (stop_effect g session w) !! g = None) as (? & ? & ? & ? & ?).
  { unfold stop_effect. fold w0.
    destruct (enforce_mute_task w !! session_obj session);
      destruct (active_session_record_id w !! g); cbn;
      rewrite ?Hact'; cbn; by rewrite !lookup_delete_eq. }
  do 5 (split; [done|]).
  split; [|split].
  - intros u. unfold stop_effect. fold w0.
    destruct (enforce_mute_task w !! session_obj session);
      destruct (active_session_record_id w !! g); cbn; apply Htotal.
  - intros t Ht. unfold stop_effect. fold w0. rewrite Ht.
    destruct (active_session_record_id w !! g); cbn; apply elem_of_union_l;
      by apply elem_of_singleton.
  - intros session_id Hid. unfold stop_effect. fold w0. rewrite Hid.
    destruct (enforce_mute_task w !! session_obj session); cbn;
      rewrite Hhist; apply lookup_alter_eq.
Qed.

(** X13.  Stopping the session of a guild in a run without interference:
    [stop_session] returns the whole seconds since the session started; the
    guild has no entry left in the registry, the record ids, the enforced sets,
    the ledgers and the focus flags; every user with a join instant has been
    credited; the cancellation of the enforcement task has been requested; the
    store has been asked to close the session's record and no other, and the
    session's history row carries the end instant and the duration; and nobody
    is muted and nothing announced. *)
Theorem stop_session_settles g reason session w :
  active_sessions w !! g = Some session →
  wp lenient no_guarantee (stop_session g reason w) (λ r w' tr,
    r = Ret (Some (session_duration w session))
    ∧ active_sessions w' !! g = None
    ∧ active_session_record_id w' !! g = None
    ∧ enforced_user_ids w' !! g = None
    ∧ session_joined_at w' !! g = None
    ∧ focus_mode_active w' !! g = None
    ∧ (∀ u, get_user_seconds g u (store w')
            = get_user_seconds g u (store w) + credit g u (utcnow w) w)
    ∧ (∀ t, enforce_mute_task w !! session_obj session = Some t → t ∈ cancel_requested w')
    ∧ (∀ session_id, active_session_record_id w !! g = Some session_id →
         session_history (store w') !! session_id
         = close_row (utcnow w) (session_duration w session)
             <$> session_history (store w) !! session_id)
    ∧ closed_records tr = option_list (active_session_record_id w !! g)
    ∧ unmute_attempts tr
      = unmute_targets g (get_voice_channel (guild_of w g) (voice_channel_id session)) w
    ∧ mute_attempts tr = [] ∧ announcements tr = []).
Proof.
  intros Hs. eapply wp_mono; [|by eapply stop_session_lenient].
  intros r w' tr (-> & Hl & Hu & Ha & Hm & Hc).
  apply later_fields in Hl
    as (Hst & Hact & Hrec & Henf & Hj & Hf & _ & _ & _ & Hcan & _).
  rewrite Hst, Hact, Hrec, Henf, Hj, Hf, Hcan.
  split; [done|]. pose proof (stop_effect_fields g session w) as H.
  repeat (split; [apply H|]). done.
Qed.

Lemma stop_session_settles_witness :
  wp lenient no_guarantee (stop_session 7 "Study session ended" later_world) (λ r w' tr,
    r = Ret (Some 120) ∧ get_user_seconds 7 1 (store w') = 120 ∧ closed_records tr = [1]).
Proof.
  eapply wp_mono;
    [|apply (stop_session_settles 7 "Study session ended" sample_session later_world);
      reflexivity].
  intros r w' tr (-> & _ & _ & _ & _ & _ & Ht & _ & _ & Hc & _).
  split; [reflexivity|]. split; [rewrite Ht; reflexivity|]. rewrite Hc. reflexivity.
Defined.

(** X14.  Stopping the session of one guild leaves the other guilds' entries
    and totals alone, and neither removes a Pomodoro state nor creates a
    task. *)
Theorem stop_session_other_guilds g g' reason session w :
  active_sessions w !! g = Some session →
  g' ≠ g →
  wp lenient no_guarantee (stop_session g reason w) (λ r w' tr,
    active_sessions w' !! g' = active_sessions w !! g'
    ∧ active_session_record_id w' !! g' = active_session_record_id w !! g'
    ∧ enforced_user_ids w' !! g' = enforced_user_ids w !! g'
    ∧ session_joined_at w' !! g' = session_joined_at w !! g'
    ∧ focus_mode_active w' !! g' = focus_mode_active w !! g'
    ∧ (∀ u, get_user_seconds g' u (store w') = get_user_seconds g' u (store w))
    ∧ pomodoro_states w' = pomodoro_states w
    ∧ tasks w' = tasks w).
Proof.
  intros Hs Hne. eapply wp_mono; [|by eapply stop_session_lenient].
  intros r w' tr (-> & Hl & _).
  apply later_fields in Hl
    as (Hst & Hact & Hrec & Henf & Hj & Hf & Hpom & _ & Htasks & _).
  set (w0 := set_active_sessions (delete g) w).
  destruct (settle_frame g (utcnow w) (ledger_keys g w) w0)
    as (Hact' & Hrec' & Henf' & Hf' & Hpom' & _ & Htasks' & _).
  destruct (settle_other g g' (utcnow w) (ledger_keys g w) w0 Hne) as [Hj' Hst'].
  rewrite Hst, Hact, Hrec, Henf, Hj, Hf, Hpom, Htasks. unfold stop_effect. fold w0.
  destruct (enforce_mute_task w !! session_obj session);
    destruct (active_session_record_id w !! g); cbn;
    rewrite ?Hact', ?Hrec', ?Henf', ?Hf', ?Hpom', ?Htasks'; cbn;
    rewrite !lookup_delete_ne by done; rewrite Hj';
    (repeat split; try done); intros u; unfold get_user_seconds; cbn; by rewrite Hst'.
Qed.

Lemma start_session_lenient g w :
  active_sessions w !! g = None →
  wp lenient no_guarantee (start_session g w) (λ r w' tr,
    ∃ channel_id t,
      clock w ≤ t
      ∧ r = Ret (true, Some channel_id)
      ∧ later (start_effect g channel_id t w) w'
      ∧ tr = [OpEnsureStudyChannel g;
              OpDb (QCreateSessionRecord g channel_id (mk_datetime t 0))]).
Proof.
  intros Hs. unfold start_session, bind, get, modify. cbn [coro_bind]. rewrite Hs.
  cbn [coro_bind ensure_study_channel platform_call].
  split; [done|]. intros [channel_id|e] w1 [(t & Ht & ->) Hsv]; [|by destruct e].
  cbn [coro_bind create_session_record db_call create_task ret].
  split; [done|]. intros [v|e] w2 [(t' & Ht' & ->) Hsv']; [|by destruct e].
  cbn [coro_bind ret]. exists channel_id, t.
  split; [done|]. split; [done|]. split; [|done].
  exists t'. split; [exact Ht'|reflexivity].
Qed.

Lemma stop_session_other_guilds_witness :
  wp lenient no_guarantee (stop_session 7 "Study session ended" later_world) (λ r w' tr,
    focus_mode_active w' !! 8 = None ∧ tasks w' = tasks later_world).
Proof.
  eapply wp_mono;
    [|apply (stop_session_other_guilds 7 8 "Study session ended" sample_session later_world);
      [reflexivity|lia]].
  intros r w' tr (_ & _ & _ & _ & Hf & _ & _ & Ht). by rewrite Hf, Ht.
Defined.

Lemma session_duration_nonneg w session :
  dt_instant (started_at session) ≤ clock w → 0 ≤ session_duration w session.
Proof.
  intros H. unfold session_duration, int_total_seconds, datetime_sub, utcnow, us_per_second.
  cbn. apply Z.quot_pos; lia.
Qed.

(** X15.  A session from start to stop.  Started in a guild without a session,
    [start_session] registers a session in the channel it reports; and when
    that session is stopped any time later, nothing else having happened, the
    duration returned is not negative, each non-bot member who was in the
    channel at the start has been credited exactly that duration and nobody
    else anything, and the history row the start created carries the start,
    the end and the duration. *)
Theorem session_credits_its_duration g reason w :
  active_sessions w !! g = None →
  wp lenient no_guarantee (start_session g w) (λ r w1 tr,
    ∃ channel_id session,
      r = Ret (true, Some channel_id)
      ∧ active_sessions w1 !! g = Some session
      ∧ voice_channel_id session = channel_id
      ∧ ∀ w2, later w1 w2 →
          wp lenient no_guarantee (stop_session g reason w2) (λ r' w3 tr',
            r' = Ret (Some (session_duration w2 session))
            ∧ 0 ≤ session_duration w2 session
            ∧ (∀ u, get_user_seconds g u (store w3)
                    = get_user_seconds g u (store w)
                      + if bool_decide
                             (u ∈ humans (channel_members (guild_of w g) channel_id))
                        then session_duration w2 session else 0)
            ∧ session_history (store w3) !! (session_seq (store w) + 1)
              = Some (mk_session_row g channel_id (started_at session)
                        (Some (utcnow w2)) (Some (session_duration w2 session)))
            ∧ active_sessions w3 !! g = None)).
Proof.
  intros Hs. eapply wp_mono; [|by apply start_session_lenient].
  intros r w1 tr (channel_id & t & Ht & -> & Hl & _).
  set (session := mk_session g channel_id (mk_datetime t 0) (next_id w)).
  exists channel_id, session. split; [done|].
  assert (active_sessions w1 !! g = Some session) as Hact.
  { destruct Hl as (t' & _ & ->). cbn. apply lookup_insert_eq. }
  split; [done|]. split; [done|].
  intros w2 Hl2. pose proof (later_trans _ _ _ Hl Hl2) as (t2 & Ht2 & ->).
  cbn in Ht2.
  set (w2 := at_time t2 (start_effect g channel_id t w)).
  assert (active_sessions w2 !! g = Some session) as Hact2 by apply lookup_insert_eq.
  eapply wp_mono; [|by apply (stop_session_lenient g reason session w2)].
  intros r' w3 tr' (-> & Hl3 & _).
  apply later_fields in Hl3 as (Hst & Hact3 & _).
  rewrite Hst, Hact3.
  destruct (stop_effect_fields g session w2)
    as (Hnone & _ & _ & _ & _ & Htotal & _ & Hhist).
  assert (0 ≤ session_duration w2 session) as Hd by (by apply session_duration_nonneg).
  split; [done|]. split; [done|]. split; [|split; [|done]].
  - intros u. rewrite Htotal.
    replace (get_user_seconds g u (store w2)) with (get_user_seconds g u (store w)) by done.
    f_equal. unfold credit.
    replace (ledger g w2)
      with (seed_ledger (channel_members (guild_of w g) channel_id) (mk_datetime t 0)).
    2:{ unfold ledger. cbn. by rewrite lookup_insert_eq. }
    rewrite seed_ledger_lookup. case_bool_decide; [|done].
    change (int_total_seconds (datetime_sub (utcnow w2) (mk_datetime t 0)))
      with (session_duration w2 session). lia.
  - rewrite (Hhist (session_seq (store w) + 1)).
    + cbn. by rewrite lookup_insert_eq.
    + cbn. by rewrite lookup_insert_eq.
Qed.

Lemma session_credits_its_duration_witness :
  wp lenient no_guarantee (start_session 7 idle_world) (λ r w1 tr,
    ∃ channel_id, r = Ret (true, Some channel_id)).
Proof.
  eapply wp_mono;
    [|apply (session_credits_its_duration 7 "Study session ended" idle_world); reflexivity].
  intros r w1 tr (channel_id & _ & -> & _). by exists channel_id.
Defined.

(** *** Voice state updates *)

Lemma accrue_effect_frame g u now w :
  enforced_user_ids (accrue_effect g u now w) = enforced_user_ids w
  ∧ focus_mode_active (accrue_effect g u now w) = focus_mode_active w
  ∧ active_sessions (accrue_effect g u now w) = active_sessions w
  ∧ guilds (accrue_effect g u now w) = guilds w.
Proof.
  unfold accrue_effect. destruct (ledger g w !! u) as [joined_at|]; [|done].
  by destruct (_ <=? 0).
Qed.

Lemma voice_update_leave_lenient g member before after session w :
  active_sessions w !! g = Some session →
  member_bot member = false →
  in_channel before (voice_channel_id session) = true →
  in_channel after (voice_channel_id session) = false →
  wp lenient no_guarantee (on_voice_state_update g member before after w) (λ r w' tr,
    r = Ret tt
    ∧ later (accrue_effect g (member_id member) (utcnow w) w) w'
    ∧ unmute_attempts tr
      = (if bool_decide (member_id member ∈ enforced g w) && voice_muted before
         then [member_id member] else [])
    ∧ mute_attempts tr = [] ∧ announcements tr = [] ∧ closed_records tr = []).
Proof.
  intros Hs Hbot Hb Ha. unfold on_voice_state_update.
  unfold bind at 1. unfold get at 1. cbn [coro_bind]. rewrite Hs, Hbot, Hb, Ha.
  cbn [andb negb]. unfold bind at 1.
  eapply (wp_bind_ret _ _ _ _ (λ _ w' tr,
    later (accrue_effect g (member_id member) (utcnow w) w) w'
    ∧ unmute_attempts tr
      = (if bool_decide (member_id member ∈ enforced g w) && voice_muted before
         then [member_id member] else [])
    ∧ mute_attempts tr = [] ∧ announcements tr = [] ∧ closed_records tr = [])).
  2:{ intros [] w' tr H. cbn. by rewrite app_nil_r. }
  eapply (wp_bind_ret _ _ _ _ (λ _ w' tr,
    later (accrue_effect g (member_id member) (utcnow w) w) w' ∧ silent tr)).
  { eapply wp_mono; [|apply accrue_user_time_lenient].
    intros r w' tr (a & -> & H). by exists a. }
  intros [] w1 tr [Hl (Han & Hm & Hu & Hc)].
  assert (enforced g w1 = enforced g w) as He.
  { destruct Hl as (t & _ & ->). unfold enforced. cbn [enforced_user_ids at_time].
    by destruct (accrue_effect_frame g (member_id member) (utcnow w) w) as [-> _]. }
  unfold bind, get; cbn [coro_bind]. rewrite He.
  unfold unmute_attempts, announcements, mute_attempts, closed_records in *.
  destruct (bool_decide _ && voice_muted before); cbn.
  - split; [done|]. intros [v|e] w' [Hl' Hs']; cbn.
    + exists tt. rewrite !omap_app, Hu, Han, Hm, Hc. split; [done|].
      split; [by eapply later_trans|done].
    + destruct e; cbn in Hs'; try done.
      exists tt. rewrite !omap_app, Hu, Han, Hm, Hc. split; [done|].
      split; [by eapply later_trans|done].
  - exists tt. rewrite !app_nil_r. done.
Qed.

Lemma voice_update_join_lenient g member before after session w :
  active_sessions w !! g = Some session →
  member_bot member = false →
  in_channel before (voice_channel_id session) = false →
  in_channel after (voice_channel_id session) = true →
  default true (focus_mode_active w !! g) = true →
  wp lenient no_guarantee (on_voice_state_update g member before after w) (λ r w' tr,
    r = Ret tt
    ∧ grown g (list_to_set (mute_attempts tr))
        (set_session_joined_at
           (λ m, <[g := <[member_id member := utcnow w]> (default ∅ (m !! g))]> m) w) w'
    ∧ mute_attempts tr = (if voice_muted after then [] else [member_id member])
    ∧ unmute_attempts tr = [] ∧ announcements tr = [] ∧ closed_records tr = []).
Proof.
  intros Hs Hbot Hb Ha Hf. unfold on_voice_state_update.
  unfold bind at 1. unfold get at 1. cbn [coro_bind]. rewrite Hs, Hbot, Hb, Ha.
  cbn [andb negb]. unfold bind, get, ret, ledger_set, modify; cbn [coro_bind].
  rewrite Hf. cbn [coro_bind].
  destruct (voice_muted after); cbn.
  { split; [done|]. split; [apply grown_refl|done]. }
  split; [done|]. intros [v|e] w' [(t & Ht & ->) Hs']; cbn.
  - split; [done|]. split; [|done].
    exists t, (<[g := {[member_id member]} ∪ default ∅ (enforced_user_ids w !! g)]>
                 (enforced_user_ids w)).
    split; [exact Ht|]. split; [reflexivity|].
    split; [intros g' Hg'; by apply lookup_insert_ne|].
    change (enforced_user_ids (set_session_joined_at _ w)) with (enforced_user_ids w).
    rewrite lookup_insert_eq; simpl. split.
    + apply union_subseteq_r.
    + intros x. rewrite !elem_of_union, elem_of_singleton, elem_of_empty. tauto.
  - destruct e; cbn in Hs'; try done. split; [done|]. split; [|done].
    exists t, (enforced_user_ids w). split; [exact Ht|]. split; [reflexivity|].
    split; [done|]. split; [done|apply union_subseteq_l].
Qed.

(** X16.  Voice state updates that [on_voice_state_update] ignores: any update
    in a guild without a session, any update of a bot, any update that does not
    cross the border of the study channel (a move between other channels, or a
    change of the mute flag inside the study channel), and a member joining the
    study channel during a break.  The handler then does not suspend and
    leaves the state as it found it; a member who joins during a break gets no
    join instant and is not muted. *)
Theorem voice_update_ignored g member before after w :
  (∀ session, active_sessions w !! g = Some session →
     member_bot member = true
     ∨ in_channel before (voice_channel_id session)
       = in_channel after (voice_channel_id session)
     ∨ (in_channel before (voice_channel_id session) = false
        ∧ focus_mode_active w !! g = Some false)) →
  on_voice_state_update g member before after w = Finished (Ret tt) w.
Proof.
  intros H. unfold on_voice_state_update, bind, get; cbn [coro_bind].
  destruct (active_sessions w !! g) as [session|]; [|done].
  destruct (H session eq_refl) as [->|[Heq|[Hb Hf]]]; [done| |].
  - destruct (member_bot member); [done|]. rewrite Heq.
    by destruct (in_channel after (voice_channel_id session)).
  - destruct (member_bot member); [done|]. rewrite Hb. cbn.
    destruct (in_channel after (voice_channel_id session)); [|done]. cbn.
    by rewrite Hf.
Qed.

Lemma voice_update_ignored_witness :
  on_voice_state_update 7 (mk_member 1 false) (Some (mk_voice 10 false))
    (Some (mk_voice 10 true)) studying_world
  = Finished (Ret tt) studying_world.
Proof.
  apply voice_update_ignored. intros session [= <-]. right. left. reflexivity.
Defined.

(** X17.  A non-bot member leaving the study channel of an active session, in
    a run without interference: the member is credited the whole seconds since
    the join instant (nothing when there was none), has no join instant
    afterwards, the other members' join instants are untouched, and the member
    is asked to be unmuted exactly when they are in the enforced set and were
    muted, the request possibly being refused.  The member stays in the
    enforced set. *)
Theorem voice_update_leave_credits g member before after session w :
  active_sessions w !! g = Some session →
  member_bot member = false →
  in_channel before (voice_channel_id session) = true →
  in_channel after (voice_channel_id session) = false →
  wp lenient no_guarantee (on_voice_state_update g member before after w) (λ r w' tr,
    r = Ret tt
    ∧ get_user_seconds g (member_id member) (store w')
      = get_user_seconds g (member_id member) (store w)
        + credit g (member_id member) (utcnow w) w
    ∧ ledger g w' !! member_id member = None
    ∧ (∀ u, u ≠ member_id member → ledger g w' !! u = ledger g w !! u)
    ∧ enforced_user_ids w' = enforced_user_ids w
    ∧ unmute_attempts tr
      = (if bool_decide (member_id member ∈ enforced g w) && voice_muted before
         then [member_id member] else [])
    ∧ mute_attempts tr = [] ∧ announcements tr = []).
Proof.
  intros Hs Hbot Hb Ha. eapply wp_mono; [|by eapply voice_update_leave_lenient].
  intros r w' tr (-> & Hl & Hu & Hm & Han & _).
  apply later_fields in Hl as (Hst & _ & _ & He & Hj & _).
  destruct (accrue_effect_frame g (member_id member) (utcnow w) w) as (He' & _).
  unfold ledger at 1 2. rewrite Hst, He, Hj, He'.
  change (default ∅ (session_joined_at (accrue_effect g (member_id member) (utcnow w) w) !! g))
    with (ledger g (accrue_effect g (member_id member) (utcnow w) w)).
  rewrite accrue_effect_ledger, accrue_effect_total, decide_True by done.
  split; [done|]. split; [done|]. split; [apply od_lookup_delete_eq|].
  split; [|done]. intros u Hne. by apply od_lookup_delete_ne.
Qed.

Lemma voice_update_leave_credits_witness :
  wp lenient no_guarantee
    (on_voice_state_update 7 (mk_member 1 false) (Some (mk_voice 10 true)) None later_world)
    (λ r w' tr, r = Ret tt ∧ get_user_seconds 7 1 (store w') = 120).
Proof.
  eapply wp_mono;
    [|apply (voice_update_leave_credits 7 (mk_member 1 false) (Some (mk_voice 10 true)) None
               sample_session later_world); reflexivity].
  intros r w' tr (-> & Ht & _). split; [done|]. cbn [member_id] in Ht. rewrite Ht. reflexivity.
Defined.

(** X18.  A non-bot member joining the study channel of an active session
    while focus is on (the flag set, or absent), in a run without
    interference: the join instant is now, the other members' join instants
    and the store are untouched, and the member is asked to be muted exactly
    when not muted already; the enforced set grows at most by that member. *)
Theorem voice_update_join_recorded g member before after session w :
  active_sessions w !! g = Some session →
  member_bot member = false →
  in_channel before (voice_channel_id session) = false →
  in_channel after (voice_channel_id session) = true →
  default true (focus_mode_active w !! g) = true →
  wp lenient no_guarantee (on_voice_state_update g member before after w) (λ r w' tr,
    r = Ret tt
    ∧ ledger g w' !! member_id member = Some (utcnow w)
    ∧ (∀ u, u ≠ member_id member → ledger g w' !! u = ledger g w !! u)
    ∧ store w' = store w
    ∧ mute_attempts tr = (if voice_muted after then [] else [member_id member])
    ∧ enforced g w ⊆ enforced g w'
    ∧ enforced g w' ⊆ enforced g w ∪ list_to_set (mute_attempts tr)
    ∧ unmute_attempts tr = [] ∧ announcements tr = []).
Proof.
  intros Hs Hbot Hb Ha Hf. eapply wp_mono; [|by eapply voice_update_join_lenient].
  intros r w' tr (-> & Hg & Hm & Hu & Han & _).
  apply grown_fields in Hg
    as (Hst & _ & _ & Hj & _ & _ & _ & _ & _ & _ & _ & _ & Hlo & Hhi & _).
  unfold ledger at 1 2. rewrite Hj. cbn [session_joined_at set_session_joined_at].
  rewrite lookup_insert_eq. cbn [default from_option id].
  split; [done|]. split; [apply od_lookup_insert_eq|].
  split; [intros u Hne; by apply od_lookup_insert_ne|]. done.
Qed.

Lemma voice_update_join_recorded_witness :
  wp lenient no_guarantee
    (on_voice_state_update 7 (mk_member 4 false) None (Some (mk_voice 10 false)) later_world)
    (λ r w' tr, r = Ret tt ∧ mute_attempts tr = [4]
                ∧ ledger 7 w' !! 4 = Some (utcnow later_world)).
Proof.
  eapply wp_mono;
    [|apply (voice_update_join_recorded 7 (mk_member 4 false) None (Some (mk_voice 10 false))
               sample_session later_world); reflexivity].
  intros r w' tr (-> & Hl & _ & _ & Hm & _). done.
Defined.

(** X19.  Join, then leave.  A non-bot member joins the study channel during
    focus and leaves it any time later, nothing else having happened in
    between: the member's total has grown by exactly the whole seconds between
    the two updates, and the join instant is gone. *)
Theorem join_then_leave_credits_the_stay g member before after before' after' session w :
  active_sessions w !! g = Some session →
  member_bot member = false →
  in_channel before (voice_channel_id session) = false →
  in_channel after (voice_channel_id session) = true →
  default true (focus_mode_active w !! g) = true →
  in_channel before' (voice_channel_id session) = true →
  in_channel after' (voice_channel_id session) = false →
  wp lenient no_guarantee (on_voice_state_update g member before after w) (λ r w1 tr,
    ∀ w2, later w1 w2 →
      wp lenient no_guarantee (on_voice_state_update g member before' after' w2)
        (λ r' w3 tr',
           r' = Ret tt
           ∧ 0 ≤ int_total_seconds (datetime_sub (utcnow w2) (utcnow w))
           ∧ get_user_seconds g (member_id member) (store w3)
             = get_user_seconds g (member_id member) (store w)
               + int_total_seconds (datetime_sub (utcnow w2) (utcnow w))
           ∧ ledger g w3 !! member_id member = None)).
Proof.
  intros Hs Hbot Hb Ha Hf Hb' Ha'.
  eapply wp_mono; [|by eapply voice_update_join_lenient].
  intros r w1 tr (-> & Hg & _) w2 Hl.
  apply grown_fields in Hg
    as (Hst & Hact & _ & Hj & _ & _ & _ & _ & _ & _ & _ & Hclock & _).
  apply later_fields in Hl
    as (Hst2 & Hact2 & _ & _ & Hj2 & _ & _ & _ & _ & _ & _ & _ & Hclock2).
  assert (active_sessions w2 !! g = Some session) as Hs2 by (by rewrite Hact2, Hact).
  assert (ledger g w2 !! member_id member = Some (utcnow w)) as Hentry.
  { unfold ledger. rewrite Hj2, Hj. cbn [session_joined_at set_session_joined_at].
    rewrite lookup_insert_eq. apply od_lookup_insert_eq. }
  assert (0 ≤ int_total_seconds (datetime_sub (utcnow w2) (utcnow w))) as Hnn.
  { unfold int_total_seconds, datetime_sub, utcnow, us_per_second. cbn in *.
    apply Z.quot_pos; lia. }
  eapply wp_mono; [|by eapply voice_update_leave_lenient].
  intros r' w3 tr' (-> & Hl3 & _).
  apply later_fields in Hl3 as (Hst3 & _ & _ & _ & Hj3 & _).
  unfold ledger. rewrite Hst3, Hj3.
  change (default ∅ (session_joined_at (accrue_effect g (member_id member) (utcnow w2) w2) !! g))
    with (ledger g (accrue_effect g (member_id member) (utcnow w2) w2)).
  rewrite accrue_effect_ledger, accrue_effect_total, decide_True by done.
  split; [done|]. split; [done|]. split; [|apply od_lookup_delete_eq].
  unfold credit. rewrite Hentry. unfold get_user_seconds. rewrite Hst2, Hst. cbn. lia.
Qed.

Lemma join_then_leave_credits_the_stay_witness :
  wp lenient no_guarantee
    (on_voice_state_update 7 (mk_member 4 false) None (Some (mk_voice 10 false))
       studying_world)
    (λ r w1 tr,
       ∀ w2, later w1 w2 →
         wp lenient no_guarantee
           (on_voice_state_update 7 (mk_member 4 false) (Some (mk_voice 10 true)) None w2)
           (λ r' w3 tr', r' = Ret tt ∧ ledger 7 w3 !! 4 = None)).
Proof.
  eapply wp_mono;
    [|apply (join_then_leave_credits_the_stay 7 (mk_member 4 false) None
               (Some (mk_voice 10 false)) (Some (mk_voice 10 true)) None
               sample_session studying_world); reflexivity].
  intros r w1 tr H w2 Hl. eapply wp_mono; [|by apply H].
  intros r' w3 tr' (-> & _ & _ & Hnone). done.
Defined.

(** *** The Pomodoro task *)

Lemma wp_finally {A} R G (c : coro A) (f : World → World) Q :
  wp R G c (λ r w tr, Q r (f w) tr) → wp R G (coro_finally c f) Q.
Proof.
  revert Q. induction c as [r w|o w k IH]; intros Q; simpl; [done|].
  intros [Hg Hk]. split; [done|]. intros r w' Hr. apply IH. by apply Hk.
Qed.

Lemma session_kept_refl w : session_kept w w.
Proof. unfold session_kept. repeat split; lia. Qed.

Lemma session_kept_trans w1 w2 w3 :
  session_kept w1 w2 → session_kept w2 w3 → session_kept w1 w3.
Proof.
  intros (Ha & Hr & Hg & Hc) (Ha' & Hr' & Hg' & Hc'). unfold session_kept.
  rewrite Ha', Hr', Hg'. repeat split; try done. lia.
Qed.

Lemma later_session_kept w w' : later w w' → session_kept w w'.
Proof. intros (t & Ht & ->). by repeat split. Qed.

Lemma set_focus_mode_returns g enabled w :
  wp lenient no_guarantee (set_focus_mode g enabled w) (λ r w' tr,
    r = Ret tt ∧ session_kept w w' ∧ announcements tr = [] ∧ closed_records tr = []).
Proof.
  destruct (active_sessions w !! g) as [session|] eqn:Hs.
  2:{ unfold set_focus_mode, bind, get; cbn [coro_bind]. rewrite Hs.
      split; [done|]. split; [apply session_kept_refl|done]. }
  destruct (get_voice_channel (guild_of w g) (voice_channel_id session))
    as [channel_id|] eqn:Hc.
  2:{ unfold set_focus_mode, bind, get; cbn [coro_bind]. rewrite Hs, Hc.
      split; [done|]. split; [apply session_kept_refl|done]. }
  destruct enabled.
  - eapply wp_mono; [|by eapply set_focus_mode_focus_lenient].
    intros r w' tr ([] & -> & Hg & _ & Ha & _ & Hcl).
    apply grown_fields in Hg
      as (_ & Hact & Hrec & _ & _ & _ & _ & _ & _ & _ & Hgd & Hclock & _).
    split; [done|]. split; [|done]. by repeat split.
  - eapply wp_mono; [|by eapply set_focus_mode_break_lenient].
    intros r w' tr ([] & -> & Hl & _ & Ha & _ & Hcl).
    apply later_fields in Hl
      as (_ & Hact & Hrec & _ & _ & _ & _ & _ & _ & _ & _ & Hgd & Hclock).
    destruct (settle_fields g (utcnow w) (ledger_keys g w)
                (set_focus_mode_active <[g := false]> w))
      as (Hact' & Hrec' & _ & _ & Hgd' & Hclock').
    split; [done|]. split; [|done].
    unfold session_kept. rewrite Hact, Hrec, Hgd, Hact', Hrec', Hgd'.
    rewrite Hclock' in Hclock. by repeat split.
Qed.

Lemma send_lenient g channel_id msg w :
  wp lenient no_guarantee (send g channel_id msg w) (λ r w' tr,
    later w w' ∧ tr = [OpSend g channel_id msg]
    ∧ (r = Ret tt ∨ ∃ e, r = Raise e ∧ is_Exception e = true)).
Proof.
  unfold send, bind, platform_call; cbn. split; [done|].
  intros [v|e] w' [Hl Hs]; cbn.
  - split; [done|]. split; [done|]. by left.
  - split; [done|]. split; [done|]. right. by exists e.
Qed.

Lemma sleep_lenient seconds w :
  wp lenient no_guarantee (sleep seconds w) (λ r w' tr,
    later w w' ∧ tr = [OpSleep seconds] ∧ (r = Ret tt ∨ r = Raise CancelledError)).
Proof.
  unfold sleep; cbn. split; [done|].
  intros [v|e] w' [Hl Hs]; cbn; (split; [done|]); (split; [done|]); [by left|by right].
Qed.

Lemma announcements_app tr1 tr2 :
  announcements (tr1 ++ tr2) = announcements tr1 ++ announcements tr2.
Proof. apply omap_app. Qed.

Lemma closed_records_app tr1 tr2 :
  closed_records (tr1 ++ tr2) = closed_records tr1 ++ closed_records tr2.
Proof. apply omap_app. Qed.

(** One phase of the loop: the mode is set, the phase announced, the task
    sleeps; then the rest runs, unless the announcement failed or the sleep was
    cancelled. *)
Lemma wp_phase g channel_id enabled msg seconds (rest : task unit)
    (Q : res unit → World → list op → Prop) w :
  (∀ w' tr e, session_kept w w' → closed_records tr = [] → announcements tr = [msg] →
     Q (Raise e) w' tr) →
  (∀ w' tr, session_kept w w' → closed_records tr = [] → announcements tr = [msg] →
     wp lenient no_guarantee (rest w') (λ r w'' tr', Q r w'' (tr ++ tr'))) →
  wp lenient no_guarantee
    ((set_focus_mode g enabled ;;; send g channel_id msg ;;; sleep seconds ;;; rest) w) Q.
Proof.
  intros Hraise Hrest. unfold bind at 1. apply wp_bind.
  eapply wp_mono; [|apply set_focus_mode_returns].
  intros r w1 tr1 (-> & Hk1 & Ha1 & Hc1). unfold bind at 1. apply wp_bind.
  eapply wp_mono; [|apply send_lenient].
  intros r w2 tr2 (Hl2 & -> & Hr).
  assert (session_kept w w2) as Hk2.
  { eapply session_kept_trans; [exact Hk1|by apply later_session_kept]. }
  assert (closed_records (tr1 ++ [OpSend g channel_id msg]) = []
          ∧ announcements (tr1 ++ [OpSend g channel_id msg]) = [msg]) as [Hc2 Ha2].
  { by rewrite closed_records_app, announcements_app, Hc1, Ha1. }
  destruct Hr as [->|(e & -> & He)]; [|by apply Hraise].
  unfold bind at 1. apply wp_bind.
  eapply wp_mono; [|apply sleep_lenient].
  intros r w3 tr3 (Hl3 & -> & Hr).
  assert (session_kept w w3) as Hk3.
  { eapply session_kept_trans; [exact Hk2|by apply later_session_kept]. }
  assert (closed_records ((tr1 ++ [OpSend g channel_id msg]) ++ [OpSleep seconds]) = []
          ∧ announcements ((tr1 ++ [OpSend g channel_id msg]) ++ [OpSleep seconds]) = [msg])
    as [Hc3 Ha3].
  { rewrite closed_records_app, announcements_app, Hc2, Ha2. done. }
  rewrite <- !app_assoc in Hc3, Ha3.
  destruct Hr as [-> | ->].
  - eapply wp_mono; [|by apply (Hrest w3 _ Hk3 Hc3 Ha3)].
    intros r w4 tr4 HQ. cbv beta in HQ. rewrite <- !app_assoc in HQ. exact HQ.
  - by apply Hraise.
Qed.

Lemma pomodoro_loop_lenient g channel_id wm bm n todo w :
  wp lenient no_guarantee (pomodoro_loop g channel_id wm bm n todo w) (λ r w' tr,
    session_kept w w' ∧ closed_records tr = []
    ∧ announcements tr `prefix_of` phase_script todo n wm bm
    ∧ match r with
      | Ret _ => announcements tr = phase_script todo n wm bm
      | Raise _ => announcements tr ≠ []
      end).
Proof.
  revert w. induction todo as [|cycle todo IH]; intros w.
  { cbn. split; [apply session_kept_refl|]. done. }
  cbn [pomodoro_loop phase_script]. apply wp_phase.
  - intros w' tr e Hk Hc Ha. rewrite Ha. split; [done|]. split; [done|].
    split; [|done]. apply prefix_cons, prefix_nil.
  - intros w1 tr1 Hk1 Hc1 Ha1. destruct (cycle =? n).
    + cbn. rewrite app_nil_r, Ha1. done.
    + apply wp_phase.
      * intros w' tr e Hk Hc Ha.
        rewrite closed_records_app, announcements_app, Hc1, Ha1, Hc, Ha.
        split; [by eapply session_kept_trans|]. split; [done|].
        split; [|done]. cbn. apply prefix_cons, prefix_cons, prefix_nil.
      * intros w2 tr2 Hk2 Hc2 Ha2. eapply wp_mono; [|apply IH].
        intros r w3 tr3 (Hk3 & Hc3 & Hp3 & Hr).
        rewrite !closed_records_app, !announcements_app, Hc1, Ha1, Hc2, Ha2, Hc3.
        split; [eapply session_kept_trans; [|exact Hk3]; by eapply session_kept_trans|].
        split; [done|]. cbn. split; [by apply prefix_cons, prefix_cons|].
        destruct r; [by rewrite Hr|done].
Qed.

(** [stop_session] and the closing announcement, lines 455-459 and 461-465. *)
Lemma closing_lenient g channel_id reason (closing : Z → message) session w :
  active_sessions w !! g = Some session →
  wp lenient no_guarantee
    ((duration <- stop_session g reason ;;
      match duration with
      | Some d => send g channel_id (closing d)
      | None => ret tt
      end) w)
    (λ r w' tr,
       session_stopped g w w' tr
       ∧ announcements tr = [closing (session_duration w session)]
       ∧ (r = Ret tt ∨ ∃ e, r = Raise e ∧ is_Exception e = true)).
Proof.
  intros Hs. unfold bind. apply wp_bind.
  eapply wp_mono; [|by apply (stop_session_lenient g reason session w)].
  intros r w1 tr1 (-> & Hl & _ & Ha & _ & Hc).
  eapply wp_mono; [|apply send_lenient].
  intros r w2 tr2 (Hl2 & -> & Hr). unfold session_stopped.
  rewrite closed_records_app, announcements_app, Hc, Ha. cbn.
  rewrite app_nil_r. split; [|done]. split; [|done].
  apply later_fields in Hl2 as (_ & -> & _). apply later_fields in Hl as (_ & -> & _).
  apply stop_effect_fields.
Qed.

Lemma run_pomodoro_cycles_lenient g channel_id wm bm n session kind w :
  active_sessions w !! g = Some session →
  channels (guild_of w g) !! channel_id = Some kind →
  is_messageable kind = true →
  wp lenient no_guarantee (run_pomodoro_cycles g channel_id wm bm n w) (λ r w' tr,
    pomodoro_states w' !! g = None
    ∧ ∃ said d w1,
        said `prefix_of` phase_script (seqZ 1 n) n wm bm
        ∧ clock w ≤ clock w1 ∧ d = session_duration w1 session
        ∧ match r with
          | Ret _ =>
              announcements tr = phase_script (seqZ 1 n) n wm bm ++ [MsgFinished d]
              ∧ session_stopped g w w' tr
          | Raise e =>
              if is_Exception e then
                (announcements tr = said ∧ said ≠ [] ∧ session_running g session w' tr)
                ∨ (announcements tr = phase_script (seqZ 1 n) n wm bm ++ [MsgFinished d]
                   ∧ session_stopped g w w' tr)
                ∨ (announcements tr = said ++ [MsgStopped d] ∧ session_stopped g w w' tr)
              else
                announcements tr = said ++ [MsgStopped d] ∧ session_stopped g w w' tr
          end).
Proof.
  intros Hs Hch Hmsg. unfold run_pomodoro_cycles, bind at 1, get; cbn [coro_bind].
  rewrite Hch, Hmsg. unfold try_finally. apply wp_finally.
  unfold try_except. apply wp_catch.
  unfold pomodoro_body, bind at 1. apply wp_bind.
  eapply wp_mono; [|apply pomodoro_loop_lenient].
  intros r w1 tr1 (Hk1 & Hc1 & Hp1 & Hr1).
  assert (active_sessions w1 !! g = Some session
          ∧ active_session_record_id w1 !! g = active_session_record_id w !! g
          ∧ clock w ≤ clock w1) as (Hs1 & Hrec1 & Hclock1).
  { destruct Hk1 as (-> & -> & _ & ?). done. }
  assert (∀ (closing : Z → message) w2 tr2 said,
            announcements tr1 = said →
            session_stopped g w1 w2 tr2 →
            announcements tr2 = [closing (session_duration w1 session)] →
            announcements (tr1 ++ tr2) = said ++ [closing (session_duration w1 session)]
            ∧ session_stopped g w (set_pomodoro_states (delete g) w2) (tr1 ++ tr2))
    as Hclosed.
  { intros closing w2 tr2 said Hsaid [Hnone Hc2] Ha2.
    unfold session_stopped.
    rewrite announcements_app, closed_records_app, Hsaid, Ha2, Hc1, Hc2, Hrec1. done. }
  destruct r as [[]|e].
  - (* the loop completed *)
    eapply wp_mono; [|by apply (closing_lenient g channel_id _ MsgFinished session w1)].
    intros r w2 tr2 (Hst & Ha2 & Hr).
    destruct (Hclosed MsgFinished w2 tr2 _ Hr1 Hst Ha2) as [Hann Hstopped].
    destruct Hr as [->|(e & -> & He)].
    + split; [apply lookup_delete_eq|].
      exists (phase_script (seqZ 1 n) n wm bm), (session_duration w1 session), w1. done.
    + destruct e; try discriminate He; cbn [pomodoro_cancelled];
        (split; [apply lookup_delete_eq|]);
        exists (phase_script (seqZ 1 n) n wm bm), (session_duration w1 session), w1;
        (split; [done|]); (split; [done|]); (split; [done|]); right; by left.
  - destruct e; cbn [pomodoro_cancelled].
    6:{ (* cancelled while sleeping: the handler *)
      unfold bind at 1. apply wp_bind.
      eapply wp_mono; [|by apply (stop_session_lenient g "Pomodoro stopped" session w1)].
      intros r w2 tr2 (-> & Hl2 & _ & Ha2 & _ & Hc2).
      unfold bind at 1. apply wp_bind.
      eapply wp_mono; [|apply send_lenient].
      intros r w3 tr3 (Hl3 & -> & Hr).
      assert (session_stopped g w1 w3
                (tr2 ++ [OpSend g channel_id (MsgStopped (session_duration w1 session))])
              ∧ announcements
                  (tr2 ++ [OpSend g channel_id (MsgStopped (session_duration w1 session))])
                = [MsgStopped (session_duration w1 session)]) as [Hst Hann].
      { rewrite announcements_app, Ha2. split; [|done]. split.
        - apply later_fields in Hl3 as (_ & -> & _).
          apply later_fields in Hl2 as (_ & -> & _). apply stop_effect_fields.
        - rewrite closed_records_app, Hc2. cbn. by rewrite app_nil_r. }
      destruct (Hclosed MsgStopped w3 _ _ eq_refl Hst Hann) as [Hann' Hstopped].
      destruct Hr as [->|(e & -> & He)].
      - cbn. split; [apply lookup_delete_eq|].
        exists (announcements tr1), (session_duration w1 session), w1. done.
      - split; [apply lookup_delete_eq|].
        exists (announcements tr1), (session_duration w1 session), w1.
        split; [done|]. split; [done|]. split; [done|]. rewrite He. right. by right. }
    all: split; [apply lookup_delete_eq|];
      exists (announcements tr1), (session_duration w1 session), w1;
      (split; [done|]); (split; [done|]); (split; [done|]); left; done.
Qed.

(** X20.  However a Pomodoro task ends, by running all its cycles or by being
    cancelled while it sleeps, it ends the session.  With a session registered
    and a channel it can post to, in a run without interference: the
    Pomodoro state of the guild is removed, the session is out of the registry
    and its record, and no other, has been closed; and the announcements are
    the whole schedule followed by one "finished" message when the task
    returns, a beginning of the schedule followed by one "stopped" message when
    it was cancelled, the message giving the seconds from the start of the
    session to some moment of the run. *)
Theorem pomodoro_ends_the_session g channel_id wm bm n session kind w :
  active_sessions w !! g = Some session →
  channels (guild_of w g) !! channel_id = Some kind →
  is_messageable kind = true →
  wp lenient no_guarantee (run_pomodoro_cycles g channel_id wm bm n w) (λ r w' tr,
    r = Ret tt ∨ r = Raise CancelledError →
    pomodoro_states w' !! g = None
    ∧ session_stopped g w w' tr
    ∧ ∃ said d w1,
        said `prefix_of` phase_script (seqZ 1 n) n wm bm
        ∧ clock w ≤ clock w1 ∧ d = session_duration w1 session
        ∧ (r = Ret tt
           ∧ announcements tr = phase_script (seqZ 1 n) n wm bm ++ [MsgFinished d]
           ∨ r = Raise CancelledError
             ∧ announcements tr = said ++ [MsgStopped d])).
Proof.
  intros Hs Hch Hmsg. eapply wp_mono; [|by eapply run_pomodoro_cycles_lenient].
  intros r w' tr (Hp & said & d & w1 & Hpre & Hclock & Hd & Hr) [-> | ->].
  - destruct Hr as [Ha Hst]. split; [done|]. split; [done|].
    exists said, d, w1. do 3 (split; [done|]). by left.
  - cbn in Hr. destruct Hr as [Ha Hst]. split; [done|]. split; [done|].
    exists said, d, w1. do 3 (split; [done|]). by right.
Qed.

Lemma pomodoro_ends_the_session_witness :
  wp lenient no_guarantee (run_pomodoro_cycles 7 20 25 5 2 studying_world) (λ r w' tr,
    r = Ret tt → active_sessions w' !! 7 = None ∧ closed_records tr = [1]).
Proof.
  eapply wp_mono;
    [|apply (pomodoro_ends_the_session 7 20 25 5 2 sample_session TextChannel
               studying_world); reflexivity].
  intros r w' tr H ->. destruct H as (_ & [Hnone Hc] & _); [by left|]. done.
Defined.

(** X21.  A Pomodoro task that ends with an error other than cancellation
    (posting a message failed) has removed its Pomodoro state, and either the
    failed message was a phase announcement, in which case the session is
    still registered and no record has been closed: nothing stops the session
    the task was to end; or it was the closing message, after the session was
    stopped. *)
Theorem pomodoro_failed_announcement g channel_id wm bm n session kind w :
  active_sessions w !! g = Some session →
  channels (guild_of w g) !! channel_id = Some kind →
  is_messageable kind = true →
  wp lenient no_guarantee (run_pomodoro_cycles g channel_id wm bm n w) (λ r w' tr,
    ∀ e, r = Raise e → is_Exception e = true →
    pomodoro_states w' !! g = None
    ∧ ∃ said d,
        said `prefix_of` phase_script (seqZ 1 n) n wm bm
        ∧ (announcements tr = said ∧ said ≠ [] ∧ session_running g session w' tr
           ∨ session_stopped g w w' tr
             ∧ (announcements tr = phase_script (seqZ 1 n) n wm bm ++ [MsgFinished d]
                ∨ announcements tr = said ++ [MsgStopped d]))).
Proof.
  intros Hs Hch Hmsg. eapply wp_mono; [|by eapply run_pomodoro_cycles_lenient].
  intros r w' tr (Hp & said & d & w1 & Hpre & Hclock & Hd & Hr) e -> He.
  rewrite He in Hr. split; [done|]. exists said, d. split; [done|].
  destruct Hr as [Hrun|[[Ha Hst]|[Ha Hst]]]; [by left| |].
  - right. split; [done|]. by left.
  - right. split; [done|]. by right.
Qed.

Lemma pomodoro_failed_announcement_witness :
  wp lenient no_guarantee (run_pomodoro_cycles 7 20 25 5 2 studying_world) (λ r w' tr,
    ∀ e, r = Raise e → is_Exception e = true → pomodoro_states w' !! 7 = None).
Proof.
  eapply wp_mono;
    [|apply (pomodoro_failed_announcement 7 20 25 5 2 sample_session TextChannel
               studying_world); reflexivity].
  intros r w' tr H e Hr He. by destruct (H e Hr He) as [Hnone _].
Defined.

(** The first announcement of a two-cycle run fails: the task ends with the
    error, its Pomodoro state is removed, and the session it was to end stays
    registered. *)
Example pomodoro_dies_session_stays :
  out_res (run (run_pomodoro_cycles 7 20 25 5 2 studying_world)
             [quiet; quiet; refuses HTTPException]) = Raise HTTPException
  ∧ active_sessions (out_world (run (run_pomodoro_cycles 7 20 25 5 2 studying_world)
                                  [quiet; quiet; refuses HTTPException])) !! 7
    = Some sample_session
  ∧ pomodoro_states (out_world (run (run_pomodoro_cycles 7 20 25 5 2 studying_world)
                                  [quiet; quiet; refuses HTTPException])) !! 7 = None
  ∧ out_trace (run (run_pomodoro_cycles 7 20 25 5 2 studying_world)
                 [quiet; quiet; refuses HTTPException])
    = [OpEdit 7 1 true "Pomodoro focus mode started";
       OpEdit 7 2 true "Pomodoro focus mode started";
       OpSend 7 20 (MsgFocus 1 2 25)].
Proof. repeat split; reflexivity. Qed.

(** *** A Pomodoro task whose session is gone *)

Lemma set_focus_mode_idle g enabled w :
  active_sessions w !! g = None → set_focus_mode g enabled w = Finished (Ret tt) w.
Proof. intros Hs. unfold set_focus_mode, bind, get; cbn [coro_bind]. by rewrite Hs. Qed.

Lemma wp_phase_idle g channel_id enabled msg seconds (rest : task unit)
    (Q : res unit → World → list op → Prop) w :
  session_inactive g w →
  (∀ w' e, session_inactive g w' → Q (Raise e) w' [OpSend g channel_id msg]) →
  (∀ w', session_inactive g w' →
     Q (Raise CancelledError) w' [OpSend g channel_id msg; OpSleep seconds]) →
  (∀ w', session_inactive g w' →
     wp (resumed_in (session_inactive g)) no_guarantee (rest w')
       (λ r w'' tr', Q r w'' ([OpSend g channel_id msg; OpSleep seconds] ++ tr'))) →
  wp (resumed_in (session_inactive g)) no_guarantee
    ((set_focus_mode g enabled ;;; send g channel_id msg ;;; sleep seconds ;;; rest) w) Q.
Proof.
  intros Hs Hsend Hsleep Hrest. unfold bind at 1. rewrite set_focus_mode_idle by done.
  cbn [coro_bind]. unfold bind, send, sleep, platform_call; cbn.
  split; [done|]. intros [v|e] w1 Hw1; cbn; [|by apply Hsend].
  split; [done|]. intros [v'|e] w2 Hw2; cbn; [|by apply Hsleep].
  eapply wp_mono; [|by apply Hrest]. done.
Qed.

Lemma pomodoro_loop_idle g channel_id wm bm n todo w :
  session_inactive g w →
  wp (resumed_in (session_inactive g)) no_guarantee
    (pomodoro_loop g channel_id wm bm n todo w) (λ r w' tr,
      session_inactive g w' ∧ Forall (λ o, phase_request o = true) tr).
Proof.
  revert w. induction todo as [|cycle todo IH]; intros w Hs; [done|].
  cbn [pomodoro_loop]. apply wp_phase_idle; [done|by repeat constructor..|].
  intros w1 Hs1. destruct (cycle =? n).
  { cbn. split; [done|]. by repeat constructor. }
  apply wp_phase_idle; [done|by repeat constructor..|].
  intros w2 Hs2. eapply wp_mono; [|by apply IH].
  intros r w3 tr [Hs3 Htr]. split; [done|]. by repeat constructor.
Qed.

(** X22.  A Pomodoro task in a guild that has no session, and gets none while
    the task runs (the session was ended under it, say): whatever the replies,
    cancellations included, the task only sleeps and posts focus and break
    announcements.  It closes no record, asks for no mute or unmute, sends no
    store request and posts no closing message. *)
Theorem pomodoro_without_session g channel_id wm bm n w :
  session_inactive g w →
  wp (resumed_in (session_inactive g)) no_guarantee
    (run_pomodoro_cycles g channel_id wm bm n w) (λ r w' tr,
      Forall (λ o, phase_request o = true) tr
      ∧ closed_records tr = [] ∧ mute_attempts tr = [] ∧ unmute_attempts tr = []
      ∧ store_requests tr = []).
Proof.
  intros Hs.
  assert (∀ tr, Forall (λ o, phase_request o = true) tr →
            closed_records tr = [] ∧ mute_attempts tr = [] ∧ unmute_attempts tr = []
            ∧ store_requests tr = []) as Hphase.
  { induction 1 as [|o tr Ho _ (Hc & Hm & Hu & Hst)]; [done|].
    unfold closed_records, mute_attempts, unmute_attempts, store_requests in *. cbn.
    rewrite Hc, Hm, Hu, Hst. by destruct o. }
  eapply wp_mono; [intros r w' tr H; split; [exact H|by apply Hphase]|].
  unfold run_pomodoro_cycles, bind at 1, get; cbn [coro_bind].
  destruct (channels (guild_of w g) !! channel_id) as [kind|]; [|by constructor].
  destruct (is_messageable kind); [|by constructor].
  unfold try_finally. apply wp_finally. unfold try_except. apply wp_catch.
  unfold pomodoro_body, bind at 1. apply wp_bind.
  eapply wp_mono; [|by apply pomodoro_loop_idle].
  intros [[]|e] w1 tr1 [Hs1 Htr1].
  - unfold bind. rewrite stop_session_absent by done. cbn. by rewrite app_nil_r.
  - destruct e; cbn [pomodoro_cancelled]; try done.
    unfold bind. rewrite stop_session_absent by done. cbn. by rewrite app_nil_r.
Qed.

Lemma pomodoro_without_session_witness :
  wp (resumed_in (session_inactive 7)) no_guarantee
    (run_pomodoro_cycles 7 20 25 5 2 idle_world) (λ r w' tr, closed_records tr = []).
Proof.
  eapply wp_mono; [|apply (pomodoro_without_session 7 20 25 5 2 idle_world); reflexivity].
  intros r w' tr (_ & Hc & _). exact Hc.
Defined.

(** *** The commands *)

Lemma respond_lenient text w :
  wp lenient no_guarantee (respond text w) (λ r w' tr,
    r = Ret tt ∧ later w w' ∧ tr = [OpRespond text]).
Proof.
  unfold respond, bind, platform_call; cbn. split; [done|].
  intros [v|e] w' [Hl Hs]; cbn; [done|by destruct e].
Qed.

Lemma pomodoro_start_lenient g channel wm bm n w :
  pomodoro_states w !! g = None →
  (∀ session, active_sessions w !! g = Some session →
     is_Some (get_voice_channel (guild_of w g) (voice_channel_id session))) →
  wp lenient no_guarantee (pomodoro_start g channel wm bm n w) (λ r w' tr,
    r = Ret tt
    ∧ ∃ t session,
        pomodoro_states w' !! g = Some (mk_pomodoro t channel wm bm n)
        ∧ tasks w' !! t = Some (PomodoroTask g channel wm bm n)
        ∧ active_sessions w' !! g = Some session
        ∧ (∀ session0, active_sessions w !! g = Some session0 → session = session0)
        ∧ last tr
          = Some (OpRespond
                    ("Pomodoro started: " +:+ pretty wm +:+ "m focus / "
                     +:+ pretty bm +:+ "m break for " +:+ pretty n
                     +:+ " cycles in <#" +:+ pretty (voice_channel_id session) +:+ ">."))).
Proof.
  intros Hp Hch. unfold pomodoro_start, bind at 1, get at 1; cbn [coro_bind].
  rewrite bool_decide_eq_false_2 by (by apply not_elem_of_dom).
  unfold bind at 1. apply wp_bind.
  destruct (active_sessions w !! g) as [session|] eqn:Hs.
  - (* a session exists: the Pomodoro joins it *)
    destruct (Hch session eq_refl) as [c Hc].
    assert (c = voice_channel_id session) as ->.
    { unfold get_voice_channel in Hc.
      destruct (channels (guild_of w g) !! voice_channel_id session) as [[]|];
        by inversion Hc. }
    unfold start_session, bind at 1, get at 1; cbn [coro_bind]. rewrite Hs, Hc.
    cbn [ret wp]. unfold bind at 1, get at 1; cbn [coro_bind fst snd negb andb].
    rewrite (bool_decide_eq_true_2 (g ∈ dom (active_sessions w)))
      by (apply elem_of_dom; by eexists).
    cbn [negb]. unfold bind at 1, create_task; cbn [coro_bind].
    unfold bind at 1, modify; cbn [coro_bind snd].
    eapply wp_mono; [|apply respond_lenient].
    intros r w' tr (-> & (t' & _ & ->) & ->). split; [done|].
    exists (next_id w), session. cbn.
    split; [apply lookup_insert_eq|]. split; [apply lookup_insert_eq|].
    split; [done|]. split; [by intros ? [= <-]|done].
  - (* no session: one is started *)
    eapply wp_mono; [|by apply start_session_lenient].
    intros r w1 tr1 (c & t & Ht & -> & (t1 & Ht1 & ->) & ->).
    unfold bind at 1, get at 1; cbn [coro_bind fst snd negb andb].
    unfold bind at 1, create_task; cbn [coro_bind].
    unfold bind at 1, modify; cbn [coro_bind snd].
    eapply wp_mono; [|apply respond_lenient].
    intros r w' tr (-> & (t' & _ & ->) & ->). split; [done|].
    eexists _, (mk_session g c (mk_datetime t 0) (next_id w)). cbn.
    split; [apply lookup_insert_eq|]. split; [apply lookup_insert_eq|].
    split; [apply lookup_insert_eq|]. split; [by intros ? [=]|done].
Qed.

(** X23.  [/pomodoro_start] in a guild with no Pomodoro registered (and, when
    a session exists, with its voice channel still there), in a run without
    interference: the command returns; one Pomodoro state is registered for the
    guild, with the parameters given, and its task handle is that of a task
    created to run [run_pomodoro_cycles] with the same parameters; the guild
    has a session, the one it had when it had one; and the reply names the
    session's voice channel. *)
Theorem pomodoro_start_registers_task g channel wm bm n w :
  pomodoro_states w !! g = None →
  (∀ session, active_sessions w !! g = Some session →
     is_Some (get_voice_channel (guild_of w g) (voice_channel_id session))) →
  wp lenient no_guarantee (pomodoro_start g channel wm bm n w) (λ r w' tr,
    r = Ret tt
    ∧ ∃ t session,
        pomodoro_states w' !! g = Some (mk_pomodoro t channel wm bm n)
        ∧ tasks w' !! t = Some (PomodoroTask g channel wm bm n)
        ∧ active_sessions w' !! g = Some session
        ∧ (∀ session0, active_sessions w !! g = Some session0 → session = session0)
        ∧ last tr
          = Some (OpRespond
                    ("Pomodoro started: " +:+ pretty wm +:+ "m focus / "
                     +:+ pretty bm +:+ "m break for " +:+ pretty n
                     +:+ " cycles in <#" +:+ pretty (voice_channel_id session) +:+ ">."))).
Proof. apply pomodoro_start_lenient. Qed.

Lemma pomodoro_start_registers_task_witness :
  wp lenient no_guarantee (pomodoro_start 7 20 25 5 2 studying_world) (λ r w' tr,
    r = Ret tt ∧ active_sessions w' !! 7 = Some sample_session).
Proof.
  eapply wp_mono; [|apply (pomodoro_start_registers_task 7 20 25 5 2 studying_world)].
  - intros r w' tr (-> & t & session & _ & _ & Hs & Hsame & _). split; [done|].
    by rewrite Hs, (Hsame sample_session eq_refl).
  - reflexivity.
  - intros session [= <-]. by eexists.
Defined.

(** X24.  [/pomodoro_start] followed any time later by [/pomodoro_stop]: the
    stop answers "Stopping Pomodoro...", requests the cancellation of the very
    task the start created, and itself neither removes the Pomodoro state nor
    touches the registry of sessions. *)
Theorem pomodoro_stop_cancels_started_task g channel wm bm n w :
  pomodoro_states w !! g = None →
  (∀ session, active_sessions w !! g = Some session →
     is_Some (get_voice_channel (guild_of w g) (voice_channel_id session))) →
  wp lenient no_guarantee (pomodoro_start g channel wm bm n w) (λ r w1 tr,
    ∀ w2, later w1 w2 →
      wp lenient no_guarantee (pomodoro_stop g w2) (λ r' w3 tr',
        r' = Ret tt
        ∧ tr' = [OpRespond "Stopping Pomodoro..."]
        ∧ active_sessions w3 = active_sessions w1
        ∧ ∃ t, t ∈ cancel_requested w3
               ∧ tasks w3 !! t = Some (PomodoroTask g channel wm bm n)
               ∧ pomodoro_states w3 !! g = Some (mk_pomodoro t channel wm bm n))).
Proof.
  intros Hp Hch. eapply wp_mono; [|by apply pomodoro_start_lenient].
  intros r w1 tr (-> & t & session & Hst & Htask & _) w2 Hl.
  apply later_fields in Hl
    as (_ & Hact & _ & _ & _ & _ & Hpom & _ & Htasks & _).
  unfold pomodoro_stop, bind at 1, get at 1; cbn [coro_bind].
  rewrite Hpom, Hst. unfold bind at 1, cancel, modify; cbn [coro_bind].
  eapply wp_mono; [|apply respond_lenient].
  intros r w3 tr' (-> & (t' & _ & ->) & ->). cbn.
  split; [done|]. split; [done|]. split; [done|]. exists t.
  split; [apply elem_of_union_l; by apply elem_of_singleton|].
  by rewrite Htasks, Hpom.
Qed.

Lemma pomodoro_stop_cancels_started_task_witness :
  wp lenient no_guarantee (pomodoro_start 7 20 25 5 2 idle_world) (λ r w1 tr,
    ∀ w2, later w1 w2 →
      wp lenient no_guarantee (pomodoro_stop 7 w2) (λ r' w3 tr',
        tr' = [OpRespond "Stopping Pomodoro..."])).
Proof.
  eapply wp_mono; [|apply (pomodoro_stop_cancels_started_task 7 20 25 5 2 idle_world)].
  - intros r w1 tr H w2 Hl. eapply wp_mono; [|by apply H].
    intros r' w3 tr' (_ & Htr & _). exact Htr.
  - reflexivity.
  - intros session [=].
Defined.

(** X25.  [/pomodoro_start] in a guild that already has a Pomodoro state,
    against any environment: the command's one request is the reply "A Pomodoro
    session is already running.", and it changes nothing: the final state is
    the state found when the reply call returned, whether that call succeeded
    or not. *)
Theorem pomodoro_start_rejects_second g channel wm bm n state w env :
  pomodoro_states w !! g = Some state →
  out_trace (run (pomodoro_start g channel wm bm n w) env)
  = [OpRespond "A Pomodoro session is already running."]
  ∧ out_world (run (pomodoro_start g channel wm bm n w) env)
    = ev_during (next_event env) w.
Proof.
  intros Hp.
  assert (pomodoro_start g channel wm bm n w
          = respond "A Pomodoro session is already running." w) as ->.
  { unfold pomodoro_start, bind at 1, get at 1; cbn [coro_bind].
    by rewrite bool_decide_eq_true_2 by (apply elem_of_dom; by eexists). }
  unfold respond, bind, platform_call; cbn.
  by destruct (ev_reply (next_event env)).
Qed.

Lemma pomodoro_start_rejects_second_witness :
  out_world (run (pomodoro_start 7 20 10 5 3 thread_world) [refuses HTTPException])
  = thread_world.
Proof.
  apply (pomodoro_start_rejects_second 7 20 10 5 3 (mk_pomodoro 2 99 25 5 2) thread_world
           [refuses HTTPException]).
  reflexivity.
Defined.

Lemma stop_effect_keeps g session w :
  pomodoro_states (stop_effect g session w) = pomodoro_states w
  ∧ tasks (stop_effect g session w) = tasks w
  ∧ cancel_requested w ⊆ cancel_requested (stop_effect g session w).
Proof.
  set (w0 := set_active_sessions (delete g) w).
  destruct (settle_frame g (utcnow w) (ledger_keys g w) w0)
    as (_ & _ & _ & _ & Hpom & _ & Htasks & Hcan & _).
  unfold stop_effect. fold w0.
  destruct (enforce_mute_task w !! session_obj session);
    destruct (active_session_record_id w !! g); cbn; rewrite Hpom, Htasks, Hcan;
    (split; [done|]); (split; [done|]); try done; apply union_subseteq_r.
Qed.

(** X26.  [/end_study] in a guild with a session, in a run without
    interference: the command returns, the session is out of the registry and
    its record has been closed, the cancellation of the guild's Pomodoro task,
    if one is registered, has been requested, the Pomodoro state itself is not
    removed, and the reply, the last request, gives the duration as
    [fmt_duration] prints it. *)
Theorem end_study_stops_and_cancels g session w :
  active_sessions w !! g = Some session →
  wp lenient no_guarantee (end_study g w) (λ r w' tr,
    r = Ret tt
    ∧ active_sessions w' !! g = None
    ∧ pomodoro_states w' = pomodoro_states w
    ∧ (∀ p, pomodoro_states w !! g = Some p → task_handle p ∈ cancel_requested w')
    ∧ closed_records tr = option_list (active_session_record_id w !! g)
    ∧ last tr
      = Some (OpRespond ("Study session ended. Session duration: "
                         +:+ fmt_duration (session_duration w session)))).
Proof.
  intros Hs. unfold end_study, bind at 1, get at 1; cbn [coro_bind].
  unfold bind at 1. apply wp_bind.
  set (w0 := match pomodoro_states w !! g with
             | Some p => set_cancel_requested (λ s, {[task_handle p]} ∪ s) w
             | None => w
             end).
  assert (match pomodoro_states w !! g with
          | Some pomodoro => cancel (task_handle pomodoro)
          | None => ret ()
          end w = Finished (Ret tt) w0) as ->.
  { unfold w0. by destruct (pomodoro_states w !! g). }
  cbn [wp]. unfold bind at 1. apply wp_bind.
  assert (active_sessions w0 !! g = Some session
          ∧ pomodoro_states w0 = pomodoro_states w
          ∧ active_session_record_id w0 = active_session_record_id w
          ∧ session_duration w0 session = session_duration w session
          ∧ ∀ p, pomodoro_states w !! g = Some p → task_handle p ∈ cancel_requested w0)
    as (Hs0 & Hpom0 & Hrec0 & Hd0 & Hcan0).
  { unfold w0. destruct (pomodoro_states w !! g) as [p|]; cbn; repeat split; try done.
    intros ? [= <-]. apply elem_of_union_l. by apply elem_of_singleton. }
  eapply wp_mono; [|by apply (stop_session_lenient g "Study session ended" session w0)].
  intros r w1 tr1 (-> & Hl1 & _ & _ & _ & Hc1).
  eapply wp_mono; [|apply respond_lenient].
  intros r w2 tr2 (-> & Hl2 & ->).
  pose proof (later_trans _ _ _ Hl1 Hl2) as Hl.
  apply later_fields in Hl as (_ & -> & _ & _ & _ & _ & -> & _ & _ & -> & _).
  destruct (stop_effect_fields g session w0) as (Hnone & _).
  destruct (stop_effect_keeps g session w0) as (Hpom & _ & Hcan).
  split; [done|]. split; [done|]. split; [by rewrite Hpom|].
  split; [intros p Hp; by apply Hcan, Hcan0|].
  rewrite !app_nil_l, closed_records_app, Hc1, Hrec0, Hd0. cbn. rewrite app_nil_r.
  split; [done|]. by rewrite last_snoc.
Qed.

Lemma end_study_stops_and_cancels_witness :
  wp lenient no_guarantee (end_study 7 later_world) (λ r w' tr,
    r = Ret tt
    ∧ last tr = Some (OpRespond "Study session ended. Session duration: 0h 2m 0s")).
Proof.
  eapply wp_mono;
    [|apply (end_study_stops_and_cancels 7 sample_session later_world); reflexivity].
  intros r w' tr (-> & _ & _ & _ & _ & Hlast). split; [done|]. rewrite Hlast.
  reflexivity.
Defined.

(** X27.  [/end_study] in a guild without a session: the only request is the
    reply "No active study session."; the store, the registry and the Pomodoro
    states are untouched; but the cancellation of a registered Pomodoro task is
    requested all the same. *)
Theorem end_study_without_session g w :
  active_sessions w !! g = None →
  wp lenient no_guarantee (end_study g w) (λ r w' tr,
    r = Ret tt
    ∧ tr = [OpRespond "No active study session."]
    ∧ (∀ p, pomodoro_states w !! g = Some p → task_handle p ∈ cancel_requested w')
    ∧ store w' = store w
    ∧ active_sessions w' = active_sessions w
    ∧ pomodoro_states w' = pomodoro_states w).
Proof.
  intros Hs. unfold end_study, bind at 1, get at 1; cbn [coro_bind].
  unfold bind at 1. apply wp_bind.
  destruct (pomodoro_states w !! g) as [p|] eqn:Hp; cbn [cancel modify ret wp].
  - unfold bind. rewrite stop_session_absent by done. cbn [coro_bind].
    eapply wp_mono; [|apply respond_lenient].
    intros r w' tr (-> & (t & _ & ->) & ->). cbn. repeat split; try done.
    intros ? [= <-]. apply elem_of_union_l. by apply elem_of_singleton.
  - unfold bind. rewrite stop_session_absent by done. cbn [coro_bind].
    eapply wp_mono; [|apply respond_lenient].
    intros r w' tr (-> & (t & _ & ->) & ->). cbn. repeat split; done.
Qed.

Lemma end_study_without_session_witness :
  wp lenient no_guarantee (end_study 7 idle_world) (λ r w' tr,
    tr = [OpRespond "No active study session."]).
Proof.
  eapply wp_mono; [|apply (end_study_without_session 7 idle_world); reflexivity].
  intros r w' tr (_ & Htr & _). exact Htr.
Defined.

(** X28.  [/start_study] twice.  In a guild without a session the first
    command returns with a session registered and a reply naming its channel;
    a second command any time later only replies "A study session is already
    active." and changes nothing. *)
Theorem start_study_twice g w :
  active_sessions w !! g = None →
  wp lenient no_guarantee (start_study g w) (λ r w1 tr,
    r = Ret tt
    ∧ ∃ session,
        active_sessions w1 !! g = Some session
        ∧ last tr
          = Some (OpRespond ("Study session started in <#"
                             +:+ pretty (voice_channel_id session)
                             +:+ ">. Everyone in that channel will be server-muted."))
        ∧ ∀ w2, later w1 w2 →
            wp lenient no_guarantee (start_study g w2) (λ r' w3 tr',
              r' = Ret tt
              ∧ tr' = [OpRespond "A study session is already active."]
              ∧ later w2 w3)).
Proof.
  intros Hs. unfold start_study at 1, bind at 1. apply wp_bind.
  eapply wp_mono; [|by apply start_session_lenient].
  intros r w1 tr1 (c & t & Ht & -> & Hl1 & ->). cbn [fst snd negb].
  eapply wp_mono; [|apply respond_lenient].
  intros r w2 tr2 (-> & Hl2 & ->). split; [done|].
  pose proof (later_trans _ _ _ Hl1 Hl2) as Hl.
  exists (mk_session g c (mk_datetime t 0) (next_id w)).
  assert (active_sessions w2 !! g = Some (mk_session g c (mk_datetime t 0) (next_id w)))
    as Hact.
  { apply later_fields in Hl as (_ & -> & _). cbn. apply lookup_insert_eq. }
  split; [done|]. split; [done|].
  intros w3 Hl3. apply later_fields in Hl3 as Hf3. destruct Hf3 as (_ & Hact3 & _).
  unfold start_study, bind at 1, start_session, bind at 1, get at 1; cbn [coro_bind].
  rewrite Hact3, Hact. cbn [ret coro_bind fst negb].
  eapply wp_mono; [|apply respond_lenient]. by intros r w4 tr (-> & Hl4 & ->).
Qed.

Lemma start_study_twice_witness :
  wp lenient no_guarantee (start_study 7 idle_world) (λ r w1 tr,
    r = Ret tt ∧ is_Some (active_sessions w1 !! 7)).
Proof.
  eapply wp_mono; [|apply (start_study_twice 7 idle_world); reflexivity].
  intros r w1 tr (-> & session & Hs & _). split; [done|]. by eexists.
Defined.

(** *** A tick of the enforcement loop *)

Lemma enforce_member_obliging g member ids w :
  enforced_user_ids w !! g = Some ids →
  wp obliging no_guarantee (enforce_member g member w) (λ r w' tr,
    r = Ret tt
    ∧ mute_attempts tr = (if to_be_muted (guild_of w g) member then [member_id member] else [])
    ∧ unmute_attempts tr = [] ∧ store_requests tr = [] ∧ announcements tr = []
    ∧ ∃ t, clock w ≤ t
        ∧ w' = at_time t
                 (set_enforced_user_ids
                    (λ _, <[g := list_to_set (mute_attempts tr) ∪ ids]> (enforced_user_ids w))
                    w)).
Proof.
  intros He.
  assert (∀ w0 : World, enforced_user_ids w0 !! g = Some ids →
            w0 = set_enforced_user_ids
                   (λ _, <[g := list_to_set [] ∪ ids]> (enforced_user_ids w0)) w0) as Hid.
  { intros w0 He0. cbn. rewrite (left_id_L ∅ (∪)), insert_id by done. by destruct w0. }
  assert (∃ t, clock w ≤ t
            ∧ w = at_time t
                    (set_enforced_user_ids
                       (λ _, <[g := list_to_set [] ∪ ids]> (enforced_user_ids w)) w))
    as Hsame.
  { exists (clock w). split; [lia|]. rewrite <- Hid by done. by destruct w. }
  unfold enforce_member, to_be_muted, voice_muted.
  destruct (member_bot member); cbn [orb negb]; [done|].
  unfold bind at 1, get at 1; cbn [coro_bind].
  destruct (member_voice (guild_of w g) (member_id member)) as [voice|];
    cbn [orb negb]; [|by rewrite bool_decide_eq_true_2].
  rewrite bool_decide_eq_false_2 by done. cbn [orb].
  destruct (vs_mute voice); cbn [negb]; [done|].
  unfold bind, member_edit, platform_call, get, modify; cbn.
  split; [done|]. intros r w1 [(t & Ht & ->) [v ->]]. cbn. rewrite He. cbn.
  split; [done|]. do 4 (split; [done|]). exists t. split; [done|].
  rewrite (right_id_L ∅ (∪)). done.
Qed.

Lemma enforce_pass_obliging g ms ids w :
  enforced_user_ids w !! g = Some ids →
  wp obliging no_guarantee (for_each ms (enforce_member g) w) (λ r w' tr,
    r = Ret tt
    ∧ mute_attempts tr
      = member_id <$> filter (λ m, to_be_muted (guild_of w g) m = true) ms
    ∧ unmute_attempts tr = [] ∧ store_requests tr = [] ∧ announcements tr = []
    ∧ ∃ t, clock w ≤ t
        ∧ w' = at_time t
                 (set_enforced_user_ids
                    (λ _, <[g := list_to_set (mute_attempts tr) ∪ ids]> (enforced_user_ids w))
                    w)).
Proof.
  revert ids w. induction ms as [|m ms IH]; intros ids w He.
  { cbn. do 5 (split; [done|]). exists (clock w). split; [lia|].
    rewrite (left_id_L ∅ (∪)), insert_id by done. by destruct w. }
  cbn [for_each]. unfold bind. apply wp_bind.
  eapply wp_mono; [|by apply (enforce_member_obliging g m ids w)].
  intros r w1 tr1 (-> & Hm1 & Hu1 & Hs1 & Ha1 & t1 & Ht1 & ->).
  set (ids1 := list_to_set (mute_attempts tr1) ∪ ids).
  eapply wp_mono.
  2:{ apply (IH ids1). cbn. apply lookup_insert_eq. }
  intros r w2 tr2 (-> & Hm2 & Hu2 & Hs2 & Ha2 & t2 & Ht2 & ->).
  change (guild_of (at_time t1 _) g) with (guild_of w g) in Hm2.
  assert (mute_attempts (tr1 ++ tr2)
          = member_id <$> filter (λ m0, to_be_muted (guild_of w g) m0 = true) (m :: ms))
    as Hall.
  { unfold mute_attempts in *. rewrite omap_app, Hm1, Hm2, filter_cons.
    destruct (to_be_muted (guild_of w g) m) eqn:E.
    - by rewrite decide_True.
    - by rewrite decide_False. }
  split; [done|]. split; [exact Hall|].
  unfold unmute_attempts, store_requests, announcements in *.
  rewrite !omap_app, Hu1, Hu2, Hs1, Hs2, Ha1, Ha2.
  do 3 (split; [done|]). exists t2. split; [cbn in Ht2; lia|].
  unfold at_time, set_enforced_user_ids; cbn. f_equal.
  rewrite insert_insert_eq. f_equal. unfold ids1, mute_attempts.
  rewrite omap_app, list_to_set_app_L.
  rewrite (assoc_L (∪)). f_equal. apply (comm_L (∪)).
Qed.

(** X29.  A tick of the enforcement loop during focus (the flag set, or
    absent) in which every call succeeds, with the guild's enforced set in
    place: every member present in the channel that is neither a bot nor muted
    is asked to be muted, in the order of the channel's member list, and
    exactly these are added to the enforced set; then the tick sleeps ten
    seconds.  Nothing is unmuted, announced or written to the store, and the
    join instants are untouched. *)
Theorem enforce_iteration_mutes_the_unmuted g channel_id ids w :
  default true (focus_mode_active w !! g) = true →
  enforced_user_ids w !! g = Some ids →
  wp obliging no_guarantee (enforce_iteration g channel_id w) (λ r w' tr,
    r = Ret tt
    ∧ mute_attempts tr
      = member_id <$> filter (λ m, to_be_muted (guild_of w g) m = true)
                        (channel_members (guild_of w g) channel_id)
    ∧ enforced_user_ids w' !! g = Some (list_to_set (mute_attempts tr) ∪ ids)
    ∧ last tr = Some (OpSleep 10)
    ∧ unmute_attempts tr = [] ∧ store_requests tr = [] ∧ announcements tr = []
    ∧ store w' = store w ∧ session_joined_at w' = session_joined_at w).
Proof.
  intros Hf He. unfold enforce_iteration, try_except. apply wp_catch.
  unfold bind at 1, get at 1; cbn [coro_bind]. rewrite Hf. cbn [negb].
  unfold bind at 1. apply wp_bind.
  eapply wp_mono;
    [|by apply (enforce_pass_obliging g (channel_members (guild_of w g) channel_id) ids w)].
  intros r w1 tr1 (-> & Hm1 & Hu1 & Hs1 & Ha1 & t1 & Ht1 & ->).
  unfold sleep; cbn. split; [done|]. intros r w2 [(t2 & Ht2 & ->) [v ->]]. cbn.
  unfold mute_attempts, unmute_attempts, store_requests, announcements in *.
  rewrite !omap_app, Hu1, Hs1, Ha1, last_snoc. cbn. rewrite !app_nil_r.
  split; [done|]. split; [done|]. split; [apply lookup_insert_eq|]. done.
Qed.

Lemma enforce_iteration_mutes_the_unmuted_witness :
  wp obliging no_guarantee (enforce_iteration 7 10 enforcing_world) (λ r w' tr,
    r = Ret tt ∧ mute_attempts tr = [1; 2]
    ∧ enforced_user_ids w' !! 7 = Some ({[1; 2]} : gset Z)).
Proof.
  eapply wp_mono;
    [|apply (enforce_iteration_mutes_the_unmuted 7 10 ∅ enforcing_world); reflexivity].
  intros r w' tr (-> & Hm & He & _). split; [done|]. split; [by rewrite Hm|].
  rewrite He, Hm. reflexivity.
Defined.

(** X30.  A tick of the enforcement loop during a break (focus flag off),
    against any environment, mutes no one: its one request is a sleep of five
    seconds.  When the sleep runs its time the tick returns; when the sleep is
    cut short, which is the cancellation of the task, the tick ends with
    [CancelledError]: the tick's handler for [Exception] does not catch it, and
    no second sleep follows.  Either way the state is the one found when the
    sleep ended. *)
Theorem enforce_iteration_idles_in_breaks g channel_id w env :
  focus_mode_active w !! g = Some false →
  run (enforce_iteration g channel_id w) env
  = mk_outcome
      (match ev_reply (next_event env) with
       | ROk _ => Ret tt
       | RFail _ => Raise CancelledError
       end)
      (ev_during (next_event env) w) [OpSleep 5] (tail env).
Proof.
  intros Hf. unfold enforce_iteration, try_except, bind, get; cbn [coro_bind].
  rewrite Hf. cbn. by destruct (ev_reply (next_event env)).
Qed.

Lemma enforce_iteration_idles_in_breaks_witness :
  out_res (run (enforce_iteration 7 10
                  (set_focus_mode_active <[7 := false]> enforcing_world))
             [refuses CancelledError]) = Raise CancelledError
  ∧ out_trace (run (enforce_iteration 7 10
                      (set_focus_mode_active <[7 := false]> enforcing_world))
                 [refuses CancelledError]) = [OpSleep 5].
Proof.
  rewrite (enforce_iteration_idles_in_breaks 7 10
             (set_focus_mode_active <[7 := false]> enforcing_world)
             [refuses CancelledError]); [done|reflexivity].
Defined.

(** ** A completed Pomodoro run *)

(** C4, with the provisos it needs.  A run of [n >= 1] cycles that completes:
    the text channel can be posted to, the guild has a session, nobody else
    ends it meanwhile, and the run returns (no cancellation and no error ends
    it; refusals to mute single members are allowed).  Its focus and break
    announcements are [2n - 1] in number, focus [i/n] at the even places and a
    break at the odd ones, so [n] focus announcements and [n - 1] breaks,
    strictly alternating from a focus announcement and with none after the last
    focus phase.  Then the session that is registered when the loop ends is
    stopped with reason "Pomodoro completed": the stop takes the guild out of
    the registry before it first gives up control, announces nothing, asks the
    store to close at most one record and returns the whole seconds since that
    session started; and when nothing interferes with the stop, it leaves the
    guild without an entry in the registry, the record ids, the enforced sets,
    the ledgers and the focus flags, with the session's record closed at that
    duration and the cancellation of its enforcement task requested.  Last
    comes the announcement of the duration that the stop returned. *)
Theorem pomodoro_completes_with_alternating_phases (g ch work brk n : Z) (w : World)
    (env : list event) :
  1 ≤ n →
  (∃ kind, channels (guild_of w g) !! ch = Some kind ∧ is_messageable kind = true) →
  session_active g w →
  Forall (keeps (session_active g)) env →
  out_res (run (run_pomodoro_cycles g ch work brk n w) env) = Ret tt →
  ∃ phases d session,
    let out := run (run_pomodoro_cycles g ch work brk n w) env in
    let loop := run (pomodoro_loop g ch work brk n (seqZ 1 n) w) env in
    let stop := run (stop_session g "Pomodoro completed" (out_world loop)) (out_rest loop) in
    announcements (out_trace out) = phases ++ [MsgFinished d]
    ∧ length phases = Z.to_nat (2 * n - 1)
    ∧ (∀ i : nat, Z.of_nat i < n →
         phases !! (2 * i)%nat = Some (MsgFocus (Z.of_nat i + 1) n work))
    ∧ (∀ i : nat, Z.of_nat i < n - 1 → phases !! (2 * i + 1)%nat = Some (MsgBreak brk))
    ∧ Z.of_nat (length (filter (λ m, is_focus m = true) phases)) = n
    ∧ Z.of_nat (length (filter (λ m, is_break m = true) phases)) = n - 1
    ∧ announcements (out_trace loop) = phases
    ∧ out_res stop = Ret (Some d)
    ∧ announcements (out_trace stop) = []
    ∧ out_trace out = out_trace loop ++ out_trace stop ++ [OpSend g ch (MsgFinished d)]
    ∧ active_sessions (out_world loop) !! g = Some session
    ∧ d = session_duration (out_world loop) session
    ∧ session_inactive g (first_world (stop_session g "Pomodoro completed" (out_world loop)))
    ∧ (length (closed_records (out_trace stop)) ≤ 1)%nat
    ∧ (follows lenient (stop_session g "Pomodoro completed" (out_world loop))
         (out_rest loop) →
       active_sessions (out_world stop) !! g = None
       ∧ active_session_record_id (out_world stop) !! g = None
       ∧ enforced_user_ids (out_world stop) !! g = None
       ∧ session_joined_at (out_world stop) !! g = None
       ∧ focus_mode_active (out_world stop) !! g = None
       ∧ closed_records (out_trace stop)
         = option_list (active_session_record_id (out_world loop) !! g)
       ∧ (∀ session_id, active_session_record_id (out_world loop) !! g = Some session_id →
            session_history (store (out_world stop)) !! session_id
            = close_row (utcnow (out_world loop)) d
                <$> session_history (store (out_world loop)) !! session_id)
       ∧ (∀ t, enforce_mute_task (out_world loop) !! session_obj session = Some t →
            t ∈ cancel_requested (out_world stop))).
Proof.
  intros Hn (kind & Hch & Hmsg) Hactive Hkeep Hret.
  set (loop := run (pomodoro_loop g ch work brk n (seqZ 1 n) w) env).
  set (stop := run (stop_session g "Pomodoro completed" (out_world loop)) (out_rest loop)).
  (* the loop keeps the session and announces the phases *)
  assert (session_active g (out_world loop)
          ∧ ∀ a, out_res loop = Ret a →
              announcements (out_trace loop) = phase_script (seqZ 1 n) n work brk)
    as [[session Hsession] Hloop_ann].
  { apply (wp_run (undisturbed (session_active g)) no_guarantee
             (pomodoro_loop g ch work brk n (seqZ 1 n) w)
             (λ r w' tr, session_active g w'
                         ∧ ∀ a, r = Ret a →
                             announcements tr = phase_script (seqZ 1 n) n work brk) env).
    - intros o w0 Hw0. exact Hw0.
    - eapply Forall_impl; [exact Hkeep|]. intros e He o w0 Hw0. by apply He.
    - by apply (announcing_pomodoro_loop _ _ (has_session g)). }
  (* the stop returns the duration of that session *)
  assert (closes_at_most_once (out_trace stop)
          ∧ ∀ a, out_res stop = Ret a → a = Some (session_duration (out_world loop) session))
    as [Hstop_tr Hstop_res].
  { apply (wp_run any_env no_guarantee
             (stop_session g "Pomodoro completed" (out_world loop))
             (λ r _ tr, closes_at_most_once tr
                        ∧ ∀ a, r = Ret a → a = Some (session_duration (out_world loop) session))
             (out_rest loop)); [done|by apply Forall_forall|].
    eapply wp_mono; [|apply (stop_session_wp _ _ (λ _, True))]; try done.
    intros r w' tr (_ & Htr & Hr). split; [done|]. intros a. by apply Hr. }
  set (d := session_duration (out_world loop) session) in *.
  (* the run is its [try] block, which returned *)
  assert (run (run_pomodoro_cycles g ch work brk n w) env
          = run (coro_finally (coro_catch (pomodoro_body g ch work brk n w)
                                 (pomodoro_cancelled g ch))
                   (set_pomodoro_states (delete g))) env) as Hrun.
  { unfold run_pomodoro_cycles, bind, get; simpl. by rewrite Hch, Hmsg. }
  rewrite Hrun in Hret.
  destruct (run_finally_res (coro_catch (pomodoro_body g ch work brk n w)
                               (pomodoro_cancelled g ch))
              (set_pomodoro_states (delete g)) env) as (Hres & Htrace & _).
  rewrite Hres in Hret.
  pose proof (run_catch_returns _ _ _ _
                (λ e handler w' env', pomodoro_cancelled_raises g ch e handler w' env') Hret)
    as Hcatch.
  rewrite Hcatch in Hret.
  assert (run (pomodoro_body g ch work brk n w) env
          = mk_outcome (Ret tt) (ev_during (next_event (out_rest stop)) (out_world stop))
              (out_trace loop ++ out_trace stop ++ [OpSend g ch (MsgFinished d)])
              (tail (out_rest stop))
          ∧ out_res loop = Ret tt ∧ out_res stop = Ret (Some d)) as (Hbody & Hloop_res & Hstop).
  { assert (∀ k : option Z → task unit,
              run (bind (stop_session g "Pomodoro completed") k (out_world loop)) (out_rest loop)
              = and_then stop k) as Hthen.
    { intros k. unfold bind. by rewrite run_bind. }
    assert (run (pomodoro_body g ch work brk n w) env
            = and_then loop (λ _,
                duration <- stop_session g "Pomodoro completed" ;;
                match duration with
                | Some d0 => send g ch (MsgFinished d0)
                | None => ret tt
                end)) as Heq.
    { unfold pomodoro_body. unfold bind at 1. by rewrite run_bind. }
    rewrite Heq in Hret |- *. unfold and_then in Hret |- *.
    destruct (out_res loop) as [[]|e] eqn:Hloop_res; [|done].
    rewrite Hthen in Hret |- *. unfold and_then in Hret |- *.
    destruct (out_res stop) as [a|e] eqn:Hstop; [|done].
    rewrite (Hstop_res a eq_refl) in Hret |- *.
    cbn [out_res out_world out_trace out_rest] in Hret |- *.
    rewrite (run_send_returns _ _ _ _ _ _ Hret). done. }
  destruct (phase_script_shape work brk n (Z.to_nat (n - 1)) 1 ltac:(lia))
    as (Hlen & Hfocus & Hbreak & Hnf & Hnb).
  replace (Z.of_nat (Z.to_nat (n - 1)) + 1) with n in * by lia.
  exists (phase_script (seqZ 1 n) n work brk), d, session. cbv zeta. fold loop. fold stop.
  rewrite Hrun, Htrace, Hcatch, Hbody; cbn [out_res out_trace out_world out_rest].
  split.
  { unfold announcements in *. rewrite !omap_app. rewrite (Hloop_ann tt Hloop_res).
    fold (announcements (out_trace stop)). by rewrite closes_at_most_once_silent. }
  split; [rewrite Hlen; lia|]. split.
  { intros i Hi. rewrite Hfocus by lia. f_equal. f_equal. lia. }
  split; [intros i Hi; apply Hbreak; lia|].
  split; [rewrite Hnf; lia|]. split; [rewrite Hnb; lia|].
  split; [exact (Hloop_ann tt Hloop_res)|]. split; [done|].
  split; [by apply closes_at_most_once_silent|]. split; [done|].
  split; [done|]. split; [done|].
  split.
  { eapply wp_first_world; [| |exact (stop_session_suspensions g _ (out_world loop))];
      [done|by intros o w0 [? _]]. }
  split; [by apply closes_at_most_once_length|].
  intros Hfollows.
  destruct (wp_follows _ _ _ _ _
              (stop_session_lenient g "Pomodoro completed" session (out_world loop) Hsession)
              Hfollows) as (_ & Hl & _ & _ & _ & Hc).
  fold stop in Hl, Hc.
  apply later_fields in Hl
    as (Hst & Hact & Hrec & Henf & Hj & Hf & _ & _ & _ & Hcan & _).
  rewrite Hst, Hact, Hrec, Henf, Hj, Hf, Hcan.
  pose proof (stop_effect_fields g session (out_world loop)) as H.
  destruct H as (H1 & H2 & H3 & H4 & H5 & _ & H7 & H8).
  repeat (split; [done|]). done.
Qed.

Lemma pomodoro_completes_witness :
  ∃ phases d,
    announcements (out_trace (run (run_pomodoro_cycles 7 20 25 5 2 studying_world)
                                refuse_first))
    = phases ++ [MsgFinished d]
    ∧ length phases = 3%nat.
Proof.
  destruct (pomodoro_completes_with_alternating_phases 7 20 25 5 2 studying_world
              refuse_first)
    as (phases & d & session & Hann & Hlen & _).
  - lia.
  - exists TextChannel. split; reflexivity.
  - eexists. reflexivity.
  - repeat constructor. intros w Hw. exact Hw.
  - vm_compute. reflexivity.
  - exists phases, d. split; [exact Hann|exact Hlen].
Defined.

(** C4 as stated, of every run that completes, fails without the provisos.  A
    run whose text channel does not resolve to a channel it can post to (the
    command came from a thread) returns at once and announces nothing; and a
    run in a guild without a session completes with its phase announcements
    and no announcement of a duration. *)
Lemma pomodoro_completion_needs_its_provisos :
  ¬ (∀ g ch work brk n w env,
       1 ≤ n →
       out_res (run (run_pomodoro_cycles g ch work brk n w) env) = Ret tt →
       ∃ phases d,
         announcements (out_trace (run (run_pomodoro_cycles g ch work brk n w) env))
         = phases ++ [MsgFinished d]
         ∧ Z.of_nat (length (filter (λ m, is_focus m = true) phases)) = n
         ∧ Z.of_nat (length (filter (λ m, is_break m = true) phases)) = n - 1).
Proof.
  intros H.
  destruct (H 7 99 25 5 2 thread_world [] ltac:(lia) ltac:(reflexivity))
    as (phases & d & Hann & _).
  vm_compute in Hann. by destruct phases.
Qed.

(** The same in a guild without a session: the run completes and its last
    announcement is that of a focus phase. *)
Example pomodoro_without_session_announces_no_duration :
  out_res (run (run_pomodoro_cycles 7 20 25 5 2 idle_world) []) = Ret tt
  ∧ announcements (out_trace (run (run_pomodoro_cycles 7 20 25 5 2 idle_world) []))
    = [MsgFocus 1 2 25; MsgBreak 5; MsgFocus 2 2 25].
Proof. split; reflexivity. Qed.

(** The completed run of the sample session in a quiet environment: nothing
    interferes with its stop, which leaves guild 7 out of the registry with
    record 1 closed. *)
Example pomodoro_completes_and_stops :
  follows lenient
    (stop_session 7 "Pomodoro completed"
       (out_world (run (pomodoro_loop 7 20 25 5 2 (seqZ 1 2) studying_world) [])))
    (out_rest (run (pomodoro_loop 7 20 25 5 2 (seqZ 1 2) studying_world) []))
  ∧ active_sessions (out_world (run (run_pomodoro_cycles 7 20 25 5 2 studying_world) []))
      !! 7 = None
  ∧ closed_records (out_trace (run (run_pomodoro_cycles 7 20 25 5 2 studying_world) []))
    = [1].
Proof.
  split; [|split; reflexivity].
  vm_compute. split; [|done]. split; [|done]. eexists. split; [|reflexivity]. done.
Qed.
